(** * JpegToRelief: thickness field and binary STL serialisation

    A shallow embedding of the two web variants of the relief generator:
    - [Docs]    : src/docs/app.js
    - [Part000] : src/unnamed/part_000
    Each module follows its source function by function
    ([srgbToLinear], [computeThicknessMap], [buildBinarySTL]).

    JavaScript numbers are read as mathematical reals: the rounding of
    binary64 arithmetic is outside the model, and so are NaN and the
    infinities of binary64 (an [undefined] read is kept apart as
    [Undefined]; a division by zero, which needs [toneGamma = 0],
    [widthPx = 0] or an image of width 0, has Rocq's value; statements that
    depend on it carry the hypothesis that excludes it).
    Integer-valued numbers (sizes, indices, offsets) are in [Z].

    The store of a thickness into the [Float32Array] is modelled twice.
    [Docs] and [Part000] keep the number that is stored, which is what the
    relations between fields and the geometry of the solid are about;
    [DocsF32] and [Part000F32] are the same loops with the store narrowing
    the number to binary32 ([F32.Math_fround]), which is what the array
    holds. *)

From Stdlib Require Import ZArith Reals Lra Lia Psatz.
From stdpp Require Import base list.

Local Open Scope Z_scope.

(** ** The JavaScript platform *)

Module JS.

(** Exceptions raised by the platform operations the program calls. *)
Inductive exn : Type :=
| RangeError       (* ArrayBuffer / typed array length, DataView offset *)
| IndexSizeError.  (* CanvasRenderingContext2D.getImageData, zero extent *)

Inductive result (A : Type) : Type :=
| Ok (a : A)
| Throw (e : exn).
Arguments Ok {A} a.
Arguments Throw {A} e.

Definition Math_max (a b : R) : R := Rmax a b.
Definition Math_min (a b : R) : R := Rmin a b.
Definition Math_abs (a : R) : R := Rabs a.

(** [Math.floor] and [Math.round] (ties go up), of the exact argument: where
    the exact argument is an integer (for [Math.floor]) or half-way between
    two integers (for [Math.round]), the binary64 argument of the program can
    fall on either side. *)
Definition Math_floor (a : R) : Z := Int_part a.
Definition Math_round (a : R) : Z := Int_part (a + / 2).

(** [Math.pow] on a non-negative base.  [Rpower] is [exp (y * ln x)], which
    is the power for [0 < x]; at base [0] the platform returns [0] for a
    positive exponent and [1] for exponent [0] (and Infinity for a negative
    one, which only a negative [toneGamma] reaches and the reals lack).  The
    exponent is a real: an exponent [1 / toneGamma] that overflows binary64,
    for which the platform returns NaN at base 1, is outside the model. *)
Definition Math_pow (x y : R) : R :=
  if Req_dec_T x 0 then (if Req_dec_T y 0 then 1 else 0) else Rpower x y.

(** A value handed to a [DataView] setter: a number, or [undefined] (what
    an out-of-range typed-array read yields). *)
Inductive value : Type :=
| Num (r : R)
| Undefined.

(** Typed-array element store [a[i] = v]: ignored outside the array. *)
Definition ta_set {A} (a : list A) (i : Z) (v : A) : list A :=
  if (0 <=? i) then <[Z.to_nat i := v]> a else a.

(** Typed-array element read [a[i]]. *)
Definition ta_get (a : list R) (i : Z) : value :=
  if (0 <=? i) then
    match a !! Z.to_nat i with Some r => Num r | None => Undefined end
  else Undefined.

(** [for (let i = 0; i < n; i++) body(i)] over a threaded state. *)
Definition for_lt {S} (n : Z) (body : Z → S → S) (s : S) : S :=
  foldl (λ s i, body i s) s (seqZ 0 n).

(** State of the closure variables a function mutates, with exceptions. *)
Definition M (S A : Type) : Type := S → result (A * S).

#[global] Instance M_ret {S} : MRet (M S) := λ A a s, Ok (a, s).
#[global] Instance M_bind {S} : MBind (M S) := λ A B k m s,
  match m s with
  | Ok (a, s') => k a s'
  | Throw e => Throw e
  end.

(** [for (let i = 0; i < n; i++) body(i)] in [M]. *)
Fixpoint forM {S} (xs : list Z) (body : Z → M S unit) : M S unit :=
  match xs with
  | [] => mret tt
  | x :: xs => body x;; forM xs body
  end.

Definition for_ {S} (n : Z) (body : Z → M S unit) : M S unit :=
  forM (seqZ 0 n) body.

End JS.
Import JS.

(** ** Data shared by both variants *)

(** A decoded image.  [drawn img W H] is the RGBA8 sample array that
    [drawImage(img, 0, 0, W, H)] followed by [getImageData(0, 0, W, H)]
    yields: the browser's resampling is not part of the program, and what
    the program relies on is that the array has four samples per pixel. *)
Record Image : Type := {
  width  : Z;
  height : Z;
  drawn  : Z → Z → list Z;
  drawn_length : ∀ W H, 0 ≤ W → 0 ≤ H →
    Z.of_nat (length (drawn W H)) = 4 * W * H
}.

(** The parameter object built by [getParams]. *)
Record Params : Type := {
  widthMm   : R;
  widthPx   : Z;
  baseMm    : R;
  reliefMm  : R;
  blackCut  : R;
  whiteCut  : R;
  toneGamma : R;
  mapInvert : option bool;   (* [None]: the property is undefined *)
  flipX     : bool;
  flipY     : bool
}.

(** The object returned by [computeThicknessMap]. *)
Record ThicknessMap : Type := {
  thickness : list R;
  pxMm      : R;
  W         : Z;
  H         : Z
}.

(** [data[i]] on the [Uint8ClampedArray] of an image.  The loops below read
    inside the [4 * W * H] samples [getImageData] returns (lemma
    [reads_inside_data]), so the default is never used. *)
Definition sample (data : list Z) (i : Z) : R :=
  IZR (default 0 (data !! Z.to_nat i)).

(** [getImageData(0, 0, W, H)] on the off-screen canvas. *)
Definition getImageData (img : Image) (W H : Z) : result (list Z) :=
  if (W =? 0) || (H =? 0) then Throw IndexSizeError else Ok (drawn img W H).

(** [new Float32Array(n)], its elements kept as the numbers stored (see
    [F32.new_Float32Array]).  A length the platform refuses for its size is
    outside the model. *)
Definition new_Float32Array (n : Z) : result (list R) :=
  if n <? 0 then Throw RangeError else Ok (replicate (Z.to_nat n) 0%R).

(** [ctx.createImageData(sw, sh)]: transparent black, four samples per
    pixel. *)
Definition createImageData (sw sh : Z) : result (list Z) :=
  if (sw =? 0) || (sh =? 0) then Throw IndexSizeError
  else Ok (replicate (Z.to_nat (4 * Z.abs sw * Z.abs sh)) 0).

(** The conversion of a number stored into a [Uint8ClampedArray]: clamped to
    [[0, 255]] and rounded to the nearest integer, ties to even. *)
Definition ToUint8Clamp (x : R) : Z :=
  if Rle_dec x 0 then 0
  else if Rle_dec 255 x then 255
  else
    let f := Int_part x in
    if Rlt_dec (IZR f + / 2) x then f + 1
    else if Rlt_dec x (IZR f + / 2) then f
    else if Z.even f then f else f + 1.

(** ** ArrayBuffer and DataView *)

Module DataView.

(** A byte of an [ArrayBuffer]: a plain byte, or byte [k] (from the low
    address) of the little-endian binary32 image of a value stored by
    [setFloat32]. *)
Inductive byte_val : Type :=
| Byte (b : Z)
| Float32Byte (v : value) (k : nat).

(** [new ArrayBuffer(n)]: zero-filled; the memory an engine can give is not
    bounded here. *)
Definition new_ArrayBuffer (n : Z) : result (list byte_val) :=
  if n <? 0 then Throw RangeError
  else Ok (replicate (Z.to_nat n) (Byte 0)).

Definition float32_le (v : value) : list byte_val :=
  [Float32Byte v 0; Float32Byte v 1; Float32Byte v 2; Float32Byte v 3].

(** The [n] little-endian bytes of [x] modulo [2^(8n)]. *)
Definition uint_le (n : Z) (x : Z) : list byte_val :=
  (λ k, Byte ((x mod 2 ^ (8 * n)) / 2 ^ (8 * k) mod 256)) <$> seqZ 0 n.

(** Store of a run of bytes at [byteOffset]; a [DataView] setter throws when
    the run does not fit. *)
Definition store (view : list byte_val) (byteOffset : Z)
    (bytes : list byte_val) : result (list byte_val) :=
  if (0 <=? byteOffset) && (byteOffset + Z.of_nat (length bytes) <=? Z.of_nat (length view))
  then Ok (list_inserts (Z.to_nat byteOffset) bytes view)
  else Throw RangeError.

(* view.setFloat32(byteOffset, v, true) *)
Definition setFloat32 (view : list byte_val) (byteOffset : Z) (v : value) :=
  store view byteOffset (float32_le v).

(* view.setUint32(byteOffset, x, true) *)
Definition setUint32 (view : list byte_val) (byteOffset : Z) (x : Z) :=
  store view byteOffset (uint_le 4 x).

(* view.setUint16(byteOffset, x, true) *)
Definition setUint16 (view : list byte_val) (byteOffset : Z) (x : Z) :=
  store view byteOffset (uint_le 2 x).

(* view.getUint32(byteOffset, true), on plain bytes *)
Definition getUint32 (view : list byte_val) (byteOffset : Z) : option Z :=
  match take 4 (drop (Z.to_nat byteOffset) view) with
  | [Byte b0; Byte b1; Byte b2; Byte b3] =>
      Some (b0 + 256 * b1 + 65536 * b2 + 16777216 * b3)
  | _ => None
  end.

(* buf.slice(begin, end) *)
Definition slice (buf : list byte_val) (b e : Z) : list byte_val :=
  let len := Z.of_nat (length buf) in
  let first := if b <? 0 then Z.max (len + b) 0 else Z.min b len in
  let final := if e <? 0 then Z.max (len + e) 0 else Z.min e len in
  take (Z.to_nat (final - first)) (drop (Z.to_nat first) buf).

(** A vertex [[x, y, z]] and a triangle. *)
Definition vertex : Type := value * value * value.

Definition vertex_bytes (a : vertex) : list byte_val :=
  let '(x, y, z) := a in float32_le x ++ float32_le y ++ float32_le z.

End DataView.
Import DataView.

(** ** src/docs/app.js *)

Module Docs.

Local Open Scope R_scope.

(* function srgbToLinear(u) *)
Definition srgbToLinear (u : R) : R :=
  if Rle_dec u 0.04045 then u / 12.92
  else Math_pow ((u + 0.055) / 1.055) 2.4.

(* luminance (Rec.709) of the pixel whose samples start at data[i] *)
Definition luminance (data : list Z) (i : Z) : R :=
  let sr := sample data i / 255 in
  let sg := sample data (i + 1) / 255 in
  let sb := sample data (i + 2) / 255 in
  let lr := srgbToLinear sr in
  let lg := srgbToLinear sg in
  let lb := srgbToLinear sb in
  0.2126 * lr + 0.7152 * lg + 0.0722 * lb.

(* const invRange = 1 / Math.max(1e-9, (whiteCut - blackCut)); *)
Definition invRange (p : Params) : R :=
  1 / Math_max 1e-9 (whiteCut p - blackCut p).

(* clip normalize *)
Definition clipNormalize (p : Params) (Y : R) : R :=
  Math_max 0 (Math_min 1 ((Y - blackCut p) * invRange p)).

(* tone curve (1.0 = linear) *)
Definition toneCurve (p : Params) (Y : R) : R :=
  if Rgt_dec (Math_abs (toneGamma p - 1.0)) 1e-9
  then Math_pow Y (1.0 / toneGamma p)
  else Y.

(* the thickness t computed for the pixel whose samples start at data[i] *)
Definition pixelThickness (p : Params) (data : list Z) (i : Z) : R :=
  let Y := luminance data i in
  let Y := clipNormalize p Y in
  let Y := toneCurve p Y in
  let v := if default true (mapInvert p) then 1.0 - Y else Y in
  baseMm p + reliefMm p * v.

(* body of the loop over x, for the row y; the number stored is kept as it
   is, see [DocsF32.pixelStep] for the narrowing store *)
Definition pixelStep (p : Params) (W H : Z) (data : list Z) (y x : Z)
    (thickness : list R) : list R :=
  let i := ((y * W + x) * 4)%Z in
  let t := pixelThickness p data i in
  let ox := if flipX p then (W - 1 - x)%Z else x in
  let oy := if flipY p then (H - 1 - y)%Z else y in
  ta_set thickness (oy * W + ox)%Z t.

(* H = Math.max(1, Math.round(img.height * (W / img.width))) *)
Definition fieldHeight (img : Image) (W : Z) : Z :=
  Z.max 1 (Math_round (IZR (height img) * (IZR W / IZR (width img)))).

(* async function computeThicknessMap(img, p) *)
Definition computeThicknessMap (img : Image) (p : Params)
    : result ThicknessMap :=
  let W := widthPx p in
  let H := fieldHeight img W in
  match getImageData img W H with
  | Throw e => Throw e
  | Ok data =>
    match new_Float32Array (W * H) with
    | Throw e => Throw e
    | Ok thickness =>
      let pxMm := widthMm p / IZR W in
      let thickness :=
        for_lt H (λ y, for_lt W (λ x, pixelStep p W H data y x)) thickness in
      Ok {| thickness := thickness; pxMm := pxMm; W := W; H := H |}
    end
  end.

(* widthPx: Math.max(10, Math.floor(numberVal("widthPx", 600))), where
   [input] is the finite number parsed from the form field, if any *)
Definition numberVal (input : option R) (def : R) : R :=
  match input with Some v => v | None => def end.

Definition getParams_widthPx (input : option R) : Z :=
  Z.max 10 (Math_floor (numberVal input 600)).

(** *** buildBinarySTL *)

Local Open Scope Z_scope.

(* the variables the closure writeTri shares with its caller *)
Record state : Type := {
  buf : list byte_val;   (* the ArrayBuffer behind [view] *)
  off : Z
}.

Definition view_set (f : list byte_val → result (list byte_val))
    : M state unit :=
  λ s, match f (buf s) with
       | Ok b => Ok (tt, {| buf := b; off := off s |})
       | Throw e => Throw e
       end.

Definition get_off : M state Z := λ s, Ok (off s, s).
Definition set_off (o : Z) : M state unit :=
  λ s, Ok (tt, {| buf := buf s; off := o |}).

(* function writeTri(ax, ay, az, bx, by, bz, cx, cy, cz), called on three
   spread vertices *)
Definition writeTri (a b c : vertex) : M state unit :=
  let '(ax, ay, az) := a in
  let '(bx, by_, bz) := b in
  let '(cx, cy, cz) := c in
  off ← get_off;
  (* normal (0,0,0) *)
  view_set (λ view, setFloat32 view (off + 0) (Num 0));;
  view_set (λ view, setFloat32 view (off + 4) (Num 0));;
  view_set (λ view, setFloat32 view (off + 8) (Num 0));;
  view_set (λ view, setFloat32 view (off + 12) ax);;
  view_set (λ view, setFloat32 view (off + 16) ay);;
  view_set (λ view, setFloat32 view (off + 20) az);;
  view_set (λ view, setFloat32 view (off + 24) bx);;
  view_set (λ view, setFloat32 view (off + 28) by_);;
  view_set (λ view, setFloat32 view (off + 32) bz);;
  view_set (λ view, setFloat32 view (off + 36) cx);;
  view_set (λ view, setFloat32 view (off + 40) cy);;
  view_set (λ view, setFloat32 view (off + 44) cz);;
  view_set (λ view, setUint16 view (off + 48) 0);;   (* attribute *)
  set_off (off + 50).

Section Mesh.

Variables (thickness : list R) (pxMm : R) (W H : Z).

(* helper: vertex at grid *)
Definition vx (x : Z) : value := Num (IZR (W - 1 - x) * pxMm).
Definition vy (y : Z) : value := Num (IZR y * pxMm).
Definition vzTop (x y : Z) : value := ta_get thickness (y * W + x).

Definition topTris : Z := (W - 1) * (H - 1) * 2.
Definition bottomTris : Z := topTris.
Definition sideTris : Z := ((W - 1) * 2 + (H - 1) * 2) * 2.
Definition triCount : Z := topTris + bottomTris + sideTris.

(* Top surface *)
Definition topSurface : M state unit :=
  for_ (H - 1) (λ y,
    for_ (W - 1) (λ x,
      let a := (vx x, vy y, vzTop x y) in
      let b := (vx (x + 1), vy y, vzTop (x + 1) y) in
      let c := (vx x, vy (y + 1), vzTop x (y + 1)) in
      let d := (vx (x + 1), vy (y + 1), vzTop (x + 1) (y + 1)) in
      writeTri a c b;;
      writeTri b c d)).

(* Bottom surface (reverse) *)
Definition bottomSurface : M state unit :=
  for_ (H - 1) (λ y,
    for_ (W - 1) (λ x,
      let a := (vx x, vy y, Num 0) in
      let b := (vx (x + 1), vy y, Num 0) in
      let c := (vx x, vy (y + 1), Num 0) in
      let d := (vx (x + 1), vy (y + 1), Num 0) in
      writeTri a b c;;
      writeTri b d c)).

(* Side walls: top edge y=0 *)
Definition wallTop : M state unit :=
  for_ (W - 1) (λ x,
    let aT := (vx x, vy 0, vzTop x 0) in
    let bT := (vx (x + 1), vy 0, vzTop (x + 1) 0) in
    let aB := (vx x, vy 0, Num 0) in
    let bB := (vx (x + 1), vy 0, Num 0) in
    writeTri aT bT aB;;
    writeTri bT bB aB).

(* bottom edge y=H-1 *)
Definition wallBottom : M state unit :=
  for_ (W - 1) (λ x,
    let aT := (vx x, vy (H - 1), vzTop x (H - 1)) in
    let bT := (vx (x + 1), vy (H - 1), vzTop (x + 1) (H - 1)) in
    let aB := (vx x, vy (H - 1), Num 0) in
    let bB := (vx (x + 1), vy (H - 1), Num 0) in
    writeTri bT aT aB;;
    writeTri aB bB bT).

(* left edge x=0 *)
Definition wallLeft : M state unit :=
  for_ (H - 1) (λ y,
    let aT := (vx 0, vy y, vzTop 0 y) in
    let bT := (vx 0, vy (y + 1), vzTop 0 (y + 1)) in
    let aB := (vx 0, vy y, Num 0) in
    let bB := (vx 0, vy (y + 1), Num 0) in
    writeTri bT aT aB;;
    writeTri aB bB bT).

(* right edge x=W-1 *)
Definition wallRight : M state unit :=
  for_ (H - 1) (λ y,
    let aT := (vx (W - 1), vy y, vzTop (W - 1) y) in
    let bT := (vx (W - 1), vy (y + 1), vzTop (W - 1) (y + 1)) in
    let aB := (vx (W - 1), vy y, Num 0) in
    let bB := (vx (W - 1), vy (y + 1), Num 0) in
    writeTri aT bT aB;;
    writeTri bT bB aB).

(* the statements that follow the allocation of buf *)
Definition fill : M state unit :=
  (* new Uint8Array(buf, 0, 80).set(header) *)
  view_set (λ view, store view 0 (replicate 80 (Byte 0)));;
  view_set (λ view, setUint32 view 80 triCount);;
  set_off 84;;   (* let off = 84 *)
  topSurface;;
  bottomSurface;;
  wallTop;;
  wallBottom;;
  wallLeft;;
  wallRight.

(* function buildBinarySTL(thickness, pxMm, W, H) *)
Definition buildBinarySTL : result (list byte_val) :=
  match new_ArrayBuffer (84 + triCount * 50) with
  | Throw e => Throw e
  | Ok buf =>
    (* [off] is declared by [let off = 84] inside [fill] *)
    match fill {| buf := buf; off := 0 |} with
    | Throw e => Throw e
    | Ok (_, s) => Ok (Docs.buf s)
    end
  end.

End Mesh.

(** *** getParams *)

(** What [getParams] reads from the page: for each number field the finite
    number [parseFloat] reads, if any; the check boxes; [mapInvert] may be
    absent from the page. *)
Record Form : Type := {
  in_widthMm   : option R;
  in_widthPx   : option R;
  in_baseMm    : option R;
  in_reliefMm  : option R;
  in_blackCut  : option R;
  in_whiteCut  : option R;
  in_toneGamma : option R;
  in_mapInvert : option bool;
  in_flipX     : bool;
  in_flipY     : bool;
  in_rot180    : bool
}.

(* function getParams() *)
Definition getParams (f : Form) : Params :=
  let flipX := in_flipX f in
  let flipY := in_flipY f in
  let rot180 := in_rot180 f in
  let flipX := if rot180 then true else flipX in
  let flipY := if rot180 then true else flipY in
  {| widthMm := numberVal (in_widthMm f) 100;
     widthPx := getParams_widthPx (in_widthPx f);
     baseMm := numberVal (in_baseMm f) 0.8;
     reliefMm := numberVal (in_reliefMm f) 1.5;
     blackCut := numberVal (in_blackCut f) 0.02;
     whiteCut := numberVal (in_whiteCut f) 0.98;
     toneGamma := numberVal (in_toneGamma f) 1.15;
     mapInvert := Some (default true (in_mapInvert f));
     flipX := flipX; flipY := flipY |}.

(** *** renderPreview *)

(* the scan for tmin and tmax; [None] is the initial Infinity of tmin and
   the initial -Infinity of tmax, below and above every number *)
Definition scanStep (acc : option R * option R) (t : R)
    : option R * option R :=
  let '(tmin, tmax) := acc in
  (match tmin with
   | Some m => if Rlt_dec t m then Some t else tmin
   | None => Some t
   end,
   match tmax with
   | Some M => if Rgt_dec t M then Some t else tmax
   | None => Some t
   end).

Definition scanMinMax (thickness : list R) : option R * option R :=
  foldl scanStep (None, None) thickness.

(* const scale = 1 / Math.max(1e-9, (tmax - tmin)); the difference is
   -Infinity while a bound still has its initial value *)
Definition previewScale (tmin tmax : option R) : R :=
  match tmax, tmin with
  | Some M, Some m => (1 / Math_max 1e-9 (M - m))%R
  | _, _ => (1 / 1e-9)%R
  end.

(* g = Math.max(0, Math.min(255, Math.round(n * 255))) with
   n = (t - tmin) * scale; an undefined [t] makes it NaN, which the image
   data stores as 0 *)
Definition previewGray (tmin : option R) (scale : R) (t : value) : Z :=
  match t, tmin with
  | Num t, Some tmin =>
      let n := ((t - tmin) * scale)%R in
      Z.max 0 (Z.min 255 (Math_round (n * 255)))
  | _, _ => 0
  end.

(* body of the loop over x, for the row y of the preview *)
Definition previewStep (thickness : list R) (W H pw ph : Z)
    (tmin : option R) (scale : R) (y x : Z) (data : list Z) : list Z :=
  let sy := Z.min (H - 1) (Math_floor (IZR y * (IZR H / IZR ph))) in
  let sx := Z.min (W - 1) (Math_floor (IZR x * (IZR W / IZR pw))) in
  let t := ta_get thickness (sy * W + sx) in
  let g := previewGray tmin scale t in
  let o := (y * pw + x) * 4 in
  let data := ta_set data (o + 0) (ToUint8Clamp (IZR g)) in
  let data := ta_set data (o + 1) (ToUint8Clamp (IZR g)) in
  let data := ta_set data (o + 2) (ToUint8Clamp (IZR g)) in
  ta_set data (o + 3) (ToUint8Clamp (IZR 255)).

(* the preview image of a thickness field: its width, height and samples *)
Definition previewImage (thickness : list R) (W H : Z)
    : result (Z * Z * list Z) :=
  let '(tmin, tmax) := scanMinMax thickness in
  let scale := previewScale tmin tmax in
  let maxW := 600 in
  let pw := maxW in
  let ph := Math_round (IZR H * (IZR pw / IZR W)) in
  match createImageData pw ph with
  | Throw e => Throw e
  | Ok data =>
    let data :=
      for_lt ph (λ y, for_lt pw (λ x,
        previewStep thickness W H pw ph tmin scale y x)) data in
    Ok (pw, ph, data)
  end.

(* async function renderPreview(), up to putImageData *)
Definition renderPreview (loadedImage : Image) (f : Form)
    : result (Z * Z * list Z) :=
  let params := getParams f in
  match computeThicknessMap loadedImage params with
  | Throw e => Throw e
  | Ok r => previewImage (thickness r) (W r) (H r)
  end.

(** *** The click handler of the download button *)

(* the bytes handed to the Blob, or the exception the handler catches *)
Definition generateSTL (loadedImage : Image) (f : Form)
    : result (list byte_val) :=
  let params := getParams f in
  match computeThicknessMap loadedImage params with
  | Throw e => Throw e
  | Ok r => buildBinarySTL (thickness r) (pxMm r) (W r) (H r)
  end.

(** *** The change handler of the rot180 box *)

(* $("rot180").addEventListener("change", () => {
     if ($("rot180").checked) {
       $("flipX").checked = true; $("flipY").checked = true; } }); *)
Definition rot180_change (f : Form) : Form :=
  if in_rot180 f then
    {| in_widthMm := in_widthMm f; in_widthPx := in_widthPx f;
       in_baseMm := in_baseMm f; in_reliefMm := in_reliefMm f;
       in_blackCut := in_blackCut f; in_whiteCut := in_whiteCut f;
       in_toneGamma := in_toneGamma f; in_mapInvert := in_mapInvert f;
       in_flipX := true; in_flipY := true; in_rot180 := in_rot180 f |}
  else f.

End Docs.

(** ** src/unnamed/part_000 *)

Module Part000.

Local Open Scope R_scope.

(* function srgbToLinear(u) *)
Definition srgbToLinear (u : R) : R :=
  if Rle_dec u 0.04045 then u / 12.92
  else Math_pow ((u + 0.055) / 1.055) 2.4.

(* Luminance *)
Definition luminance (data : list Z) (i : Z) : R :=
  let r := sample data i / 255 in
  let g := sample data (i + 1) / 255 in
  let b := sample data (i + 2) / 255 in
  0.2126 * srgbToLinear r + 0.7152 * srgbToLinear g + 0.0722 * srgbToLinear b.

(* const invRange = 1 / Math.max(1e-9, (p.whiteCut - p.blackCut)); *)
Definition invRange (p : Params) : R :=
  1 / Math_max 1e-9 (whiteCut p - blackCut p).

(* Y = Math.max(0, Math.min(1, (Y - p.blackCut) * invRange)); *)
Definition clipNormalize (p : Params) (Y : R) : R :=
  Math_max 0 (Math_min 1 ((Y - blackCut p) * invRange p)).

(* if (p.toneGamma !== 1) Y = Math.pow(Y, 1 / p.toneGamma); *)
Definition toneCurve (p : Params) (Y : R) : R :=
  if Req_dec_T (toneGamma p) 1 then Y else Math_pow Y (1 / toneGamma p).

(* the thickness t computed for the pixel whose samples start at data[i] *)
Definition pixelThickness (p : Params) (data : list Z) (i : Z) : R :=
  let Y := luminance data i in
  let Y := clipNormalize p Y in
  let Y := toneCurve p Y in
  let v := if default false (mapInvert p) then 1.0 - Y else Y in
  baseMm p + reliefMm p * v.

(* body of the loop over x, for the row y; the number stored is kept as it
   is, see [Part000F32.pixelStep] for the narrowing store *)
Definition pixelStep (p : Params) (W H : Z) (data : list Z) (y x : Z)
    (thickness : list R) : list R :=
  let i := ((y * W + x) * 4)%Z in
  let t := pixelThickness p data i in
  let ox := if flipX p then (W - 1 - x)%Z else x in
  let oy := if flipY p then (H - 1 - y)%Z else y in
  ta_set thickness (oy * W + ox)%Z t.

(* H = Math.round(img.height * (W / img.width)) *)
Definition fieldHeight (img : Image) (W : Z) : Z :=
  Math_round (IZR (height img) * (IZR W / IZR (width img))).

(* async function computeThicknessMap(img, p) *)
Definition computeThicknessMap (img : Image) (p : Params)
    : result ThicknessMap :=
  let W := widthPx p in
  let H := fieldHeight img W in
  match getImageData img W H with
  | Throw e => Throw e
  | Ok data =>
    match new_Float32Array (W * H) with
    | Throw e => Throw e
    | Ok thickness =>
      let pxMm := widthMm p / IZR W in
      let thickness :=
        for_lt H (λ y, for_lt W (λ x, pixelStep p W H data y x)) thickness in
      Ok {| thickness := thickness; pxMm := pxMm; W := W; H := H |}
    end
  end.

(* widthPx: Math.max(10, parseInt($("widthPx").value) || 400), where [input]
   is the integer [parseInt] reads from the form field, if any *)
Definition getParams_widthPx (input : option Z) : Z :=
  Z.max 10 (match input with
            | Some n => if (n =? 0)%Z then 400 else n
            | None => 400
            end).

(** *** buildBinarySTL *)

Local Open Scope Z_scope.

(* the variables the closure writeTri shares with its caller *)
Record state : Type := {
  buf   : list byte_val;   (* the ArrayBuffer behind [view] *)
  off   : Z;
  count : Z
}.

Definition view_set (f : list byte_val → result (list byte_val))
    : M state unit :=
  λ s, match f (buf s) with
       | Ok b => Ok (tt, {| buf := b; off := off s; count := count s |})
       | Throw e => Throw e
       end.

Definition get_off : M state Z := λ s, Ok (off s, s).
Definition set_off (o : Z) : M state unit :=
  λ s, Ok (tt, {| buf := buf s; off := o; count := count s |}).
Definition get_count : M state Z := λ s, Ok (count s, s).
Definition set_count (c : Z) : M state unit :=
  λ s, Ok (tt, {| buf := buf s; off := off s; count := c |}).

(* const writeTri = (ax, ay, az, bx, by, bz, cx, cy, cz) => ... *)
Definition writeTri (ax ay az bx by_ bz cx cy cz : value) : M state unit :=
  off ← get_off;
  set_off (off + 12);;   (* Skip normal *)
  off ← get_off;
  view_set (λ view, setFloat32 view off ax);;
  view_set (λ view, setFloat32 view (off + 4) ay);;
  view_set (λ view, setFloat32 view (off + 8) az);;
  view_set (λ view, setFloat32 view (off + 12) bx);;
  view_set (λ view, setFloat32 view (off + 16) by_);;
  view_set (λ view, setFloat32 view (off + 20) bz);;
  view_set (λ view, setFloat32 view (off + 24) cx);;
  view_set (λ view, setFloat32 view (off + 28) cy);;
  view_set (λ view, setFloat32 view (off + 32) cz);;
  set_off (off + 38);;
  count ← get_count;
  set_count (count + 1).

Section Mesh.

Variables (thickness : list R) (pxMm : R) (W H : Z).

Definition vx (x : Z) : value := Num (IZR x * pxMm).
Definition vy (y : Z) : value := Num (IZR (H - 1 - y) * pxMm).
Definition vz (x y : Z) : value := ta_get thickness (y * W + x).

(* computed by the source, and not used *)
Definition triCount : Z := (W - 1) * (H - 1) * 4 + (W - 1) * 4 + (H - 1) * 4.

Definition surfaces : M state unit :=
  for_ (H - 1) (λ y,
    for_ (W - 1) (λ x,
      (* Top *)
      writeTri (vx x) (vy y) (vz x y)
               (vx x) (vy (y + 1)) (vz x (y + 1))
               (vx (x + 1)) (vy y) (vz (x + 1) y);;
      writeTri (vx (x + 1)) (vy y) (vz (x + 1) y)
               (vx x) (vy (y + 1)) (vz x (y + 1))
               (vx (x + 1)) (vy (y + 1)) (vz (x + 1) (y + 1));;
      (* Bottom *)
      writeTri (vx x) (vy y) (Num 0)
               (vx (x + 1)) (vy y) (Num 0)
               (vx x) (vy (y + 1)) (Num 0);;
      writeTri (vx (x + 1)) (vy y) (Num 0)
               (vx (x + 1)) (vy (y + 1)) (Num 0)
               (vx x) (vy (y + 1)) (Num 0))).

(* Sides *)
Definition sidesX : M state unit :=
  for_ (W - 1) (λ x,
    writeTri (vx x) (vy 0) (vz x 0)
             (vx (x + 1)) (vy 0) (vz (x + 1) 0)
             (vx x) (vy 0) (Num 0);;
    writeTri (vx (x + 1)) (vy 0) (vz (x + 1) 0)
             (vx (x + 1)) (vy 0) (Num 0)
             (vx x) (vy 0) (Num 0);;
    writeTri (vx x) (vy (H - 1)) (vz x (H - 1))
             (vx x) (vy (H - 1)) (Num 0)
             (vx (x + 1)) (vy (H - 1)) (vz (x + 1) (H - 1));;
    writeTri (vx (x + 1)) (vy (H - 1)) (vz (x + 1) (H - 1))
             (vx x) (vy (H - 1)) (Num 0)
             (vx (x + 1)) (vy (H - 1)) (Num 0)).

Definition sidesY : M state unit :=
  for_ (H - 1) (λ y,
    writeTri (vx 0) (vy y) (vz 0 y)
             (vx 0) (vy y) (Num 0)
             (vx 0) (vy (y + 1)) (vz 0 (y + 1));;
    writeTri (vx 0) (vy (y + 1)) (vz 0 (y + 1))
             (vx 0) (vy y) (Num 0)
             (vx 0) (vy (y + 1)) (Num 0);;
    writeTri (vx (W - 1)) (vy y) (vz (W - 1) y)
             (vx (W - 1)) (vy (y + 1)) (vz (W - 1) (y + 1))
             (vx (W - 1)) (vy y) (Num 0);;
    writeTri (vx (W - 1)) (vy (y + 1)) (vz (W - 1) (y + 1))
             (vx (W - 1)) (vy (y + 1)) (Num 0)
             (vx (W - 1)) (vy y) (Num 0)).

(* the statements that follow the allocation of buf, up to the return *)
Definition fill : M state unit :=
  view_set (λ view, setUint32 view 80 0);;
  set_off 84;;      (* let off = 84, count = 0 *)
  set_count 0;;
  surfaces;;
  sidesX;;
  sidesY;;
  count ← get_count;
  view_set (λ view, setUint32 view 80 count).

(* function buildBinarySTL(thickness, pxMm, W, H) *)
Definition buildBinarySTL : result (list byte_val) :=
  match new_ArrayBuffer (84 + 50 * (W - 1) * (H - 1) * 12) with
  | Throw e => Throw e
  | Ok buf =>
    (* [off] and [count] are declared inside [fill] *)
    match fill {| buf := buf; off := 0; count := 0 |} with
    | Throw e => Throw e
    | Ok (_, s) => Ok (slice (Part000.buf s) 0 (Part000.off s))
    end
  end.

End Mesh.

(** *** getParams *)

(** What [getParams] reads from the page: for each number field the number
    [parseFloat] reads, if any, for the pixel width the integer [parseInt]
    reads, if any; the check boxes. *)
Record Form : Type := {
  in_widthMm   : option R;
  in_widthPx   : option Z;
  in_baseMm    : option R;
  in_reliefMm  : option R;
  in_blackCut  : option R;
  in_whiteCut  : option R;
  in_toneGamma : option R;
  in_mapInvert : bool;
  in_flipX     : bool;
  in_flipY     : bool;
  in_rot180    : bool
}.

(* parseFloat(...) || def: NaN and 0 are falsy *)
Definition orDefault (input : option R) (def : R) : R :=
  match input with
  | Some v => if Req_dec_T v 0 then def else v
  | None => def
  end.

(* function getParams() *)
Definition getParams (f : Form) : Params :=
  let flipX := in_flipX f in
  let flipY := in_flipY f in
  let flipX := if in_rot180 f then true else flipX in
  let flipY := if in_rot180 f then true else flipY in
  {| widthMm := orDefault (in_widthMm f) 100;
     widthPx := getParams_widthPx (in_widthPx f);
     baseMm := orDefault (in_baseMm f) 0.8;
     reliefMm := orDefault (in_reliefMm f) 2.0;
     blackCut := orDefault (in_blackCut f) 0;
     whiteCut := orDefault (in_whiteCut f) 1;
     toneGamma := orDefault (in_toneGamma f) 1.0;
     mapInvert := Some (in_mapInvert f);
     flipX := flipX; flipY := flipY |}.

(** *** draw2D *)

(* body of the loop over i; an undefined thickness[i] would make val NaN,
   stored as 0 *)
Definition draw2DStep (thickness : list R) (p : Params) (i : Z)
    (data : list Z) : list Z :=
  let val :=
    match ta_get thickness i with
    | Num t => ToUint8Clamp ((t - baseMm p) / reliefMm p * 255)
    | Undefined => 0
    end in
  let idx := i * 4 in
  (* data[idx] = data[idx + 1] = data[idx + 2] = val *)
  let data := ta_set data (idx + 2) val in
  let data := ta_set data (idx + 1) val in
  let data := ta_set data idx val in
  ta_set data (idx + 3) (ToUint8Clamp (IZR 255)).

(* function draw2D(thickness, W, H, p), with a 2-D context: the image data
   handed to putImageData *)
Definition draw2D (thickness : list R) (W H : Z) (p : Params)
    : result (list Z) :=
  match createImageData W H with
  | Throw e => Throw e
  | Ok data =>
    Ok (for_lt (Z.of_nat (length thickness))
          (λ i, draw2DStep thickness p i) data)
  end.

(** *** The click handler of the download button *)

(* the bytes handed to the Blob, or the exception the handler catches *)
Definition generateSTL (loadedImage : Image) (f : Form)
    : result (list byte_val) :=
  let params := getParams f in
  match computeThicknessMap loadedImage params with
  | Throw e => Throw e
  | Ok r => buildBinarySTL (thickness r) (pxMm r) (W r) (H r)
  end.

(** *** The change handler of the rot180 box *)

(* $("rot180").addEventListener("change", () => {
     const on = $("rot180").checked;
     $("flipX").checked = on; $("flipY").checked = on; }); *)
Definition rot180_change (f : Form) : Form :=
  let on := in_rot180 f in
  {| in_widthMm := in_widthMm f; in_widthPx := in_widthPx f;
     in_baseMm := in_baseMm f; in_reliefMm := in_reliefMm f;
     in_blackCut := in_blackCut f; in_whiteCut := in_whiteCut f;
     in_toneGamma := in_toneGamma f; in_mapInvert := in_mapInvert f;
     in_flipX := on; in_flipY := on; in_rot180 := in_rot180 f |}.

End Part000.

(** ** The Float32Array store *)

Module F32.

Local Open Scope R_scope.

(** A binary32 number other than NaN: a finite one, by its value, or an
    infinity.  (The two zeros are not told apart.) *)
Inductive binary32 : Type :=
| Finite (v : R)
| Infinite (negative : bool).

(** Rounding to the nearest integer, ties to the even one. *)
Definition round_ties_even (x : R) : Z :=
  let f := Int_part x in
  if Rlt_dec (IZR f + / 2) x then (f + 1)%Z
  else if Rlt_dec x (IZR f + / 2) then f
  else if Z.even f then f else (f + 1)%Z.

(** The exponent of the binade of [x], [floor (log2 |x|)], and not below the
    exponent -126 of the least normal number. *)
Definition binade (x : R) : Z :=
  Z.max (-126) (Int_part (ln (Rabs x) / ln 2)).

(** The conversion of a number stored into a [Float32Array] (and
    [Math.fround]): the nearest multiple of the unit in the last place,
    [2^(binade - 23)], ties to even; an infinity when that is [2^128] or
    more in magnitude. *)
Definition Math_fround (x : R) : binary32 :=
  if Req_dec_T x 0 then Finite 0
  else
    let ulp := powerRZ 2 (binade x - 23) in
    let v := IZR (round_ties_even (x / ulp)) * ulp in
    if Rle_dec (powerRZ 2 128) (Rabs v)
    then Infinite (if Rlt_dec x 0 then true else false)
    else Finite v.

(** [new Float32Array(n)]. *)
Definition new_Float32Array (n : Z) : result (list binary32) :=
  if (n <? 0)%Z then Throw RangeError
  else Ok (replicate (Z.to_nat n) (Finite 0)).

(** The object returned by [computeThicknessMap], with what its
    [Float32Array] holds. *)
Record ThicknessMap : Type := {
  thickness : list binary32;
  pxMm      : R;
  W         : Z;
  H         : Z
}.

End F32.

(** *** src/docs/app.js *)

Module DocsF32.

Local Open Scope R_scope.

(* body of the loop over x, for the row y; [thickness[oy * W + ox] = t]
   narrows [t] to binary32 *)
Definition pixelStep (p : Params) (W H : Z) (data : list Z) (y x : Z)
    (thickness : list F32.binary32) : list F32.binary32 :=
  let i := ((y * W + x) * 4)%Z in
  let t := Docs.pixelThickness p data i in
  let ox := if flipX p then (W - 1 - x)%Z else x in
  let oy := if flipY p then (H - 1 - y)%Z else y in
  ta_set thickness (oy * W + ox)%Z (F32.Math_fround t).

(* async function computeThicknessMap(img, p) *)
Definition computeThicknessMap (img : Image) (p : Params)
    : result F32.ThicknessMap :=
  let W := widthPx p in
  let H := Docs.fieldHeight img W in
  match getImageData img W H with
  | Throw e => Throw e
  | Ok data =>
    match F32.new_Float32Array (W * H) with
    | Throw e => Throw e
    | Ok thickness =>
      let pxMm := widthMm p / IZR W in
      let thickness :=
        for_lt H (λ y, for_lt W (λ x, pixelStep p W H data y x)) thickness in
      Ok {| F32.thickness := thickness; F32.pxMm := pxMm;
            F32.W := W; F32.H := H |}
    end
  end.

End DocsF32.

(** *** src/unnamed/part_000 *)

Module Part000F32.

Local Open Scope R_scope.

(* body of the loop over x, for the row y; [thickness[oy * W + ox] = t]
   narrows [t] to binary32 *)
Definition pixelStep (p : Params) (W H : Z) (data : list Z) (y x : Z)
    (thickness : list F32.binary32) : list F32.binary32 :=
  let i := ((y * W + x) * 4)%Z in
  let t := Part000.pixelThickness p data i in
  let ox := if flipX p then (W - 1 - x)%Z else x in
  let oy := if flipY p then (H - 1 - y)%Z else y in
  ta_set thickness (oy * W + ox)%Z (F32.Math_fround t).

(* async function computeThicknessMap(img, p) *)
Definition computeThicknessMap (img : Image) (p : Params)
    : result F32.ThicknessMap :=
  let W := widthPx p in
  let H := Part000.fieldHeight img W in
  match getImageData img W H with
  | Throw e => Throw e
  | Ok data =>
    match F32.new_Float32Array (W * H) with
    | Throw e => Throw e
    | Ok thickness =>
      let pxMm := widthMm p / IZR W in
      let thickness :=
        for_lt H (λ y, for_lt W (λ x, pixelStep p W H data y x)) thickness in
      Ok {| F32.thickness := thickness; F32.pxMm := pxMm;
            F32.W := W; F32.H := H |}
    end
  end.

End Part000F32.

(** ** The name of the loaded file (both variants) *)

(** A string is the list of its UTF-16 code units; 46 is the full stop. *)

(* [^.]+$ : one or more code units other than the full stop, up to the end
   of the input *)
Definition extension_rest (s : list Z) : bool :=
  match s with
  | [] => false
  | _ => forallb (λ c, negb (c =? 46)) s
  end.

(* \.[^.]+$ matched at the start of [s] *)
Definition extension_here (s : list Z) : bool :=
  match s with
  | c :: rest => (c =? 46) && extension_rest rest
  | [] => false
  end.

(* loadedName = f.name.replace(/\.[^.]+$/, ""): the leftmost match, which
   runs to the end of the name, is replaced by the empty string *)
Fixpoint loadedName (name : list Z) : list Z :=
  if extension_here name then []
  else match name with
       | [] => []
       | c :: rest => c :: loadedName rest
       end.

(** ** Descriptions used by the properties *)

(** The stores a pair of nested loops performs, in order: for each row [y]
    and column [x], the value [val y x] at index [idx y x]. *)
Definition grid_writes {A} (W H : Z) (idx : Z → Z → Z) (val : Z → Z → A)
    : list (Z * A) :=
  y ← seqZ 0 H; x ← seqZ 0 W; [(idx y x, val y x)].

Definition apply_writes {A} (a : list A) (ws : list (Z * A)) : list A :=
  foldl (λ a w, ta_set a w.1 w.2) a ws.

(** The index a flip flag sends a coordinate to. *)
Definition flip (f : bool) (n k : Z) : Z := if f then n - 1 - k else k.

(** The parameter domain of the specification. *)
Definition valid_params (p : Params) : Prop :=
  (0 < widthMm p)%R ∧ 10 ≤ widthPx p ∧
  (0 <= baseMm p)%R ∧ (0 <= reliefMm p)%R ∧
  (blackCut p < whiteCut p)%R ∧ (0 < toneGamma p)%R.

(** [p] with its flip flags replaced. *)
Definition with_flips (fx fy : bool) (p : Params) : Params :=
  {| widthMm := widthMm p; widthPx := widthPx p;
     baseMm := baseMm p; reliefMm := reliefMm p;
     blackCut := blackCut p; whiteCut := whiteCut p;
     toneGamma := toneGamma p; mapInvert := mapInvert p;
     flipX := fx; flipY := fy |}.

(** Every pixel of an [n]-pixel RGBA array has the three colour samples
    [c]. *)
Definition uniform_colour (c : Z) (n : Z) (data : list Z) : Prop :=
  ∀ k, 0 ≤ k < n →
    data !! Z.to_nat (4 * k) = Some c ∧
    data !! Z.to_nat (4 * k + 1) = Some c ∧
    data !! Z.to_nat (4 * k + 2) = Some c.

(** Two sample arrays that differ in alpha samples only. *)
Definition same_colours (data data' : list Z) : Prop :=
  ∀ i, 0 ≤ i → i mod 4 ≠ 3 → data !! Z.to_nat i = data' !! Z.to_nat i.

(** The specification's words for the luminance of a pixel (section 4.1,
    steps 2 and 3). *)
Definition spec_srgb_decode (c : R) : R :=
  if Rle_dec c 0.04045 then (c / 12.92)%R
  else Rpower ((c + 0.055) / 1.055) 2.4.

Definition spec_luminance (r g b : Z) : R :=
  let R_lin := spec_srgb_decode (IZR r / 255) in
  let G_lin := spec_srgb_decode (IZR g / 255) in
  let B_lin := spec_srgb_decode (IZR b / 255) in
  (0.2126 * R_lin + 0.7152 * G_lin + 0.0722 * B_lin)%R.

(** The specification's words for the clip step (section 4.1, step 4). *)
Definition spec_clamp (v lo hi : R) : R :=
  if Rlt_dec v lo then lo else if Rlt_dec hi v then hi else v.

Definition spec_clip (blackCut whiteCut Y : R) : R :=
  spec_clamp ((Y - blackCut) / Rmax 1e-9 (whiteCut - blackCut)) 0 1.

(** Fixtures for instances of the theorems: a 20 x 10 image whose resampled
    pixels all have the colour samples [c] and the alpha sample [a], and the
    parameters of the specification's typical call at the smallest pixel
    width. *)
Definition flat_image (c a : Z) : Image :=
  {| width := 20; height := 10;
     drawn := λ W H,
       (λ i, if i mod 4 =? 3 then a else c) <$> seqZ 0 (4 * W * H);
     drawn_length := λ W H HW HH,
       ltac:(cbv beta; rewrite length_fmap, length_seqZ; nia) |}.

Definition typical_params : Params :=
  {| widthMm := 100; widthPx := 10;
     baseMm := 0.8; reliefMm := 1.5;
     blackCut := 0; whiteCut := 1;
     toneGamma := 1; mapInvert := Some true;
     flipX := false; flipY := false |}.

(** A 1000 x 1 banner whose resampled pixels are mid-grey. *)
Definition banner_image : Image :=
  {| width := 1000; height := 1;
     drawn := λ W H, (λ i, if i mod 4 =? 3 then 255 else 188)
                       <$> seqZ 0 (4 * W * H);
     drawn_length := λ W H HW HH,
       ltac:(cbv beta; rewrite length_fmap, length_seqZ; nia) |}.

(** [k] written over [l] from index [i]. *)
Definition splice {A} (l : list A) (i : nat) (k : list A) : list A :=
  take i l ++ k ++ drop (i + length k) l.

(** A triangle, as the three vertices [writeTri] receives. *)
Definition triangle : Type := vertex * vertex * vertex.

(** [body] run on each element of a list, in order. *)
Fixpoint mapM_ {S A} (body : A → M S unit) (l : list A) : M S unit :=
  match l with
  | [] => mret tt
  | x :: l => body x;; mapM_ body l
  end.

(** The 50-byte record [writeTri] of src/docs/app.js writes. *)
Definition docs_record (t : triangle) : list byte_val :=
  let '(a, b, c) := t in
  float32_le (Num 0) ++ float32_le (Num 0) ++ float32_le (Num 0)
  ++ vertex_bytes a ++ vertex_bytes b ++ vertex_bytes c
  ++ uint_le 2 0.

(** The triangles [buildBinarySTL] of src/docs/app.js passes to [writeTri],
    in order. *)
Definition docs_triangles (thickness : list R) (pxMm : R) (W H : Z)
    : list triangle :=
  let vx := Docs.vx pxMm W in
  let vy := Docs.vy pxMm in
  let vzTop := Docs.vzTop thickness W in
  (y ← seqZ 0 (H - 1); x ← seqZ 0 (W - 1);
     let a := (vx x, vy y, vzTop x y) in
     let b := (vx (x + 1), vy y, vzTop (x + 1) y) in
     let c := (vx x, vy (y + 1), vzTop x (y + 1)) in
     let d := (vx (x + 1), vy (y + 1), vzTop (x + 1) (y + 1)) in
     [(a, c, b); (b, c, d)])
  ++ (y ← seqZ 0 (H - 1); x ← seqZ 0 (W - 1);
     let a := (vx x, vy y, Num 0) in
     let b := (vx (x + 1), vy y, Num 0) in
     let c := (vx x, vy (y + 1), Num 0) in
     let d := (vx (x + 1), vy (y + 1), Num 0) in
     [(a, b, c); (b, d, c)])
  ++ (x ← seqZ 0 (W - 1);
     let aT := (vx x, vy 0, vzTop x 0) in
     let bT := (vx (x + 1), vy 0, vzTop (x + 1) 0) in
     let aB := (vx x, vy 0, Num 0) in
     let bB := (vx (x + 1), vy 0, Num 0) in
     [(aT, bT, aB); (bT, bB, aB)])
  ++ (x ← seqZ 0 (W - 1);
     let aT := (vx x, vy (H - 1), vzTop x (H - 1)) in
     let bT := (vx (x + 1), vy (H - 1), vzTop (x + 1) (H - 1)) in
     let aB := (vx x, vy (H - 1), Num 0) in
     let bB := (vx (x + 1), vy (H - 1), Num 0) in
     [(bT, aT, aB); (aB, bB, bT)])
  ++ (y ← seqZ 0 (H - 1);
     let aT := (vx 0, vy y, vzTop 0 y) in
     let bT := (vx 0, vy (y + 1), vzTop 0 (y + 1)) in
     let aB := (vx 0, vy y, Num 0) in
     let bB := (vx 0, vy (y + 1), Num 0) in
     [(bT, aT, aB); (aB, bB, bT)])
  ++ (y ← seqZ 0 (H - 1);
     let aT := (vx (W - 1), vy y, vzTop (W - 1) y) in
     let bT := (vx (W - 1), vy (y + 1), vzTop (W - 1) (y + 1)) in
     let aB := (vx (W - 1), vy y, Num 0) in
     let bB := (vx (W - 1), vy (y + 1), Num 0) in
     [(aT, bT, aB); (bT, bB, aB)]).

(** [writeTri] of src/docs/app.js on a triangle. *)
Definition docs_writeTri (t : triangle) : M Docs.state unit :=
  let '(a, b, c) := t in Docs.writeTri a b c.

(** The 50-byte record [writeTri] of src/unnamed/part_000 leaves in a
    zero-filled buffer: it skips the normal and the attribute. *)
Definition part000_record (t : triangle) : list byte_val :=
  let '(a, b, c) := t in
  replicate 12 (Byte 0)
  ++ vertex_bytes a ++ vertex_bytes b ++ vertex_bytes c
  ++ replicate 2 (Byte 0).

(** [writeTri] of src/unnamed/part_000 on a triangle. *)
Definition part000_writeTri (t : triangle) : M Part000.state unit :=
  let '((ax, ay, az), (bx, by_, bz), (cx, cy, cz)) := t in
  Part000.writeTri ax ay az bx by_ bz cx cy cz.

(** The triangles [buildBinarySTL] of src/unnamed/part_000 passes to
    [writeTri], in order. *)
Definition part000_triangles (thickness : list R) (pxMm : R) (W H : Z)
    : list triangle :=
  let vx := Part000.vx pxMm in
  let vy := Part000.vy pxMm H in
  let vz := Part000.vz thickness W in
  (y ← seqZ 0 (H - 1); x ← seqZ 0 (W - 1);
     [((vx x, vy y, vz x y),
       (vx x, vy (y + 1), vz x (y + 1)),
       (vx (x + 1), vy y, vz (x + 1) y));
      ((vx (x + 1), vy y, vz (x + 1) y),
       (vx x, vy (y + 1), vz x (y + 1)),
       (vx (x + 1), vy (y + 1), vz (x + 1) (y + 1)));
      ((vx x, vy y, Num 0),
       (vx (x + 1), vy y, Num 0),
       (vx x, vy (y + 1), Num 0));
      ((vx (x + 1), vy y, Num 0),
       (vx (x + 1), vy (y + 1), Num 0),
       (vx x, vy (y + 1), Num 0))])
  ++ (x ← seqZ 0 (W - 1);
     [((vx x, vy 0, vz x 0),
       (vx (x + 1), vy 0, vz (x + 1) 0),
       (vx x, vy 0, Num 0));
      ((vx (x + 1), vy 0, vz (x + 1) 0),
       (vx (x + 1), vy 0, Num 0),
       (vx x, vy 0, Num 0));
      ((vx x, vy (H - 1), vz x (H - 1)),
       (vx x, vy (H - 1), Num 0),
       (vx (x + 1), vy (H - 1), vz (x + 1) (H - 1)));
      ((vx (x + 1), vy (H - 1), vz (x + 1) (H - 1)),
       (vx x, vy (H - 1), Num 0),
       (vx (x + 1), vy (H - 1), Num 0))])
  ++ (y ← seqZ 0 (H - 1);
     [((vx 0, vy y, vz 0 y),
       (vx 0, vy y, Num 0),
       (vx 0, vy (y + 1), vz 0 (y + 1)));
      ((vx 0, vy (y + 1), vz 0 (y + 1)),
       (vx 0, vy y, Num 0),
       (vx 0, vy (y + 1), Num 0));
      ((vx (W - 1), vy y, vz (W - 1) y),
       (vx (W - 1), vy (y + 1), vz (W - 1) (y + 1)),
       (vx (W - 1), vy y, Num 0));
      ((vx (W - 1), vy (y + 1), vz (W - 1) (y + 1)),
       (vx (W - 1), vy (y + 1), Num 0),
       (vx (W - 1), vy y, Num 0))]).

(** A vertex, a triangle and a byte that carry no [undefined] (which
    [setFloat32] would store as NaN). *)
Definition is_number (v : value) : Prop :=
  match v with Num _ => True | Undefined => False end.

Definition defined_vertex (a : vertex) : Prop :=
  let '(x, y, z) := a in is_number x ∧ is_number y ∧ is_number z.

Definition defined_triangle (t : triangle) : Prop :=
  let '(a, b, c) := t in
  defined_vertex a ∧ defined_vertex b ∧ defined_vertex c.

Definition defined_byte (b : byte_val) : Prop :=
  match b with
  | Byte _ => True
  | Float32Byte v _ => is_number v
  end.

(** The number of triangles of the closed solid over a [W] x [H] grid. *)
Definition solid_triangles (W H : Z) : Z :=
  4 * (W - 1) * (H - 1) + 4 * (W - 1) + 4 * (H - 1).

(** More fixtures: a 1000 x 100 strip of mid-grey pixels, and pages whose
    number fields are all empty (so that every default applies). *)
Definition strip_image : Image :=
  {| width := 1000; height := 100;
     drawn := λ W H, (λ i, if i mod 4 =? 3 then 255 else 188)
                       <$> seqZ 0 (4 * W * H);
     drawn_length := λ W H HW HH,
       ltac:(cbv beta; rewrite length_fmap, length_seqZ; nia) |}.

Definition docs_blank_form (rot180 : bool) : Docs.Form :=
  {| Docs.in_widthMm := None; Docs.in_widthPx := Some 10%R;
     Docs.in_baseMm := None; Docs.in_reliefMm := None;
     Docs.in_blackCut := None; Docs.in_whiteCut := None;
     Docs.in_toneGamma := None; Docs.in_mapInvert := None;
     Docs.in_flipX := false; Docs.in_flipY := false;
     Docs.in_rot180 := rot180 |}.

Definition part000_blank_form (rot180 : bool) : Part000.Form :=
  {| Part000.in_widthMm := None; Part000.in_widthPx := Some 10;
     Part000.in_baseMm := None; Part000.in_reliefMm := None;
     Part000.in_blackCut := None; Part000.in_whiteCut := None;
     Part000.in_toneGamma := None; Part000.in_mapInvert := true;
     Part000.in_flipX := false; Part000.in_flipY := false;
     Part000.in_rot180 := rot180 |}.


(** Two sample arrays, the second at least as bright as the first in every
    colour sample (the alpha samples, at the indices 3 modulo 4, are
    free). *)
Definition not_darker (data data' : list Z) : Prop :=
  ∀ i, i mod 4 ≠ 3 → (sample data i <= sample data' i)%R.

(** The grey level [renderPreview] of src/docs/app.js computes for a
    thickness [t] of the field [thickness]. *)
Definition docs_preview_grey (thickness : list R) (t : R) : Z :=
  let '(tmin, tmax) := Docs.scanMinMax thickness in
  Docs.previewGray tmin (Docs.previewScale tmin tmax) (Num t).

(** The height [renderPreview] gives the preview of a [W] x [H] field. *)
Definition docs_preview_height (W H : Z) : Z :=
  Math_round (IZR H * (IZR 600 / IZR W)).

(** Pixel [i] of the RGBA samples [data] is the opaque grey [g]. *)
Definition opaque_grey (data : list Z) (i : Z) (g : Z) : Prop :=
  data !! Z.to_nat (i * 4) = Some g ∧
  data !! Z.to_nat (i * 4 + 1) = Some g ∧
  data !! Z.to_nat (i * 4 + 2) = Some g ∧
  data !! Z.to_nat (i * 4 + 3) = Some 255.

(** A page asking for 1400 columns, its other number fields empty. *)
Definition docs_wide_form : Docs.Form :=
  {| Docs.in_widthMm := None; Docs.in_widthPx := Some 1400%R;
     Docs.in_baseMm := None; Docs.in_reliefMm := None;
     Docs.in_blackCut := None; Docs.in_whiteCut := None;
     Docs.in_toneGamma := None; Docs.in_mapInvert := None;
     Docs.in_flipX := false; Docs.in_flipY := false;
     Docs.in_rot180 := false |}.

(** Geometry of the solid.  A vertex on the node [(x, y)] of the field's
    grid, placed at [(pos_x x, pos_y y)], at the height the field has there
    or at height 0. *)
Definition grid_vertex (pos_x pos_y : Z → R) (thickness : list R) (W H : Z)
    (a : vertex) : Prop :=
  ∃ x y t, 0 ≤ x < W ∧ 0 ≤ y < H ∧
    thickness !! Z.to_nat (y * W + x) = Some t ∧
    (a = (Num (pos_x x), Num (pos_y y), Num t) ∨
     a = (Num (pos_x x), Num (pos_y y), Num 0)).

(** Where src/docs/app.js and src/unnamed/part_000 place the node
    [(x, y)]. *)
Definition docs_vertex (thickness : list R) (pxMm : R) (W H : Z)
    : vertex → Prop :=
  grid_vertex (λ x, IZR (W - 1 - x) * pxMm)%R (λ y, IZR y * pxMm)%R
    thickness W H.

Definition part000_vertex (thickness : list R) (pxMm : R) (W H : Z)
    : vertex → Prop :=
  grid_vertex (λ x, IZR x * pxMm)%R (λ y, IZR (H - 1 - y) * pxMm)%R
    thickness W H.

(** A vertex inside the box [[0, xmax] x [0, ymax]], at height 0 or at a
    height of the field. *)
Definition in_box (xmax ymax : R) (thickness : list R) (a : vertex) : Prop :=
  match a with
  | (Num x, Num y, Num z) =>
      (0 <= x <= xmax)%R ∧ (0 <= y <= ymax)%R ∧ (z = 0%R ∨ z ∈ thickness)
  | _ => False
  end.

Definition all_vertices (P : vertex → Prop) (t : triangle) : Prop :=
  let '(a, b, c) := t in P a ∧ P b ∧ P c.

Definition has_vertex (a : vertex) (t : triangle) : Prop :=
  let '(p, q, r) := t in a = p ∨ a = q ∨ a = r.

(** [(b - a) x (c - a)], the normal that the winding of the triangle
    [(a, b, c)] gives it; both variants leave the normal of the record zero,
    so a reader of the stream has the winding only. *)
Definition winding_normal (t : triangle) : option (R * R * R) :=
  match t with
  | ((Num ax, Num ay, Num az), (Num bx, Num by_, Num bz),
     (Num cx, Num cy, Num cz)) =>
      Some ((by_ - ay) * (cz - az) - (bz - az) * (cy - ay),
            (bz - az) * (cx - ax) - (bx - ax) * (cz - az),
            (bx - ax) * (cy - ay) - (by_ - ay) * (cx - ax))%R
  | _ => None
  end.

(** A triangle of a solid that stands on the rectangle
    [[0, xmax] x [0, ymax]] of the plane [z = 0], wound so that its normal
    points out of the solid: up on the top surface, down on the bottom, and
    away from the rectangle on each of the four walls. *)
Definition faces_outward (xmax ymax : R) (t : triangle) : Prop :=
  match t, winding_normal t with
  | ((Num ax, Num ay, Num az), (_, _, Num bz), (_, _, Num cz)),
    Some (nx, ny, nz) =>
      (0 < nz ∧ 0 < az ∧ 0 < bz ∧ 0 < cz)%R ∨
      (nz < 0 ∧ az = 0 ∧ bz = 0 ∧ cz = 0)%R ∨
      (nz = 0 ∧ nx = 0 ∧ ay = 0 ∧ ny < 0)%R ∨
      (nz = 0 ∧ nx = 0 ∧ ay = ymax ∧ 0 < ny)%R ∨
      (nz = 0 ∧ ny = 0 ∧ ax = 0 ∧ nx < 0)%R ∨
      (nz = 0 ∧ ny = 0 ∧ ax = xmax ∧ 0 < nx)%R
  | _, _ => False
  end.

(** A half turn about the vertical axis through the centre of the
    rectangle [[0, xmax] x [0, ymax]]. *)
Definition turn (xmax ymax : R) (a : vertex) : vertex :=
  match a with
  | (Num x, Num y, z) => (Num (xmax - x), Num (ymax - y), z)
  | _ => a
  end.

Definition turn_triangle (xmax ymax : R) (t : triangle) : triangle :=
  let '(a, b, c) := t in (turn xmax ymax a, turn xmax ymax b, turn xmax ymax c).

(** The same oriented face: the same vertices in the same cyclic order. *)
Definition same_face (t t' : triangle) : Prop :=
  let '(a, b, c) := t in t' = (a, b, c) ∨ t' = (b, c, a) ∨ t' = (c, a, b).

(** [(p, q)] is a directed edge of the triangle [t]. *)
Definition has_edge (p q : vertex) (t : triangle) : Prop :=
  let '(a, b, c) := t in (p, q) = (a, b) ∨ (p, q) = (b, c) ∨ (p, q) = (c, a).

(** The user sets the rot180 box of the page, and the browser runs the
    change handler. *)
Definition docs_set_rot180 (b : bool) (f : Docs.Form) : Docs.Form :=
  Docs.rot180_change
    {| Docs.in_widthMm := Docs.in_widthMm f;
       Docs.in_widthPx := Docs.in_widthPx f;
       Docs.in_baseMm := Docs.in_baseMm f;
       Docs.in_reliefMm := Docs.in_reliefMm f;
       Docs.in_blackCut := Docs.in_blackCut f;
       Docs.in_whiteCut := Docs.in_whiteCut f;
       Docs.in_toneGamma := Docs.in_toneGamma f;
       Docs.in_mapInvert := Docs.in_mapInvert f;
       Docs.in_flipX := Docs.in_flipX f; Docs.in_flipY := Docs.in_flipY f;
       Docs.in_rot180 := b |}.

Definition part000_set_rot180 (b : bool) (f : Part000.Form) : Part000.Form :=
  Part000.rot180_change
    {| Part000.in_widthMm := Part000.in_widthMm f;
       Part000.in_widthPx := Part000.in_widthPx f;
       Part000.in_baseMm := Part000.in_baseMm f;
       Part000.in_reliefMm := Part000.in_reliefMm f;
       Part000.in_blackCut := Part000.in_blackCut f;
       Part000.in_whiteCut := Part000.in_whiteCut f;
       Part000.in_toneGamma := Part000.in_toneGamma f;
       Part000.in_mapInvert := Part000.in_mapInvert f;
       Part000.in_flipX := Part000.in_flipX f;
       Part000.in_flipY := Part000.in_flipY f;
       Part000.in_rot180 := b |}.

(** The code unit of the full stop, and file names for the examples:
    "a.tar.gz" and ".jpg". *)
Definition full_stop : Z := 46.
Definition name_a_tar_gz : list Z := [97; 46; 116; 97; 114; 46; 103; 122].
Definition name_dot_jpg : list Z := [46; 106; 112; 103].

(** The thickness the source computes from a luminance [Y] (section 4.1,
    steps 4 to 7 of the specification, lines 196 to 205 of src/docs/app.js):
    clip, tone curve, direction, scale. *)
Definition docs_thickness_of_luminance (p : Params) (Y : R) : R :=
  let Y := Docs.clipNormalize p Y in
  let Y := Docs.toneCurve p Y in
  let v := if default true (mapInvert p) then (1 - Y)%R else Y in
  (baseMm p + reliefMm p * v)%R.

(** A stored thickness next to the interval [[lo, hi]]: the binary32 number
    nearest to a number of the interval, and so within one unit in the last
    place of the interval. *)
Definition stored_near (lo hi : R) (c : F32.binary32) : Prop :=
  ∃ t v, c = F32.Finite v ∧ F32.Math_fround t = F32.Finite v ∧
    (lo <= t <= hi)%R ∧
    (lo - (lo * powerRZ 2 (-23) + powerRZ 2 (-149)) <= v
     <= hi + (hi * powerRZ 2 (-23) + powerRZ 2 (-149)))%R.

(** A number that binary32 holds exactly (zero, or a positive normal
    number). *)
Definition binary32_number (x : R) : Prop :=
  x = 0%R ∨
  ∃ e m, -126 ≤ e ≤ 126 ∧ 2 ^ 23 ≤ m < 2 ^ 24 ∧
         x = (IZR m * powerRZ 2 (e - 23))%R.

(** The typical parameters with a base of 0.7 mm. *)
Definition thin_base_params : Params :=
  {| widthMm := 100; widthPx := 10;
     baseMm := 0.7; reliefMm := 1.5;
     blackCut := 0; whiteCut := 1;
     toneGamma := 1; mapInvert := Some true;
     flipX := false; flipY := false |}.

(** * Properties *)

(** ** Numbers *)

Section Numbers.

Local Open Scope R_scope.

Lemma Math_pow_pos (x y : R) : 0 < x → Math_pow x y = Rpower x y.
Proof.
  intros Hx. unfold Math_pow.
  destruct (Req_dec_T x 0) as [E | _]; [lra | reflexivity].
Qed.

Lemma Math_pow_one_base (y : R) : Math_pow 1 y = 1.
Proof.
  rewrite Math_pow_pos by lra.
  unfold Rpower. rewrite ln_1, Rmult_0_r. apply exp_0.
Qed.

Lemma Math_pow_unit (x y : R) :
  0 <= x <= 1 → 0 < y → 0 <= Math_pow x y <= 1.
Proof.
  intros [Hx0 Hx1] Hy. unfold Math_pow.
  destruct (Req_dec_T x 0) as [E | N].
  - destruct (Req_dec_T y 0); lra.
  - assert (Hx : 0 < x) by lra.
    unfold Rpower. split; [left; apply exp_pos |].
    rewrite <- exp_0. 
    destruct (Rle_lt_or_eq_dec _ _ Hx1) as [Hlt | Heq].
    + left. apply exp_increasing.
      assert (ln x < 0) by (rewrite <- ln_1; apply ln_increasing; lra).
      nra.
    + subst x. rewrite ln_1, Rmult_0_r. lra.
Qed.

Lemma Math_max_min_unit (a : R) : 0 <= Math_max 0 (Math_min 1 a) <= 1.
Proof.
  unfold Math_max, Math_min, Rmax, Rmin.
  repeat destruct (Rle_dec _ _); lra.
Qed.

Lemma Math_max_lower (a b : R) : a <= Math_max a b.
Proof. apply Rmax_l. Qed.

Lemma Math_round_spec (a : R) (z : Z) :
  IZR z - / 2 <= a < IZR z + / 2 → Math_round a = z.
Proof.
  intros Ha. unfold Math_round. symmetry. apply Int_part_spec. lra.
Qed.

End Numbers.

(** ** The binary32 store *)

Section Binary32.
Local Open Scope R_scope.

Lemma round_ties_even_error (x : R) :
  Rabs (IZR (F32.round_ties_even x) - x) <= / 2.
Proof.
  unfold F32.round_ties_even. destruct (base_Int_part x) as [Hlo Hhi].
  set (f := Int_part x) in *.
  destruct (Rlt_dec (IZR f + / 2) x); [| destruct (Rlt_dec x (IZR f + / 2));
    [| destruct (Z.even f)]].
  all: rewrite ?plus_IZR; apply Rabs_le; lra.
Qed.

Lemma ln_2_pos : 0 < ln 2.
Proof. pose proof ln_lt_2. lra. Qed.

Lemma powerRZ_2_exp (e : Z) : powerRZ 2 e = exp (IZR e * ln 2).
Proof. rewrite powerRZ_Rpower by lra. reflexivity. Qed.

Lemma log2_floor_spec (x : R) :
  0 < x →
  powerRZ 2 (Int_part (ln x / ln 2)) <= x
  < powerRZ 2 (Int_part (ln x / ln 2) + 1).
Proof.
  intros Hx. destruct (base_Int_part (ln x / ln 2)) as [Hlo Hhi].
  set (e := Int_part (ln x / ln 2)) in *.
  pose proof ln_2_pos as H2.
  assert (El : ln x = ln x / ln 2 * ln 2) by (field; lra).
  rewrite !powerRZ_2_exp, plus_IZR.
  split.
  - rewrite <- (exp_ln x Hx) at 1.
    destruct (Rle_lt_or_eq_dec _ _ Hlo) as [Hlt | Heq].
    + left. apply exp_increasing. rewrite El. apply Rmult_lt_compat_r; lra.
    + right. f_equal. rewrite El. rewrite <- Heq. lra.
  - rewrite <- (exp_ln x Hx) at 1.
    apply exp_increasing. rewrite El at 1. apply Rmult_lt_compat_r; lra.
Qed.

Lemma log2_floor_unique (x : R) (e : Z) :
  0 < x → powerRZ 2 e <= x < powerRZ 2 (e + 1) →
  Int_part (ln x / ln 2) = e.
Proof.
  intros Hx [Hlo Hhi]. symmetry. apply Int_part_spec.
  pose proof ln_2_pos as H2.
  rewrite !powerRZ_2_exp, plus_IZR in *.
  assert (IZR e * ln 2 <= ln x).
  { destruct (Rle_lt_dec (IZR e * ln 2) (ln x)) as [| Hc]; [done |].
    apply exp_increasing in Hc. rewrite exp_ln in Hc by done. lra. }
  assert (ln x < (IZR e + 1) * ln 2).
  { destruct (Rlt_le_dec (ln x) ((IZR e + 1) * ln 2)) as [| Hc]; [done |].
    destruct (Rle_lt_or_eq_dec _ _ Hc) as [Hlt | Heq].
    - apply exp_increasing in Hlt. rewrite exp_ln in Hlt by done. lra.
    - rewrite Heq, exp_ln in Hhi by done. lra. }
  split.
  - apply Rmult_lt_reg_r with (ln 2); [done |].
    replace ((ln x / ln 2 - 1) * ln 2) with (ln x - ln 2) by (field; lra).
    lra.
  - apply Rmult_le_reg_r with (ln 2); [done |].
    replace (ln x / ln 2 * ln 2) with (ln x) by (field; lra). lra.
Qed.


Lemma powerRZ_2_pos (e : Z) : 0 < powerRZ 2 e.
Proof. apply powerRZ_lt. lra. Qed.

Lemma powerRZ_2_succ (e : Z) : powerRZ 2 (e + 1) = 2 * powerRZ 2 e.
Proof.
  rewrite powerRZ_add by lra.
  replace (powerRZ 2 1) with 2; [lra |].
  unfold powerRZ. rewrite Pos2Nat.inj_1. cbn. lra.
Qed.

Lemma powerRZ_2_IZR (k : Z) : (0 ≤ k)%Z → powerRZ 2 k = IZR (2 ^ k).
Proof.
  intros Hk. rewrite <- (Z2Nat.id k Hk) at 1.
  rewrite <- pow_powerRZ, pow_IZR. by rewrite Z2Nat.id.
Qed.

Lemma powerRZ_2_neg_IZR (k : Z) :
  (0 ≤ k)%Z → powerRZ 2 (- k) = / IZR (2 ^ k).
Proof. intros Hk. by rewrite powerRZ_neg', powerRZ_2_IZR. Qed.

Lemma powerRZ_2_le (a b : Z) : (a ≤ b)%Z → powerRZ 2 a <= powerRZ 2 b.
Proof.
  intros Hab. rewrite !powerRZ_2_exp.
  pose proof ln_2_pos. apply IZR_le in Hab.
  destruct (Rle_lt_or_eq_dec _ _ Hab) as [Hlt | ->]; [| lra].
  left. apply exp_increasing. by apply Rmult_lt_compat_r.
Qed.

(** [Math.fround] on a positive number below [2^127]: the nearest multiple
    of the unit in the last place, within half a unit. *)
Lemma Math_fround_finite (x : R) :
  0 < x < powerRZ 2 127 →
  let ulp := powerRZ 2 (F32.binade x - 23) in
  F32.Math_fround x = F32.Finite (IZR (F32.round_ties_even (x / ulp)) * ulp) ∧
  Rabs (IZR (F32.round_ties_even (x / ulp)) * ulp - x)
  <= x * powerRZ 2 (-24) + powerRZ 2 (-150).
Proof.
  intros [Hx Hmax]. unfold F32.Math_fround.
  pose proof (powerRZ_2_pos (-24)) as P24.
  pose proof (powerRZ_2_pos (-150)) as P150.
  destruct (Req_dec_T x 0) as [-> | Hne]; [lra |].
  cbv zeta. unfold F32.binade. rewrite (Rabs_pos_eq x) by lra.
  set (e0 := Int_part (ln x / ln 2)).
  set (e := Z.max (-126) e0).
  set (ulp := powerRZ 2 (e - 23)).
  assert (Hulp : 0 < ulp) by apply powerRZ_2_pos.
  set (m := F32.round_ties_even (x / ulp)).
  pose proof (round_ties_even_error (x / ulp)) as Herr. fold m in Herr.
  assert (Ev : IZR m * ulp - x = (IZR m - x / ulp) * ulp) by (field; lra).
  assert (Hhalf : Rabs (IZR m * ulp - x) <= ulp / 2).
  { rewrite Ev, Rabs_mult, (Rabs_pos_eq ulp) by lra.
    apply Rmult_le_compat_r with (r := ulp) in Herr; lra. }
  assert (Hbound : ulp / 2 <= x * powerRZ 2 (-24) + powerRZ 2 (-150)).
  { destruct (Z.max_spec (-126) e0) as [[Hlt E] | [Hge E]]; fold e in E.
    - (* a normal number *)
      destruct (log2_floor_spec x Hx) as [Hlo _]. fold e0 in Hlo.
      unfold ulp. rewrite E.
      replace (e0 - 23)%Z with (e0 + -24 + 1)%Z by lia.
      rewrite powerRZ_2_succ, powerRZ_add by lra.
      assert (powerRZ 2 e0 * powerRZ 2 (-24) <= x * powerRZ 2 (-24))
        by (apply Rmult_le_compat_r; lra).
      lra.
    - (* a subnormal number *)
      unfold ulp. rewrite E.
      replace (-126 - 23)%Z with (-150 + 1)%Z by lia.
      rewrite powerRZ_2_succ.
      assert (0 <= x * powerRZ 2 (-24)) by (apply Rmult_le_pos; lra).
      lra. }
  destruct (Rle_dec (powerRZ 2 128) (Rabs (IZR m * ulp))) as [Hinf | _].
  - exfalso.
    assert (Rabs (IZR m * ulp) <= x + ulp / 2).
    { replace (IZR m * ulp) with (x + (IZR m * ulp - x)) by lra.
      eapply Rle_trans; [apply Rabs_triang |].
      rewrite (Rabs_pos_eq x) by lra. lra. }
    assert (H24 : powerRZ 2 (-24) <= / 2).
    { replace (/ 2) with (powerRZ 2 (-1)); [by apply powerRZ_2_le |].
      change (-1)%Z with (- (1))%Z.
      rewrite (powerRZ_2_neg_IZR 1) by lia. done. }
    assert (x * powerRZ 2 (-24) <= x * / 2)
      by (apply Rmult_le_compat_l; lra).
    pose proof (powerRZ_2_le (-150) 126 ltac:(lia)).
    pose proof (powerRZ_2_succ 126) as E127.
    pose proof (powerRZ_2_succ 127) as E128.
    change (126 + 1)%Z with 127%Z in E127.
    change (127 + 1)%Z with 128%Z in E128.
    lra.
  - split; [done |]. lra.
Qed.

Lemma Math_fround_0 : F32.Math_fround 0 = F32.Finite 0.
Proof. unfold F32.Math_fround. by destruct (Req_dec_T 0 0). Qed.

(** The error of the store: half a unit in the last place. *)
Lemma Math_fround_error (x : R) :
  0 <= x < powerRZ 2 127 →
  ∃ v, F32.Math_fround x = F32.Finite v ∧
       Rabs (v - x) <= x * powerRZ 2 (-24) + powerRZ 2 (-150).
Proof.
  intros [H0 Hmax].
  destruct (Req_dec_T x 0) as [-> | Hne].
  - exists 0. split; [apply Math_fround_0 |].
    rewrite Rminus_0_r, Rabs_R0.
    pose proof (powerRZ_2_pos (-150)). lra.
  - destruct (Math_fround_finite x ltac:(lra)) as [E Herr]. eauto.
Qed.

Lemma round_ties_even_near (y : R) (m : Z) :
  IZR m - / 2 < y < IZR m + / 2 → F32.round_ties_even y = m.
Proof.
  intros [Hlo Hhi]. unfold F32.round_ties_even.
  destruct (Rle_lt_dec (IZR m) y) as [Hge | Hlt].
  - replace (Int_part y) with m by (apply Int_part_spec; lra).
    destruct (Rlt_dec (IZR m + / 2) y); [lra |].
    destruct (Rlt_dec y (IZR m + / 2)); [done | lra].
  - replace (Int_part y) with (m - 1)%Z
      by (apply Int_part_spec; rewrite minus_IZR; lra).
    rewrite minus_IZR.
    destruct (Rlt_dec (IZR m - 1 + / 2) y); [f_equal; lia | lra].
Qed.

(** The binary32 value of a number of the F32.binade [e] that is nearest to the
    multiple [m] of the unit in the last place. *)
Lemma Math_fround_value (x : R) (e m : Z) :
  powerRZ 2 e <= x < powerRZ 2 (e + 1) → (-126 ≤ e ≤ 126)%Z →
  IZR m - / 2 < x / powerRZ 2 (e - 23) < IZR m + / 2 →
  F32.Math_fround x = F32.Finite (IZR m * powerRZ 2 (e - 23)).
Proof.
  intros [Hlo Hhi] He Hm.
  pose proof (powerRZ_2_pos e) as Pe.
  assert (Hx : 0 < x) by lra.
  assert (Hmax : x < powerRZ 2 127).
  { pose proof (powerRZ_2_le (e + 1) 127 ltac:(lia)). lra. }
  destruct (Math_fround_finite x (conj Hx Hmax)) as [E _].
  cbv zeta in E.
  assert (Eb : F32.binade x = e).
  { unfold F32.binade. rewrite (Rabs_pos_eq x) by lra.
    rewrite (log2_floor_unique x e Hx (conj Hlo Hhi)). lia. }
  rewrite Eb in E. by rewrite (round_ties_even_near _ m Hm) in E.
Qed.

Lemma powerRZ_2_m24 : powerRZ 2 (-24) = / 16777216.
Proof.
  change (-24)%Z with (- (24))%Z. by rewrite powerRZ_2_neg_IZR by lia.
Qed.

Lemma powerRZ_2_m22 : powerRZ 2 (-22) = / 4194304.
Proof.
  change (-22)%Z with (- (22))%Z. by rewrite powerRZ_2_neg_IZR by lia.
Qed.

Lemma powerRZ_2_m1 : powerRZ 2 (-1) = / 2.
Proof.
  change (-1)%Z with (- (1))%Z. by rewrite powerRZ_2_neg_IZR by lia.
Qed.

Lemma Math_fround_0_7 : F32.Math_fround 0.7 = F32.Finite (11744051 / 16777216).
Proof.
  rewrite (Math_fround_value 0.7 (-1) 11744051).
  - change (-1 - 23)%Z with (-24)%Z. rewrite powerRZ_2_m24. done.
  - change (-1 + 1)%Z with 0%Z. rewrite powerRZ_2_m1. cbn. lra.
  - lia.
  - change (-1 - 23)%Z with (-24)%Z. rewrite powerRZ_2_m24. lra.
Qed.

Lemma Math_fround_0_8 : F32.Math_fround 0.8 = F32.Finite (13421773 / 16777216).
Proof.
  rewrite (Math_fround_value 0.8 (-1) 13421773).
  - change (-1 - 23)%Z with (-24)%Z. rewrite powerRZ_2_m24. done.
  - change (-1 + 1)%Z with 0%Z. rewrite powerRZ_2_m1. cbn. lra.
  - lia.
  - change (-1 - 23)%Z with (-24)%Z. rewrite powerRZ_2_m24. lra.
Qed.

Lemma Math_fround_2_3 : F32.Math_fround 2.3 = F32.Finite (9646899 / 4194304).
Proof.
  rewrite (Math_fround_value 2.3 1 9646899).
  - change (1 - 23)%Z with (-22)%Z. rewrite powerRZ_2_m22. done.
  - change (1 + 1)%Z with 2%Z.
    rewrite (powerRZ_2_IZR 1), (powerRZ_2_IZR 2) by lia.
    change (2 ^ 1)%Z with 2%Z. change (2 ^ 2)%Z with 4%Z. lra.
  - lia.
  - change (1 - 23)%Z with (-22)%Z. rewrite powerRZ_2_m22. lra.
Qed.


(** A number that binary32 holds is stored unchanged. *)
Lemma Math_fround_exact (x : R) :
  binary32_number x → F32.Math_fround x = F32.Finite x.
Proof.
  intros [-> | (e & m & He & Hm & ->)]; [apply Math_fround_0 |].
  pose proof (powerRZ_2_pos (e - 23)) as Pu.
  assert (E23 : powerRZ 2 e = IZR (2 ^ 23) * powerRZ 2 (e - 23)).
  { rewrite <- (powerRZ_2_IZR 23), <- powerRZ_add by (lia || lra).
    f_equal. lia. }
  assert (E24 : powerRZ 2 (e + 1) = IZR (2 ^ 24) * powerRZ 2 (e - 23)).
  { rewrite <- (powerRZ_2_IZR 24), <- powerRZ_add by (lia || lra).
    f_equal. lia. }
  destruct Hm as [Hm1 Hm2]. apply IZR_le in Hm1. apply IZR_lt in Hm2.
  apply Math_fround_value.
  - rewrite E23, E24. split.
    + apply Rmult_le_compat_r; lra.
    + apply Rmult_lt_compat_r; lra.
  - done.
  - replace (IZR m * powerRZ 2 (e - 23) / powerRZ 2 (e - 23)) with (IZR m)
      by (field; lra).
    lra.
Qed.

(** A number of [[lo, hi]] is stored next to the interval. *)
Lemma Math_fround_near (lo hi t : R) :
  0 <= lo → lo <= t <= hi → hi < powerRZ 2 127 →
  stored_near lo hi (F32.Math_fround t).
Proof.
  intros Hlo [Ht1 Ht2] Hhi.
  destruct (Math_fround_error t ltac:(lra)) as (v & E & Herr).
  exists t, v. rewrite E. split; [done |]. split; [done |].
  split; [done |].
  pose proof (powerRZ_2_pos (-24)) as P24.
  pose proof (powerRZ_2_pos (-150)) as P150.
  pose proof (powerRZ_2_succ (-24)) as E23.
  pose proof (powerRZ_2_succ (-150)) as E149.
  change (-24 + 1)%Z with (-23)%Z in E23.
  change (-150 + 1)%Z with (-149)%Z in E149.
  rewrite E23, E149.
  assert (Hv : - (t * powerRZ 2 (-24) + powerRZ 2 (-150)) <= v - t
               <= t * powerRZ 2 (-24) + powerRZ 2 (-150)).
  { unfold Rabs in Herr. destruct (Rcase_abs (v - t)); lra. }
  clear Herr.
  assert (lo * powerRZ 2 (-24) <= t * powerRZ 2 (-24))
    by (apply Rmult_le_compat_r; lra).
  assert (t * powerRZ 2 (-24) <= hi * powerRZ 2 (-24))
    by (apply Rmult_le_compat_r; lra).
  assert (H24 : powerRZ 2 (-24) <= / 2).
  { rewrite <- powerRZ_2_m1. by apply powerRZ_2_le. }
  assert (0 <= lo * powerRZ 2 (-24)) by (apply Rmult_le_pos; lra).
  assert (lo * powerRZ 2 (-24) <= lo * / 2)
    by (apply Rmult_le_compat_l; lra).
  split; nra.
Qed.

End Binary32.

(** ** Typed-array stores in nested loops *)

Section Loops.

Context {A : Type}.
Implicit Types (a : list A) (ws : list (Z * A)).

Lemma length_ta_set a i v : length (ta_set a i v) = length a.
Proof. unfold ta_set. destruct (0 <=? i); [apply length_insert | done]. Qed.

Lemma lookup_ta_set_eq a i v :
  0 ≤ i < Z.of_nat (length a) → ta_set a i v !! Z.to_nat i = Some v.
Proof.
  intros Hi. unfold ta_set.
  destruct (Z.leb_spec 0 i); [| lia].
  apply list_lookup_insert_eq. lia.
Qed.

Lemma lookup_ta_set_ne a i j v :
  0 ≤ j → i ≠ j → ta_set a i v !! Z.to_nat j = a !! Z.to_nat j.
Proof.
  intros Hj Hne. unfold ta_set.
  destruct (Z.leb_spec 0 i); [| done].
  apply list_lookup_insert_ne. lia.
Qed.

Lemma apply_writes_cons a i v ws :
  apply_writes a ((i, v) :: ws) = apply_writes (ta_set a i v) ws.
Proof. reflexivity. Qed.

Lemma length_apply_writes ws a : length (apply_writes a ws) = length a.
Proof.
  revert a. induction ws as [| [i v] ws IH]; intros a; [done |].
  rewrite apply_writes_cons, IH. apply length_ta_set.
Qed.

Lemma apply_writes_app a ws1 ws2 :
  apply_writes a (ws1 ++ ws2) = apply_writes (apply_writes a ws1) ws2.
Proof. apply foldl_app. Qed.

(** An index no store names keeps its element. *)
Lemma apply_writes_untouched ws a j :
  0 ≤ j → j ∉ ws.*1 → apply_writes a ws !! Z.to_nat j = a !! Z.to_nat j.
Proof.
  intros Hj. revert a. induction ws as [| [i v] ws IH]; intros a Hnot; [done |].
  rewrite fmap_cons in Hnot. apply not_elem_of_cons in Hnot as [Hne Hnot].
  rewrite apply_writes_cons, IH by done.
  apply lookup_ta_set_ne; [done | by cbn in Hne].
Qed.

(** An index that every store naming it gives the same value ends with
    that value. *)
Lemma apply_writes_unique ws a j v :
  (j, v) ∈ ws →
  (∀ v', (j, v') ∈ ws → v' = v) →
  0 ≤ j < Z.of_nat (length a) →
  apply_writes a ws !! Z.to_nat j = Some v.
Proof.
  revert a. induction ws as [| [i w] ws IH]; intros a Hin Huniq Hj.
  - by apply elem_of_nil in Hin.
  - rewrite apply_writes_cons.
    destruct (decide (j ∈ ws.*1)) as [Hlater | Hlast].
    + apply list_elem_of_fmap in Hlater as [[j' v'] [-> Hin']].
      cbn in *. apply IH.
      * rewrite <- (Huniq v'); [done | by right].
      * intros v'' H''. apply Huniq. by right.
      * by rewrite length_ta_set.
    + rewrite apply_writes_untouched by (done || lia).
      apply elem_of_cons in Hin as [[= <- <-] | Hin].
      * by apply lookup_ta_set_eq.
      * exfalso. apply Hlast. apply list_elem_of_fmap. by exists (j, v).
Qed.

(** A pair of nested [for] loops whose body is one store performs
    [grid_writes]. *)
Lemma for_lt_grid_writes (W H : Z) (idx : Z → Z → Z) (val : Z → Z → A)
    (step : Z → Z → list A → list A) a :
  (∀ y x a, step y x a = ta_set a (idx y x) (val y x)) →
  for_lt H (λ y, for_lt W (λ x, step y x)) a
  = apply_writes a (grid_writes W H idx val).
Proof.
  intros Hstep. unfold for_lt, grid_writes.
  generalize (seqZ 0 H) as ys. intros ys. revert a.
  induction ys as [| y ys IH]; intros a; [done |].
  rewrite bind_cons, apply_writes_app. cbn [foldl]. rewrite IH. f_equal.
  generalize (seqZ 0 W) as xs. intros xs. clear IH. revert a.
  induction xs as [| x xs IH]; intros a; [done |].
  rewrite bind_cons. cbn [foldl app]. rewrite IH, Hstep. done.
Qed.

Lemma elem_of_grid_writes (W H : Z) (idx : Z → Z → Z) (val : Z → Z → A) j v :
  (j, v) ∈ grid_writes W H idx val ↔
  ∃ y x, 0 ≤ y < H ∧ 0 ≤ x < W ∧ j = idx y x ∧ v = val y x.
Proof.
  unfold grid_writes. rewrite list_elem_of_bind. split.
  - intros (y & Hin & Hy). apply list_elem_of_bind in Hin as (x & Hin & Hx).
    apply list_elem_of_singleton in Hin as [= -> ->].
    apply elem_of_seqZ in Hy, Hx. exists y, x. repeat split; lia.
  - intros (y & x & Hy & Hx & -> & ->). exists y. split.
    + apply list_elem_of_bind. exists x. split.
      * by apply list_elem_of_singleton.
      * apply elem_of_seqZ. lia.
    + apply elem_of_seqZ. lia.
Qed.

End Loops.

(** Row-major indices of a [W]-column grid determine row and column. *)
Lemma row_major_inj (W x y x' y' : Z) :
  0 ≤ x < W → 0 ≤ x' < W → y * W + x = y' * W + x' → x = x' ∧ y = y'.
Proof. intros Hx Hx' E. assert (y = y') by nia. subst. lia. Qed.

Lemma flip_range f n k : 0 ≤ k < n → 0 ≤ flip f n k < n.
Proof. unfold flip. destruct f; lia. Qed.

Lemma flip_involutive f n k : flip f n (flip f n k) = k.
Proof. unfold flip. destruct f; lia. Qed.

(** The field two nested loops leave, when the body stores [pt] of the
    sample offset of [(x, y)] at the flipped position. *)
Lemma flipped_fill_lookup {A} (fX fY : bool) (W H : Z) (pt : Z → A)
    (step : Z → Z → list A → list A) (a : list A) (x y : Z) :
  (∀ y x a, step y x a
            = ta_set a (flip fY H y * W + flip fX W x) (pt ((y * W + x) * 4))) →
  Z.of_nat (length a) = W * H →
  0 ≤ x < W → 0 ≤ y < H →
  for_lt H (λ y, for_lt W (λ x, step y x)) a !! Z.to_nat (y * W + x)
  = Some (pt ((flip fY H y * W + flip fX W x) * 4)).
Proof.
  intros Hstep Hlen Hx Hy.
  rewrite (for_lt_grid_writes W H
             (λ y x, flip fY H y * W + flip fX W x)
             (λ y x, pt ((y * W + x) * 4))) by done.
  apply apply_writes_unique.
  - apply elem_of_grid_writes.
    exists (flip fY H y), (flip fX W x).
    rewrite !flip_involutive.
    split; [by apply flip_range |]. split; [by apply flip_range | done].
  - intros v' Hin.
    apply elem_of_grid_writes in Hin as (y' & x' & Hy' & Hx' & E & ->).
    apply row_major_inj in E as [Ex Ey];
      [| lia | by apply flip_range].
    rewrite Ex, Ey, !flip_involutive. done.
  - nia.
Qed.

(** ** The thickness field *)

Section Thickness.

Local Open Scope R_scope.

Lemma docs_clipNormalize_unit p Y : 0 <= Docs.clipNormalize p Y <= 1.
Proof. apply Math_max_min_unit. Qed.

Lemma part000_clipNormalize_unit p Y : 0 <= Part000.clipNormalize p Y <= 1.
Proof. apply Math_max_min_unit. Qed.

Lemma docs_toneCurve_unit p Y :
  0 < toneGamma p → 0 <= Y <= 1 → 0 <= Docs.toneCurve p Y <= 1.
Proof.
  intros Hg HY. unfold Docs.toneCurve.
  destruct (Rgt_dec _ _); [| done].
  apply Math_pow_unit; [done |].
  apply Rdiv_lt_0_compat; lra.
Qed.

Lemma part000_toneCurve_unit p Y :
  0 < toneGamma p → 0 <= Y <= 1 → 0 <= Part000.toneCurve p Y <= 1.
Proof.
  intros Hg HY. unfold Part000.toneCurve.
  destruct (Req_dec_T _ _); [done |].
  apply Math_pow_unit; [done |].
  apply Rdiv_lt_0_compat; lra.
Qed.

Lemma docs_pixelThickness_range p data i :
  0 <= reliefMm p → 0 < toneGamma p →
  baseMm p <= Docs.pixelThickness p data i <= baseMm p + reliefMm p.
Proof.
  intros Hr Hg. unfold Docs.pixelThickness.
  pose proof (docs_toneCurve_unit p _ Hg
                (docs_clipNormalize_unit p (Docs.luminance data i))) as HY.
  destruct (default true (mapInvert p)); nra.
Qed.

Lemma part000_pixelThickness_range p data i :
  0 <= reliefMm p → 0 < toneGamma p →
  baseMm p <= Part000.pixelThickness p data i <= baseMm p + reliefMm p.
Proof.
  intros Hr Hg. unfold Part000.pixelThickness.
  pose proof (part000_toneCurve_unit p _ Hg
                (part000_clipNormalize_unit p (Part000.luminance data i)))
    as HY.
  destruct (default false (mapInvert p)); nra.
Qed.

End Thickness.

(** What a returned thickness map is: its dimensions, and the value at each
    position of the field. *)
Lemma docs_computeThicknessMap_Ok img p r :
  Docs.computeThicknessMap img p = Ok r →
  W r = widthPx p ∧ H r = Docs.fieldHeight img (widthPx p) ∧
  1 ≤ W r ∧ 1 ≤ H r ∧
  pxMm r = (widthMm p / IZR (W r))%R ∧
  Z.of_nat (length (thickness r)) = W r * H r ∧
  ∀ x y, 0 ≤ x < W r → 0 ≤ y < H r →
    thickness r !! Z.to_nat (y * W r + x)
    = Some (Docs.pixelThickness p (drawn img (W r) (H r))
              ((flip (flipY p) (H r) y * W r + flip (flipX p) (W r) x) * 4)).
Proof.
  unfold Docs.computeThicknessMap, getImageData, new_Float32Array.
  set (w := widthPx p). set (h := Docs.fieldHeight img w).
  assert (1 ≤ h) by (unfold h, Docs.fieldHeight; lia).
  destruct (Z.eqb_spec w 0) as [| Hw]; [done |].
  destruct (Z.eqb_spec h 0) as [| Hh]; [lia |]. cbn.
  destruct (Z.ltb_spec (w * h) 0) as [| Hwh]; [done |].
  intros [= <-]. cbn.
  assert (1 ≤ w) by nia.
  repeat split; try done.
  - rewrite (for_lt_grid_writes w h
               (λ y x, flip (flipY p) h y * w + flip (flipX p) w x)
               (λ y x, Docs.pixelThickness p (drawn img w h) ((y*w+x)*4)))
      by done.
    rewrite length_apply_writes, length_replicate. lia.
  - intros x y Hx Hy.
    apply (flipped_fill_lookup (flipX p) (flipY p) w h
             (Docs.pixelThickness p (drawn img w h))); try done.
    rewrite length_replicate. lia.
Qed.

Lemma part000_computeThicknessMap_Ok img p r :
  0 ≤ widthPx p →
  Part000.computeThicknessMap img p = Ok r →
  W r = widthPx p ∧ H r = Part000.fieldHeight img (widthPx p) ∧
  1 ≤ W r ∧ 1 ≤ H r ∧
  pxMm r = (widthMm p / IZR (W r))%R ∧
  Z.of_nat (length (thickness r)) = W r * H r ∧
  ∀ x y, 0 ≤ x < W r → 0 ≤ y < H r →
    thickness r !! Z.to_nat (y * W r + x)
    = Some (Part000.pixelThickness p (drawn img (W r) (H r))
              ((flip (flipY p) (H r) y * W r + flip (flipX p) (W r) x) * 4)).
Proof.
  unfold Part000.computeThicknessMap, getImageData, new_Float32Array.
  set (w := widthPx p). set (h := Part000.fieldHeight img w). intros Hw0.
  destruct (Z.eqb_spec w 0) as [| Hw]; [done |].
  destruct (Z.eqb_spec h 0) as [| Hh]; [done |]. cbn.
  destruct (Z.ltb_spec (w * h) 0) as [| Hwh]; [done |].
  intros [= <-]. cbn.
  assert (1 ≤ w) by lia. assert (1 ≤ h) by nia.
  repeat split; try done.
  - rewrite (for_lt_grid_writes w h
               (λ y x, flip (flipY p) h y * w + flip (flipX p) w x)
               (λ y x, Part000.pixelThickness p (drawn img w h) ((y*w+x)*4)))
      by done.
    rewrite length_apply_writes, length_replicate. lia.
  - intros x y Hx Hy.
    apply (flipped_fill_lookup (flipX p) (flipY p) w h
             (Part000.pixelThickness p (drawn img w h))); try done.
    rewrite length_replicate. lia.
Qed.

(** [computeThicknessMap] returns a map whenever the canvas is not empty. *)
Lemma docs_computeThicknessMap_returns img p :
  1 ≤ widthPx p → ∃ r, Docs.computeThicknessMap img p = Ok r.
Proof.
  intros Hw.
  unfold Docs.computeThicknessMap, getImageData, new_Float32Array.
  set (w := widthPx p) in *. set (h := Docs.fieldHeight img w).
  assert (1 ≤ h) by (unfold h, Docs.fieldHeight; lia).
  destruct (Z.eqb_spec w 0) as [| _]; [lia |].
  destruct (Z.eqb_spec h 0) as [| _]; [lia |]. cbn.
  destruct (Z.ltb_spec (w * h) 0) as [| _]; [nia |]. eauto.
Qed.

Lemma part000_computeThicknessMap_returns img p :
  1 ≤ widthPx p → 1 ≤ Part000.fieldHeight img (widthPx p) →
  ∃ r, Part000.computeThicknessMap img p = Ok r.
Proof.
  intros Hw Hh.
  unfold Part000.computeThicknessMap, getImageData, new_Float32Array.
  set (w := widthPx p) in *. set (h := Part000.fieldHeight img w) in *.
  destruct (Z.eqb_spec w 0) as [| _]; [lia |].
  destruct (Z.eqb_spec h 0) as [| _]; [lia |]. cbn.
  destruct (Z.ltb_spec (w * h) 0) as [| _]; [nia |]. eauto.
Qed.

(** What the [Float32Array] of a returned map holds: at each position, the
    binary32 number nearest to the thickness computed for the pixel written
    there. *)
Lemma docsF32_computeThicknessMap_Ok img p s :
  DocsF32.computeThicknessMap img p = Ok s →
  F32.W s = widthPx p ∧ F32.H s = Docs.fieldHeight img (widthPx p) ∧
  1 ≤ F32.W s ∧ 1 ≤ F32.H s ∧
  Z.of_nat (length (F32.thickness s)) = F32.W s * F32.H s ∧
  ∀ x y, 0 ≤ x < F32.W s → 0 ≤ y < F32.H s →
    F32.thickness s !! Z.to_nat (y * F32.W s + x)
    = Some (F32.Math_fround
              (Docs.pixelThickness p (drawn img (F32.W s) (F32.H s))
                 ((flip (flipY p) (F32.H s) y * F32.W s
                   + flip (flipX p) (F32.W s) x) * 4))).
Proof.
  unfold DocsF32.computeThicknessMap, getImageData, F32.new_Float32Array.
  set (w := widthPx p). set (h := Docs.fieldHeight img w).
  assert (1 ≤ h) by (unfold h, Docs.fieldHeight; lia).
  destruct (Z.eqb_spec w 0) as [| Hw]; [done |].
  destruct (Z.eqb_spec h 0) as [| Hh]; [lia |]. cbn.
  destruct (Z.ltb_spec (w * h) 0) as [| Hwh]; [done |].
  intros [= <-]. cbn.
  assert (1 ≤ w) by nia.
  repeat split; try done.
  - rewrite (for_lt_grid_writes w h
               (λ y x, flip (flipY p) h y * w + flip (flipX p) w x)
               (λ y x, F32.Math_fround
                         (Docs.pixelThickness p (drawn img w h) ((y*w+x)*4))))
      by done.
    rewrite length_apply_writes, length_replicate. lia.
  - intros x y Hx Hy.
    apply (flipped_fill_lookup (flipX p) (flipY p) w h
             (λ i, F32.Math_fround (Docs.pixelThickness p (drawn img w h) i)));
      try done.
    rewrite length_replicate. lia.
Qed.

Lemma part000F32_computeThicknessMap_Ok img p s :
  0 ≤ widthPx p →
  Part000F32.computeThicknessMap img p = Ok s →
  F32.W s = widthPx p ∧ F32.H s = Part000.fieldHeight img (widthPx p) ∧
  1 ≤ F32.W s ∧ 1 ≤ F32.H s ∧
  Z.of_nat (length (F32.thickness s)) = F32.W s * F32.H s ∧
  ∀ x y, 0 ≤ x < F32.W s → 0 ≤ y < F32.H s →
    F32.thickness s !! Z.to_nat (y * F32.W s + x)
    = Some (F32.Math_fround
              (Part000.pixelThickness p (drawn img (F32.W s) (F32.H s))
                 ((flip (flipY p) (F32.H s) y * F32.W s
                   + flip (flipX p) (F32.W s) x) * 4))).
Proof.
  unfold Part000F32.computeThicknessMap, getImageData, F32.new_Float32Array.
  set (w := widthPx p). set (h := Part000.fieldHeight img w). intros Hw0.
  destruct (Z.eqb_spec w 0) as [| Hw]; [done |].
  destruct (Z.eqb_spec h 0) as [| Hh]; [done |]. cbn.
  destruct (Z.ltb_spec (w * h) 0) as [| Hwh]; [done |].
  intros [= <-]. cbn.
  assert (1 ≤ w) by lia. assert (1 ≤ h) by nia.
  repeat split; try done.
  - rewrite (for_lt_grid_writes w h
               (λ y x, flip (flipY p) h y * w + flip (flipX p) w x)
               (λ y x, F32.Math_fround
                         (Part000.pixelThickness p (drawn img w h)
                            ((y*w+x)*4))))
      by done.
    rewrite length_apply_writes, length_replicate. lia.
  - intros x y Hx Hy.
    apply (flipped_fill_lookup (flipX p) (flipY p) w h
             (λ i, F32.Math_fround
                     (Part000.pixelThickness p (drawn img w h) i)));
      try done.
    rewrite length_replicate. lia.
Qed.

(** The array is built exactly when the field is: the two stores fail
    alike. *)
Lemma docsF32_computeThicknessMap_returns img p :
  1 ≤ widthPx p → ∃ s, DocsF32.computeThicknessMap img p = Ok s.
Proof.
  intros Hw.
  unfold DocsF32.computeThicknessMap, getImageData, F32.new_Float32Array.
  set (w := widthPx p) in *. set (h := Docs.fieldHeight img w).
  assert (1 ≤ h) by (unfold h, Docs.fieldHeight; lia).
  destruct (Z.eqb_spec w 0) as [| _]; [lia |].
  destruct (Z.eqb_spec h 0) as [| _]; [lia |]. cbn.
  destruct (Z.ltb_spec (w * h) 0) as [| _]; [nia |]. eauto.
Qed.

Lemma part000F32_computeThicknessMap_returns img p :
  1 ≤ widthPx p → 1 ≤ Part000.fieldHeight img (widthPx p) →
  ∃ s, Part000F32.computeThicknessMap img p = Ok s.
Proof.
  intros Hw Hh.
  unfold Part000F32.computeThicknessMap, getImageData, F32.new_Float32Array.
  set (w := widthPx p) in *. set (h := Part000.fieldHeight img w) in *.
  destruct (Z.eqb_spec w 0) as [| _]; [lia |].
  destruct (Z.eqb_spec h 0) as [| _]; [lia |]. cbn.
  destruct (Z.ltb_spec (w * h) 0) as [| _]; [nia |]. eauto.
Qed.

(** Every element of a row-major field sits at some [(x, y)]. *)
Lemma field_position {A} (a : list A) (W H : Z) (i : nat) (v : A) :
  1 ≤ W → Z.of_nat (length a) = W * H → a !! i = Some v →
  ∃ x y, 0 ≤ x < W ∧ 0 ≤ y < H ∧ i = Z.to_nat (y * W + x).
Proof.
  intros HW Hlen Hi. apply lookup_lt_Some in Hi.
  exists (Z.of_nat i mod W), (Z.of_nat i / W).
  pose proof (Z.mod_pos_bound (Z.of_nat i) W ltac:(lia)).
  pose proof (Z.div_mod (Z.of_nat i) W ltac:(lia)) as E.
  assert (0 ≤ Z.of_nat i / W) by (apply Z.div_pos; lia).
  assert (Z.of_nat i / W < H).
  { apply Z.div_lt_upper_bound; [lia |]. lia. }
  repeat split; try lia.
Qed.

Lemma field_Forall {A} (P : A → Prop) (a : list A) (W H : Z) (f : Z → Z → A) :
  1 ≤ W → Z.of_nat (length a) = W * H →
  (∀ x y, 0 ≤ x < W → 0 ≤ y < H → a !! Z.to_nat (y * W + x) = Some (f x y)) →
  (∀ x y, 0 ≤ x < W → 0 ≤ y < H → P (f x y)) →
  Forall P a.
Proof.
  intros HW Hlen Hf HP. apply Forall_lookup. intros i v Hi.
  destruct (field_position a W H i v HW Hlen Hi) as (x & y & Hx & Hy & ->).
  rewrite Hf in Hi by done. injection Hi as <-. by apply HP.
Qed.

(** ** Claims on the thickness field *)

(** ** Luminance *)

(** The three samples read for the pixel [(x, y)] are inside the array. *)
Lemma reads_inside_data (img : Image) (W H x y : Z) :
  0 ≤ x < W → 0 ≤ y < H →
  0 ≤ (y * W + x) * 4 ∧
  (y * W + x) * 4 + 2 < Z.of_nat (length (drawn img W H)).
Proof.
  intros Hx Hy. rewrite drawn_length by lia. nia.
Qed.

Lemma docs_srgbToLinear_spec (u : R) : Docs.srgbToLinear u = spec_srgb_decode u.
Proof.
  unfold Docs.srgbToLinear, spec_srgb_decode.
  destruct (Rle_dec u 0.04045) as [| Hu]; [done |].
  apply Math_pow_pos. apply Rdiv_lt_0_compat; lra.
Qed.

Lemma sample_lookup (data : list Z) (i c : Z) :
  data !! Z.to_nat i = Some c → sample data i = IZR c.
Proof. intros E. unfold sample. by rewrite E. Qed.

Lemma docs_luminance_spec (data : list Z) (i r g b : Z) :
  data !! Z.to_nat i = Some r →
  data !! Z.to_nat (i + 1) = Some g →
  data !! Z.to_nat (i + 2) = Some b →
  Docs.luminance data i = spec_luminance r g b.
Proof.
  intros Er Eg Eb. unfold Docs.luminance, spec_luminance. cbv zeta.
  rewrite !docs_srgbToLinear_spec.
  by rewrite (sample_lookup _ _ _ Er), (sample_lookup _ _ _ Eg),
             (sample_lookup _ _ _ Eb).
Qed.

Lemma normalised_channel (c : Z) : 0 ≤ c ≤ 255 → (0 <= IZR c / 255 <= 1)%R.
Proof.
  intros [H0 H255]. apply IZR_le in H0, H255.
  split.
  - apply Rmult_le_reg_r with 255%R; [lra |]. 
    unfold Rdiv. rewrite Rmult_assoc, Rinv_l by lra. lra.
  - apply Rmult_le_reg_r with 255%R; [lra |].
    unfold Rdiv. rewrite Rmult_assoc, Rinv_l by lra. lra.
Qed.

(** The samples [luminance] reads at a pixel offset are colour samples. *)
Lemma docs_luminance_same_colours (data data' : list Z) (k : Z) :
  0 ≤ k → same_colours data data' →
  Docs.luminance data (k * 4) = Docs.luminance data' (k * 4).
Proof.
  intros Hk Hsame. unfold Docs.luminance, sample.
  rewrite !(Hsame (k * 4)), !(Hsame (k * 4 + 1)), !(Hsame (k * 4 + 2));
    first [done | lia | idtac].
  all: rewrite ?Z.mod_mul by lia;
       rewrite ?(Z.add_comm (k * 4)), ?Z.mod_add by lia; done.
Qed.

Lemma bind_ext_in {A B} (f g : A → list B) (l : list A) :
  (∀ x, x ∈ l → f x = g x) → l ≫= f = l ≫= g.
Proof.
  induction l as [| x l IH]; intros Hfg; [done |].
  rewrite !bind_cons, Hfg by left. f_equal. apply IH.
  intros y Hy. apply Hfg. by right.
Qed.

Lemma grid_writes_ext {A} (W H : Z) (idx : Z → Z → Z) (val val' : Z → Z → A) :
  (∀ y x, 0 ≤ y < H → 0 ≤ x < W → val y x = val' y x) →
  grid_writes W H idx val = grid_writes W H idx val'.
Proof.
  intros Hval. unfold grid_writes.
  apply bind_ext_in. intros y Hy. apply elem_of_seqZ in Hy.
  apply bind_ext_in. intros x Hx. apply elem_of_seqZ in Hx.
  rewrite Hval by lia. done.
Qed.

(** C4.  The luminance [computeThicknessMap] of src/docs/app.js uses for a
    pixel with samples [r], [g], [b] is the Rec.709 combination of the
    sRGB-decoded channels [r/255], [g/255], [b/255], each in [[0,1]]; the
    value written into the field for that pixel is the thickness computed
    from this luminance (clip, tone curve, direction, scale), rounded to
    binary32; and two images whose resampled pixels differ in alpha only
    give the same field. *)
Theorem luminance_is_rec709_of_decoded_srgb :
  (∀ (data : list Z) (i r g b : Z),
     data !! Z.to_nat i = Some r →
     data !! Z.to_nat (i + 1) = Some g →
     data !! Z.to_nat (i + 2) = Some b →
     0 ≤ r ≤ 255 → 0 ≤ g ≤ 255 → 0 ≤ b ≤ 255 →
     (0 <= sample data i / 255 <= 1)%R ∧
     (0 <= sample data (i + 1) / 255 <= 1)%R ∧
     (0 <= sample data (i + 2) / 255 <= 1)%R ∧
     Docs.luminance data i = spec_luminance r g b) ∧
  (∀ (img : Image) (p : Params) (s : F32.ThicknessMap) (x y r g b : Z),
     DocsF32.computeThicknessMap img p = Ok s →
     0 ≤ x < F32.W s → 0 ≤ y < F32.H s →
     let i := (flip (flipY p) (F32.H s) y * F32.W s
               + flip (flipX p) (F32.W s) x) * 4 in
     drawn img (F32.W s) (F32.H s) !! Z.to_nat i = Some r →
     drawn img (F32.W s) (F32.H s) !! Z.to_nat (i + 1) = Some g →
     drawn img (F32.W s) (F32.H s) !! Z.to_nat (i + 2) = Some b →
     F32.thickness s !! Z.to_nat (y * F32.W s + x)
     = Some (F32.Math_fround
               (docs_thickness_of_luminance p (spec_luminance r g b)))) ∧
  (∀ (img img' : Image) (p : Params),
     width img = width img' → height img = height img' →
     (∀ W H, same_colours (drawn img W H) (drawn img' W H)) →
     Docs.computeThicknessMap img p = Docs.computeThicknessMap img' p ∧
     DocsF32.computeThicknessMap img p = DocsF32.computeThicknessMap img' p).
Proof.
  split; [| split].
  - intros data i r g b Er Eg Eb Hr Hg Hb.
    rewrite (sample_lookup _ _ _ Er), (sample_lookup _ _ _ Eg),
            (sample_lookup _ _ _ Eb).
    repeat split; try (apply normalised_channel; lia).
    by apply docs_luminance_spec.
  - intros img p s x y r g b Hs Hx Hy i Er Eg Eb.
    destruct (docsF32_computeThicknessMap_Ok img p s Hs)
      as (_ & _ & _ & _ & _ & Hget).
    rewrite (Hget x y Hx Hy). fold i. do 2 f_equal.
    unfold Docs.pixelThickness, docs_thickness_of_luminance.
    rewrite (docs_luminance_spec _ i r g b Er Eg Eb). cbv zeta.
    destruct (default true (mapInvert p)); lra.
  - intros img img' p Ew Eh Hsame.
    assert (Hpx : ∀ w h y x, 0 ≤ y < h → 0 ≤ x < w →
              Docs.pixelThickness p (drawn img w h) ((y * w + x) * 4)
              = Docs.pixelThickness p (drawn img' w h) ((y * w + x) * 4)).
    { intros w h y x Hy Hx. unfold Docs.pixelThickness.
      rewrite (docs_luminance_same_colours _ (drawn img' w h));
        [done | nia |]. apply Hsame. }
    split.
    + unfold Docs.computeThicknessMap, Docs.fieldHeight, getImageData.
      rewrite <- Ew, <- Eh.
      set (w := widthPx p).
      set (h := Z.max 1 _).
      destruct ((w =? 0) || (h =? 0)); [done |].
      destruct (new_Float32Array (w * h)) as [a |]; [| done].
      do 2 f_equal.
      rewrite !(for_lt_grid_writes w h
                 (λ y x, flip (flipY p) h y * w + flip (flipX p) w x)
                 (λ y x, Docs.pixelThickness p (drawn _ w h) ((y*w+x)*4)))
        by done.
      f_equal. apply grid_writes_ext. intros y x Hy Hx. by apply Hpx.
    + unfold DocsF32.computeThicknessMap, Docs.fieldHeight, getImageData.
      rewrite <- Ew, <- Eh.
      set (w := widthPx p).
      set (h := Z.max 1 _).
      destruct ((w =? 0) || (h =? 0)); [done |].
      destruct (F32.new_Float32Array (w * h)) as [a |]; [| done].
      do 2 f_equal.
      rewrite !(for_lt_grid_writes w h
                 (λ y x, flip (flipY p) h y * w + flip (flipX p) w x)
                 (λ y x, F32.Math_fround
                           (Docs.pixelThickness p (drawn _ w h)
                              ((y*w+x)*4))))
        by done.
      f_equal. apply grid_writes_ext. intros y x Hy Hx. cbv beta.
      f_equal. by apply Hpx.
Qed.

Lemma flat_image_lookup (c a W H i : Z) :
  0 ≤ i < 4 * W * H →
  drawn (flat_image c a) W H !! Z.to_nat i
  = Some (if i mod 4 =? 3 then a else c).
Proof.
  intros Hi. cbn. rewrite list_lookup_fmap, lookup_seqZ_lt by lia.
  cbn. by rewrite Z2Nat.id by lia.
Qed.

Lemma flat_image_same_colours (c a a' W H : Z) :
  same_colours (drawn (flat_image c a) W H) (drawn (flat_image c a') W H).
Proof.
  intros i Hi Hmod.
  destruct (Z.lt_ge_cases i (4 * W * H)) as [Hlt | Hge].
  - rewrite !flat_image_lookup by lia.
    destruct (Z.eqb_spec (i mod 4) 3); done.
  - cbn. rewrite !list_lookup_fmap, !lookup_seqZ_ge by lia. done.
Qed.

(** Instance of C4: an orange pixel; the first value of the field of an
    orange image; and a white image made transparent. *)
Lemma luminance_is_rec709_of_decoded_srgb_witness :
  Docs.luminance [255; 128; 0; 255] 0 = spec_luminance 255 128 0 ∧
  (∃ s, DocsF32.computeThicknessMap (flat_image 200 255) typical_params
        = Ok s ∧
        F32.thickness s !! 0%nat
        = Some (F32.Math_fround
                  (docs_thickness_of_luminance typical_params
                     (spec_luminance 200 200 200)))) ∧
  DocsF32.computeThicknessMap (flat_image 255 255) typical_params
  = DocsF32.computeThicknessMap (flat_image 255 0) typical_params.
Proof.
  destruct luminance_is_rec709_of_decoded_srgb as (Hlum & Hstored & Halpha).
  split; [| split].
  - apply (Hlum [255; 128; 0; 255] 0 255 128 0); first [reflexivity | lia].
  - destruct (docsF32_computeThicknessMap_returns (flat_image 200 255)
                typical_params) as [s Hs]; [cbn; lia |].
    exists s. split; [exact Hs |].
    destruct (docsF32_computeThicknessMap_Ok _ _ _ Hs)
      as (EW & EH & HW & HH & _ & _).
    apply (Hstored (flat_image 200 255) typical_params s 0 0 200 200 200 Hs);
      [lia | lia | | |].
    all: cbn [flipX flipY typical_params flip].
    all: rewrite flat_image_lookup by nia; reflexivity.
  - apply (Halpha (flat_image 255 255) (flat_image 255 0) typical_params);
      first [reflexivity | intros W H; apply flat_image_same_colours].
Defined.

(** ** The clip step *)

Lemma Math_max_min_clamp (v : R) :
  Math_max 0 (Math_min 1 v) = spec_clamp v 0 1.
Proof.
  unfold Math_max, Math_min, Rmax, Rmin, spec_clamp.
  repeat first [destruct (Rle_dec _ _) | destruct (Rlt_dec _ _)]; lra.
Qed.

(** C5.  For every [blackCut] and [whiteCut], the clip step of both variants
    is [clamp((Y - blackCut) / max(1e-9, whiteCut - blackCut), 0, 1)]; the
    divisor, whose inverse [invRange] is, is at least [1e-9] and so is not
    zero. *)
Theorem clip_is_clamped_quotient (p : Params) (Y : R) :
  let divisor := Math_max 1e-9 (whiteCut p - blackCut p) in
  Docs.clipNormalize p Y = spec_clip (blackCut p) (whiteCut p) Y ∧
  Part000.clipNormalize p Y = spec_clip (blackCut p) (whiteCut p) Y ∧
  Docs.invRange p = (1 / divisor)%R ∧
  Part000.invRange p = (1 / divisor)%R ∧
  (1e-9 <= divisor)%R ∧ divisor ≠ 0%R.
Proof.
  intros divisor.
  assert (Hd : (1e-9 <= divisor)%R) by apply Math_max_lower.
  assert (E : ∀ a, (a * (1 / divisor))%R
                   = (a / Rmax 1e-9 (whiteCut p - blackCut p))%R).
  { intros a. unfold Rdiv. by rewrite Rmult_1_l. }
  unfold Docs.clipNormalize, Part000.clipNormalize, spec_clip,
    Docs.invRange, Part000.invRange.
  fold divisor. rewrite Math_max_min_clamp, E.
  repeat split; try done. lra.
Qed.

(** ** Flips *)

Lemma part000_computeThicknessMap_dims img p r :
  Part000.computeThicknessMap img p = Ok r →
  W r = widthPx p ∧ H r = Part000.fieldHeight img (widthPx p).
Proof.
  unfold Part000.computeThicknessMap.
  destruct (getImageData _ _ _); [| done].
  destruct (new_Float32Array _); [| done].
  by intros [= <-].
Qed.

Lemma docs_flipped_field img p fx fy r r0 :
  Docs.computeThicknessMap img (with_flips fx fy p) = Ok r →
  Docs.computeThicknessMap img (with_flips false false p) = Ok r0 →
  W r = W r0 ∧ H r = H r0 ∧
  ∀ x y, 0 ≤ x < W r → 0 ≤ y < H r →
    thickness r !! Z.to_nat (y * W r + x)
    = thickness r0 !! Z.to_nat (flip fy (H r) y * W r + flip fx (W r) x).
Proof.
  intros Hr Hr0.
  destruct (docs_computeThicknessMap_Ok _ _ _ Hr)
    as (EW & EH & _ & _ & _ & _ & Hget).
  destruct (docs_computeThicknessMap_Ok _ _ _ Hr0)
    as (EW0 & EH0 & _ & _ & _ & _ & Hget0).
  cbn in EW, EH, EW0, EH0, Hget, Hget0.
  assert (E1 : W r = W r0) by congruence.
  assert (E2 : H r = H r0) by congruence.
  repeat split; try done. intros x y Hx Hy.
  rewrite Hget by done. rewrite E1, E2 in *.
  rewrite Hget0 by (by apply flip_range). done.
Qed.

Lemma part000_flipped_field img p fx fy r r0 :
  Part000.computeThicknessMap img (with_flips fx fy p) = Ok r →
  Part000.computeThicknessMap img (with_flips false false p) = Ok r0 →
  W r = W r0 ∧ H r = H r0 ∧
  ∀ x y, 0 ≤ x < W r → 0 ≤ y < H r →
    thickness r !! Z.to_nat (y * W r + x)
    = thickness r0 !! Z.to_nat (flip fy (H r) y * W r + flip fx (W r) x).
Proof.
  intros Hr Hr0.
  destruct (part000_computeThicknessMap_dims _ _ _ Hr) as [EW EH].
  destruct (part000_computeThicknessMap_dims _ _ _ Hr0) as [EW0 EH0].
  cbn in EW, EH, EW0, EH0.
  assert (E1 : W r = W r0) by congruence.
  assert (E2 : H r = H r0) by congruence.
  repeat split; try done. intros x y Hx Hy.
  assert (Hpos : 0 ≤ widthPx p) by lia.
  destruct (part000_computeThicknessMap_Ok _ (with_flips fx fy p) _ Hpos Hr)
    as (_ & _ & _ & _ & _ & _ & Hget).
  destruct (part000_computeThicknessMap_Ok _ (with_flips false false p) _
              Hpos Hr0)
    as (_ & _ & _ & _ & _ & _ & Hget0).
  cbn in Hget, Hget0.
  rewrite Hget by done. rewrite E1, E2 in *.
  rewrite Hget0 by (by apply flip_range). done.
Qed.

(** Whether a map is returned depends on the image and the pixel width
    only. *)
Lemma docs_returns_for_same_width img p p' r :
  widthPx p' = widthPx p →
  Docs.computeThicknessMap img p = Ok r →
  ∃ r', Docs.computeThicknessMap img p' = Ok r'.
Proof.
  unfold Docs.computeThicknessMap. intros ->.
  destruct (getImageData _ _ _); [| done].
  destruct (new_Float32Array _); [| done]. eauto.
Qed.

Lemma part000_returns_for_same_width img p p' r :
  widthPx p' = widthPx p →
  Part000.computeThicknessMap img p = Ok r →
  ∃ r', Part000.computeThicknessMap img p' = Ok r'.
Proof.
  unfold Part000.computeThicknessMap. intros ->.
  destruct (getImageData _ _ _); [| done].
  destruct (new_Float32Array _); [| done]. eauto.
Qed.

(** C6.  In both variants, when the unflipped field is built, so is the
    field with flip flags [fx], [fy], with the same dimensions, and it is
    the unflipped field read at the reversed index: the value at [(x, y)] is
    the unflipped value at [(fx ? W-1-x : x, fy ? H-1-y : y)] (so [flipX]
    alone reverses the x-index and [flipY] alone the y-index); reversing an
    index twice restores it; and the thickness computed for the resampled
    pixel [(x, y)] is what the field holds at the write position
    [(flipX ? W-1-x : x, flipY ? H-1-y : y)]. *)
Theorem flip_reverses_field_index (img : Image) (p : Params) :
  (∀ fx fy r0,
     Docs.computeThicknessMap img (with_flips false false p) = Ok r0 →
     ∃ r, Docs.computeThicknessMap img (with_flips fx fy p) = Ok r ∧
       W r = W r0 ∧ H r = H r0 ∧
       ∀ x y, 0 ≤ x < W r → 0 ≤ y < H r →
         thickness r !! Z.to_nat (y * W r + x)
         = thickness r0
             !! Z.to_nat (flip fy (H r) y * W r + flip fx (W r) x)) ∧
  (∀ fx fy r0,
     Part000.computeThicknessMap img (with_flips false false p) = Ok r0 →
     ∃ r, Part000.computeThicknessMap img (with_flips fx fy p) = Ok r ∧
       W r = W r0 ∧ H r = H r0 ∧
       ∀ x y, 0 ≤ x < W r → 0 ≤ y < H r →
         thickness r !! Z.to_nat (y * W r + x)
         = thickness r0
             !! Z.to_nat (flip fy (H r) y * W r + flip fx (W r) x)) ∧
  (∀ f n k, flip f n (flip f n k) = k) ∧
  (∀ r, Docs.computeThicknessMap img p = Ok r →
     ∀ x y, 0 ≤ x < W r → 0 ≤ y < H r →
       thickness r
         !! Z.to_nat (flip (flipY p) (H r) y * W r + flip (flipX p) (W r) x)
       = Some (Docs.pixelThickness p (drawn img (W r) (H r))
                 ((y * W r + x) * 4))) ∧
  (∀ r, Part000.computeThicknessMap img p = Ok r →
     ∀ x y, 0 ≤ x < W r → 0 ≤ y < H r →
       thickness r
         !! Z.to_nat (flip (flipY p) (H r) y * W r + flip (flipX p) (W r) x)
       = Some (Part000.pixelThickness p (drawn img (W r) (H r))
                 ((y * W r + x) * 4))).
Proof.
  split.
  { intros fx fy r0 Hr0.
    destruct (docs_returns_for_same_width img (with_flips false false p)
                (with_flips fx fy p) r0 eq_refl Hr0) as [r Hr].
    exists r. split; [exact Hr |]. by eapply docs_flipped_field. }
  split.
  { intros fx fy r0 Hr0.
    destruct (part000_returns_for_same_width img (with_flips false false p)
                (with_flips fx fy p) r0 eq_refl Hr0) as [r Hr].
    exists r. split; [exact Hr |]. by eapply part000_flipped_field. }
  split; [apply flip_involutive |]. split.
  - intros r Hr x y Hx Hy.
    destruct (docs_computeThicknessMap_Ok _ _ _ Hr)
      as (_ & _ & _ & _ & _ & _ & Hget).
    rewrite Hget by (by apply flip_range).
    by rewrite !flip_involutive.
  - intros r Hr x y Hx Hy.
    destruct (part000_computeThicknessMap_dims _ _ _ Hr) as [EW _].
    assert (Hpos : 0 ≤ widthPx p) by lia.
    destruct (part000_computeThicknessMap_Ok _ _ _ Hpos Hr)
      as (_ & _ & _ & _ & _ & _ & Hget).
    rewrite Hget by (by apply flip_range).
    by rewrite !flip_involutive.
Qed.

(** Instance of C6: the white image with [flipX] alone, at the corner. *)
Lemma flip_reverses_field_index_witness :
  ∃ r r0,
    Docs.computeThicknessMap (flat_image 255 255)
      (with_flips true false typical_params) = Ok r ∧
    Docs.computeThicknessMap (flat_image 255 255)
      (with_flips false false typical_params) = Ok r0 ∧
    thickness r !! Z.to_nat (0 * W r + 0)
    = thickness r0 !! Z.to_nat (flip false (H r) 0 * W r + flip true (W r) 0).
Proof.
  destruct (docs_computeThicknessMap_returns (flat_image 255 255)
              (with_flips false false typical_params)) as [r0 Hr0];
    [cbn; lia |].
  destruct (flip_reverses_field_index (flat_image 255 255) typical_params)
    as (Hdocs & _).
  destruct (Hdocs true false r0 Hr0) as (r & Hr & _ & _ & Hget).
  exists r, r0. split; [exact Hr |]. split; [exact Hr0 |].
  destruct (docs_computeThicknessMap_Ok _ _ _ Hr) as (_ & _ & HW & HH & _).
  apply Hget; lia.
Defined.

(** ** Uniform images *)

Section Monochrome.

Local Open Scope R_scope.

Lemma docs_srgbToLinear_white : Docs.srgbToLinear (IZR 255 / 255) = 1.
Proof.
  replace (IZR 255 / 255) with 1 by lra.
  unfold Docs.srgbToLinear. destruct (Rle_dec 1 0.04045); [lra |].
  replace ((1 + 0.055) / 1.055) with 1 by lra.
  apply Math_pow_one_base.
Qed.

Lemma docs_srgbToLinear_black : Docs.srgbToLinear (IZR 0 / 255) = 0.
Proof.
  replace (IZR 0 / 255) with 0 by lra.
  unfold Docs.srgbToLinear. destruct (Rle_dec 0 0.04045); lra.
Qed.

Lemma part000_luminance_eq data i :
  Part000.luminance data i = Docs.luminance data i.
Proof. reflexivity. Qed.

Lemma uniform_colour_samples c n data k :
  uniform_colour c n data → (0 ≤ k < n)%Z →
  sample data (k * 4) = IZR c ∧
  sample data (k * 4 + 1) = IZR c ∧
  sample data (k * 4 + 2) = IZR c.
Proof.
  intros Hu Hk. destruct (Hu k Hk) as (E0 & E1 & E2).
  rewrite (Z.mul_comm k 4).
  by rewrite (sample_lookup _ _ _ E0), (sample_lookup _ _ _ E1),
             (sample_lookup _ _ _ E2).
Qed.

Lemma docs_luminance_white n data k :
  uniform_colour 255 n data → (0 ≤ k < n)%Z → Docs.luminance data (k * 4) = 1.
Proof.
  intros Hu Hk. unfold Docs.luminance.
  destruct (uniform_colour_samples _ _ _ _ Hu Hk) as (-> & -> & ->).
  cbv zeta. rewrite docs_srgbToLinear_white. lra.
Qed.

Lemma docs_luminance_black n data k :
  uniform_colour 0 n data → (0 ≤ k < n)%Z → Docs.luminance data (k * 4) = 0.
Proof.
  intros Hu Hk. unfold Docs.luminance.
  destruct (uniform_colour_samples _ _ _ _ Hu Hk) as (-> & -> & ->).
  cbv zeta. rewrite docs_srgbToLinear_black. lra.
Qed.

(** The clip step with the window [[0, 1]] keeps 0 and 1. *)
Lemma clip_full_window_1 : Math_max 0 (Math_min 1 ((1 - 0) * (1 / Math_max 1e-9 (1 - 0)))) = 1.
Proof.
  unfold Math_max, Math_min, Rmax, Rmin.
  destruct (Rle_dec 1e-9 (1 - 0)); [| lra].
  replace ((1 - 0) * (1 / (1 - 0))) with 1 by lra.
  repeat destruct (Rle_dec _ _); lra.
Qed.

Lemma clip_full_window_0 : Math_max 0 (Math_min 1 ((0 - 0) * (1 / Math_max 1e-9 (1 - 0)))) = 0.
Proof.
  unfold Math_max, Math_min, Rmax, Rmin.
  destruct (Rle_dec 1e-9 (1 - 0)); [| lra].
  replace ((0 - 0) * (1 / (1 - 0))) with 0 by lra.
  repeat destruct (Rle_dec _ _); lra.
Qed.

Lemma docs_toneCurve_identity p Y : toneGamma p = 1 → Docs.toneCurve p Y = Y.
Proof.
  intros E. unfold Docs.toneCurve, Math_abs. rewrite E.
  replace (1 - 1.0) with 0 by lra. rewrite Rabs_R0.
  destruct (Rgt_dec 0 1e-9); [lra | done].
Qed.

Lemma part000_toneCurve_identity p Y :
  toneGamma p = 1 → Part000.toneCurve p Y = Y.
Proof.
  intros E. unfold Part000.toneCurve. rewrite E.
  destruct (Req_dec_T 1 1); [done | lra].
Qed.

Lemma docs_pixelThickness_extremes p n data k :
  mapInvert p = Some true → blackCut p = 0 → whiteCut p = 1 →
  toneGamma p = 1 → (0 ≤ k < n)%Z →
  (uniform_colour 255 n data →
     Docs.pixelThickness p data (k * 4) = baseMm p) ∧
  (uniform_colour 0 n data →
     Docs.pixelThickness p data (k * 4) = baseMm p + reliefMm p).
Proof.
  intros Ei Eb Ew Eg Hk.
  unfold Docs.pixelThickness, Docs.clipNormalize, Docs.invRange.
  rewrite Ei, Eb, Ew. change (default true (Some true)) with true.
  split; intros Hu; rewrite docs_toneCurve_identity by done.
  - rewrite (docs_luminance_white _ _ _ Hu Hk), clip_full_window_1. lra.
  - rewrite (docs_luminance_black _ _ _ Hu Hk), clip_full_window_0. lra.
Qed.

Lemma part000_pixelThickness_extremes p n data k :
  mapInvert p = Some true → blackCut p = 0 → whiteCut p = 1 →
  toneGamma p = 1 → (0 ≤ k < n)%Z →
  (uniform_colour 255 n data →
     Part000.pixelThickness p data (k * 4) = baseMm p) ∧
  (uniform_colour 0 n data →
     Part000.pixelThickness p data (k * 4) = baseMm p + reliefMm p).
Proof.
  intros Ei Eb Ew Eg Hk.
  unfold Part000.pixelThickness, Part000.clipNormalize, Part000.invRange.
  rewrite Ei, Eb, Ew, part000_luminance_eq.
  change (default false (Some true)) with true.
  split; intros Hu; rewrite part000_toneCurve_identity by done.
  - rewrite (docs_luminance_white _ _ _ Hu Hk), clip_full_window_1. lra.
  - rewrite (docs_luminance_black _ _ _ Hu Hk), clip_full_window_0. lra.
Qed.

End Monochrome.

Lemma flipped_index_range fx fy W H x y :
  0 ≤ x < W → 0 ≤ y < H → 0 ≤ flip fy H y * W + flip fx W x < W * H.
Proof.
  intros Hx Hy.
  pose proof (flip_range fx W x Hx). pose proof (flip_range fy H y Hy). nia.
Qed.

Lemma flat_image_uniform (c a W H : Z) :
  uniform_colour c (W * H) (drawn (flat_image c a) W H).
Proof.
  intros k Hk.
  rewrite !flat_image_lookup by lia.
  replace (4 * k) with (k * 4) by lia.
  rewrite Z.mod_mul by lia.
  rewrite !(Z.add_comm (k * 4)), !Z.mod_add by lia. done.
Qed.

(** ** Claims on the stored thickness *)

Lemma typical_params_valid : valid_params typical_params.
Proof. unfold valid_params, typical_params; cbn. repeat split; first [lra | lia]. Qed.

Lemma thin_base_params_valid : valid_params thin_base_params.
Proof. unfold valid_params, thin_base_params; cbn. repeat split; first [lra | lia]. Qed.

Lemma below_binary32_range (x : R) : (x <= 4)%R → (x < powerRZ 2 127)%R.
Proof.
  intros Hx. pose proof (powerRZ_2_le 3 127 ltac:(lia)) as H3.
  rewrite (powerRZ_2_IZR 3) in H3 by lia. change (2 ^ 3) with 8 in H3. lra.
Qed.

(** What the array holds for a white and for a black image. *)
Lemma docsF32_monochrome_field img p s :
  mapInvert p = Some true →
  blackCut p = 0%R → whiteCut p = 1%R → toneGamma p = 1%R →
  DocsF32.computeThicknessMap img p = Ok s →
  (uniform_colour 255 (F32.W s * F32.H s) (drawn img (F32.W s) (F32.H s)) →
     Forall (λ c, c = F32.Math_fround (baseMm p)) (F32.thickness s)) ∧
  (uniform_colour 0 (F32.W s * F32.H s) (drawn img (F32.W s) (F32.H s)) →
     Forall (λ c, c = F32.Math_fround (baseMm p + reliefMm p))
       (F32.thickness s)).
Proof.
  intros Ei Eb Ew Eg Hs.
  destruct (docsF32_computeThicknessMap_Ok img p s Hs)
    as (_ & _ & HW & _ & Hlen & Hget).
  split; intros Hu.
  all: eapply (field_Forall _ _ (F32.W s) (F32.H s));
    [done | done | exact Hget |].
  all: intros x y Hx Hy; cbv beta.
  all: pose proof (flipped_index_range (flipX p) (flipY p) _ _ _ _ Hx Hy)
         as Hk.
  all: f_equal.
  all: by apply (docs_pixelThickness_extremes p _ _ _ Ei Eb Ew Eg Hk).
Qed.

Lemma part000F32_monochrome_field img p s :
  mapInvert p = Some true →
  blackCut p = 0%R → whiteCut p = 1%R → toneGamma p = 1%R →
  0 ≤ widthPx p →
  Part000F32.computeThicknessMap img p = Ok s →
  (uniform_colour 255 (F32.W s * F32.H s) (drawn img (F32.W s) (F32.H s)) →
     Forall (λ c, c = F32.Math_fround (baseMm p)) (F32.thickness s)) ∧
  (uniform_colour 0 (F32.W s * F32.H s) (drawn img (F32.W s) (F32.H s)) →
     Forall (λ c, c = F32.Math_fround (baseMm p + reliefMm p))
       (F32.thickness s)).
Proof.
  intros Ei Eb Ew Eg Hpos Hs.
  destruct (part000F32_computeThicknessMap_Ok img p s Hpos Hs)
    as (_ & _ & HW & _ & Hlen & Hget).
  split; intros Hu.
  all: eapply (field_Forall _ _ (F32.W s) (F32.H s));
    [done | done | exact Hget |].
  all: intros x y Hx Hy; cbv beta.
  all: pose proof (flipped_index_range (flipX p) (flipY p) _ _ _ _ Hx Hy)
         as Hk.
  all: f_equal.
  all: by apply (part000_pixelThickness_extremes p _ _ _ Ei Eb Ew Eg Hk).
Qed.

(** C1, as stated, fails for a white image at [baseMm = 0.7],
    [reliefMm = 1.5]: the parameters are valid, and every value written into
    the field is 11744051 / 2^24 = 0.699999988..., below [baseMm]. *)
Lemma stored_thickness_below_baseMm :
  valid_params thin_base_params ∧
  ∃ s v,
    DocsF32.computeThicknessMap (flat_image 255 255) thin_base_params = Ok s ∧
    Forall (λ c, c = F32.Finite v) (F32.thickness s) ∧
    F32.thickness s !! 0%nat = Some (F32.Finite v) ∧
    (v < baseMm thin_base_params)%R.
Proof.
  split; [apply thin_base_params_valid |].
  destruct (docsF32_computeThicknessMap_returns (flat_image 255 255)
              thin_base_params) as [s Hs]; [cbn; lia |].
  destruct (docsF32_monochrome_field (flat_image 255 255) thin_base_params s
              eq_refl eq_refl eq_refl eq_refl Hs) as [Hwhite _].
  specialize (Hwhite (flat_image_uniform _ _ _ _)).
  change (baseMm thin_base_params) with 0.7%R in *.
  rewrite Math_fround_0_7 in Hwhite.
  destruct (docsF32_computeThicknessMap_Ok _ _ _ Hs)
    as (_ & _ & HW & HH & Hlen & _).
  destruct (lookup_lt_is_Some_2 (F32.thickness s) 0%nat ltac:(nia)) as [c Hc].
  pose proof (proj1 (Forall_lookup _ _) Hwhite _ _ Hc) as ->.
  exists s, (11744051 / 16777216)%R.
  split; [exact Hs |]. split; [exact Hwhite |]. split; [exact Hc | lra].
Qed.

(** C1, amended.  For valid parameters with [toneGamma >= 2^-1000] (so that
    [1 / toneGamma] is finite) and [baseMm + reliefMm < 2^127], in both
    variants: every value written into the field is finite, and is the
    binary32 number nearest to a thickness [t] of [[baseMm,
    baseMm + reliefMm]] (the arithmetic before the store read as exact); it
    lies within one binary32 unit in the last place of that interval,
    between [baseMm - (baseMm * 2^-23 + 2^-149)] and
    [baseMm + reliefMm + ((baseMm + reliefMm) * 2^-23 + 2^-149)]. *)
Theorem stored_thickness_near_base_and_relief (img : Image) (p : Params) :
  valid_params p → (powerRZ 2 (-1000) <= toneGamma p)%R →
  (baseMm p + reliefMm p < powerRZ 2 127)%R →
  (∀ s, DocsF32.computeThicknessMap img p = Ok s →
     Forall (stored_near (baseMm p) (baseMm p + reliefMm p))
       (F32.thickness s)) ∧
  (∀ s, Part000F32.computeThicknessMap img p = Ok s →
     Forall (stored_near (baseMm p) (baseMm p + reliefMm p))
       (F32.thickness s)).
Proof.
  intros (_ & Hpx & Hbase & Hrel & _ & Hgam) _ Hmax. split.
  - intros s Hs.
    destruct (docsF32_computeThicknessMap_Ok img p s Hs)
      as (_ & _ & HW & _ & Hlen & Hget).
    eapply (field_Forall _ _ (F32.W s) (F32.H s));
      [done | done | exact Hget |].
    intros x y _ _. cbv beta.
    apply Math_fround_near; [done | | done].
    by apply docs_pixelThickness_range.
  - intros s Hs.
    destruct (part000F32_computeThicknessMap_Ok img p s ltac:(lia) Hs)
      as (_ & _ & HW & _ & Hlen & Hget).
    eapply (field_Forall _ _ (F32.W s) (F32.H s));
      [done | done | exact Hget |].
    intros x y _ _. cbv beta.
    apply Math_fround_near; [done | | done].
    by apply part000_pixelThickness_range.
Qed.

(** Instance of C1, amended: a white image under the typical parameters. *)
Lemma stored_thickness_near_base_and_relief_witness :
  ∃ s,
    DocsF32.computeThicknessMap (flat_image 255 255) typical_params = Ok s ∧
    Forall (stored_near 0.8 (0.8 + 1.5)) (F32.thickness s).
Proof.
  destruct (docsF32_computeThicknessMap_returns (flat_image 255 255)
              typical_params) as [s Hs]; [cbn; lia |].
  exists s. split; [exact Hs |].
  destruct (stored_thickness_near_base_and_relief (flat_image 255 255)
              typical_params) as [Hdocs _].
  - apply typical_params_valid.
  - change (toneGamma typical_params) with (powerRZ 2 0).
    apply powerRZ_2_le. lia.
  - apply below_binary32_range. cbn. lra.
  - exact (Hdocs s Hs).
Defined.

(** C7, as stated, fails under the typical parameters ([baseMm = 0.8],
    [reliefMm = 1.5], the settings of the claim): every value of the field
    of a white image is 13421773 / 2^24 = 0.800000011..., not [baseMm], and
    every value of the field of a black image is
    9646899 / 2^22 = 2.299999952..., not [baseMm + reliefMm]. *)
Lemma monochrome_field_is_not_baseMm :
  ∃ sw sb vw vb,
    DocsF32.computeThicknessMap (flat_image 255 255) typical_params = Ok sw ∧
    DocsF32.computeThicknessMap (flat_image 0 255) typical_params = Ok sb ∧
    Forall (λ c, c = F32.Finite vw) (F32.thickness sw) ∧
    Forall (λ c, c = F32.Finite vb) (F32.thickness sb) ∧
    F32.thickness sw ≠ [] ∧ F32.thickness sb ≠ [] ∧
    (baseMm typical_params < vw)%R ∧
    (vb < baseMm typical_params + reliefMm typical_params)%R.
Proof.
  destruct (docsF32_computeThicknessMap_returns (flat_image 255 255)
              typical_params) as [sw Hw]; [cbn; lia |].
  destruct (docsF32_computeThicknessMap_returns (flat_image 0 255)
              typical_params) as [sb Hb]; [cbn; lia |].
  destruct (docsF32_monochrome_field (flat_image 255 255) typical_params sw
              eq_refl eq_refl eq_refl eq_refl Hw) as [Hwhite _].
  destruct (docsF32_monochrome_field (flat_image 0 255) typical_params sb
              eq_refl eq_refl eq_refl eq_refl Hb) as [_ Hblack].
  specialize (Hwhite (flat_image_uniform _ _ _ _)).
  specialize (Hblack (flat_image_uniform _ _ _ _)).
  change (baseMm typical_params) with 0.8%R in *.
  change (reliefMm typical_params) with 1.5%R in *.
  replace (0.8 + 1.5)%R with 2.3%R in Hblack by lra.
  rewrite Math_fround_0_8 in Hwhite. rewrite Math_fround_2_3 in Hblack.
  destruct (docsF32_computeThicknessMap_Ok _ _ _ Hw)
    as (_ & _ & HWw & HHw & Hlenw & _).
  destruct (docsF32_computeThicknessMap_Ok _ _ _ Hb)
    as (_ & _ & HWb & HHb & Hlenb & _).
  exists sw, sb, (13421773 / 16777216)%R, (9646899 / 4194304)%R.
  split; [exact Hw |]. split; [exact Hb |].
  split; [exact Hwhite |]. split; [exact Hblack |].
  split; [intros E; rewrite E in Hlenw; cbn in Hlenw; nia |].
  split; [intros E; rewrite E in Hlenb; cbn in Hlenb; nia |].
  split; lra.
Qed.

(** C7, amended.  With [invert = true], [blackCut = 0], [whiteCut = 1] and
    [toneGamma = 1], in both variants (for src/unnamed/part_000 with the
    pixel width non-negative, as [getParams] makes it): the field built from
    resampled pixels that are all white is uniform, every value being
    [baseMm] rounded to binary32, and the field built from pixels that are
    all black is uniform, every value being [baseMm + reliefMm] (an exact
    sum) rounded to binary32; these are [baseMm] and [baseMm + reliefMm]
    themselves when binary32 holds those numbers. *)
Theorem monochrome_field_is_uniform_binary32 (img : Image) (p : Params) :
  mapInvert p = Some true →
  blackCut p = 0%R → whiteCut p = 1%R → toneGamma p = 1%R →
  (∀ s, DocsF32.computeThicknessMap img p = Ok s →
     (uniform_colour 255 (F32.W s * F32.H s) (drawn img (F32.W s) (F32.H s)) →
        Forall (λ c, c = F32.Math_fround (baseMm p)) (F32.thickness s)) ∧
     (uniform_colour 0 (F32.W s * F32.H s) (drawn img (F32.W s) (F32.H s)) →
        Forall (λ c, c = F32.Math_fround (baseMm p + reliefMm p))
          (F32.thickness s))) ∧
  (0 ≤ widthPx p →
   ∀ s, Part000F32.computeThicknessMap img p = Ok s →
     (uniform_colour 255 (F32.W s * F32.H s) (drawn img (F32.W s) (F32.H s)) →
        Forall (λ c, c = F32.Math_fround (baseMm p)) (F32.thickness s)) ∧
     (uniform_colour 0 (F32.W s * F32.H s) (drawn img (F32.W s) (F32.H s)) →
        Forall (λ c, c = F32.Math_fround (baseMm p + reliefMm p))
          (F32.thickness s))) ∧
  (binary32_number (baseMm p) →
     F32.Math_fround (baseMm p) = F32.Finite (baseMm p)) ∧
  (binary32_number (baseMm p + reliefMm p) →
     F32.Math_fround (baseMm p + reliefMm p)
     = F32.Finite (baseMm p + reliefMm p)).
Proof.
  intros Ei Eb Ew Eg. split; [| split; [| split]].
  - intros s Hs. by apply docsF32_monochrome_field.
  - intros Hpos s Hs. by apply part000F32_monochrome_field.
  - apply Math_fround_exact.
  - apply Math_fround_exact.
Qed.

(** Instance of C7, amended: the white and the black image under the typical
    parameters, in src/docs/app.js. *)
Lemma monochrome_field_is_uniform_binary32_witness :
  ∃ sw sb,
    DocsF32.computeThicknessMap (flat_image 255 255) typical_params = Ok sw ∧
    DocsF32.computeThicknessMap (flat_image 0 255) typical_params = Ok sb ∧
    Forall (λ c, c = F32.Math_fround 0.8) (F32.thickness sw) ∧
    Forall (λ c, c = F32.Math_fround (0.8 + 1.5)) (F32.thickness sb).
Proof.
  destruct (docsF32_computeThicknessMap_returns (flat_image 255 255)
              typical_params) as [sw Hw]; [cbn; lia |].
  destruct (docsF32_computeThicknessMap_returns (flat_image 0 255)
              typical_params) as [sb Hb]; [cbn; lia |].
  exists sw, sb. split; [exact Hw |]. split; [exact Hb |].
  split.
  - destruct (monochrome_field_is_uniform_binary32 (flat_image 255 255)
                typical_params eq_refl eq_refl eq_refl eq_refl)
      as [Hdocs _].
    apply (Hdocs sw Hw). apply flat_image_uniform.
  - destruct (monochrome_field_is_uniform_binary32 (flat_image 0 255)
                typical_params eq_refl eq_refl eq_refl eq_refl)
      as [Hdocs _].
    apply (Hdocs sb Hb). apply flat_image_uniform.
Defined.

(** ** Dimensions of the field *)

(** In src/docs/app.js the field has [widthPx] columns (at least 10 as
    [getParams] clamps it), [max(1, round(H0 * W / W0))] rows and [W * H]
    elements. *)
Lemma docs_field_dimensions (img : Image) (p : Params) :
  1 ≤ widthPx p →
  ∃ r, Docs.computeThicknessMap img p = Ok r ∧
       W r = widthPx p ∧
       H r = Z.max 1 (Math_round
                        (IZR (height img) * (IZR (W r) / IZR (width img)))) ∧
       Z.of_nat (length (thickness r)) = W r * H r.
Proof.
  intros Hw. destruct (docs_computeThicknessMap_returns img p Hw) as [r Hr].
  exists r. split; [done |].
  destruct (docs_computeThicknessMap_Ok img p r Hr)
    as (EW & EH & _ & _ & _ & Hlen & _).
  repeat split; try done. by rewrite EH, EW.
Qed.

Lemma docs_getParams_widthPx_clamped input :
  10 ≤ Docs.getParams_widthPx input.
Proof. unfold Docs.getParams_widthPx. lia. Qed.

Lemma part000_getParams_widthPx_clamped input :
  10 ≤ Part000.getParams_widthPx input.
Proof. unfold Part000.getParams_widthPx. lia. Qed.

Lemma banner_ratio_rounds_to_0 :
  Math_round (IZR 1 * (IZR 10 / IZR 1000)) = 0.
Proof. apply Math_round_spec. lra. Qed.

(** C8, at a 1000 x 1 image and pixel width 10.  src/unnamed/part_000
    computes the height [round(1 * (10 / 1000)) = 0], not clamped to 1, and
    [computeThicknessMap] throws at [getImageData] without building a field;
    src/docs/app.js builds the 10 x 1 field for the same input. *)
Theorem part000_height_not_clamped :
  Part000.fieldHeight banner_image 10 = 0 ∧
  Part000.computeThicknessMap banner_image typical_params
  = Throw IndexSizeError ∧
  ∃ r, Docs.computeThicknessMap banner_image typical_params = Ok r ∧
       W r = 10 ∧ H r = 1 ∧ length (thickness r) = 10%nat.
Proof.
  assert (E : Part000.fieldHeight banner_image 10 = 0)
    by apply banner_ratio_rounds_to_0.
  split; [exact E |]. split.
  - unfold Part000.computeThicknessMap.
    change (widthPx typical_params) with 10. by rewrite E.
  - destruct (docs_field_dimensions banner_image typical_params)
      as (r & Hr & EW & EH & Hlen); [cbn; lia |].
    change (widthPx typical_params) with 10 in EW.
    rewrite EW in EH. cbn [height width banner_image] in EH.
    rewrite banner_ratio_rounds_to_0 in EH.
    exists r. repeat split; try done. rewrite EW, EH in Hlen. lia.
Qed.

(** ** Stores into a buffer *)

Section Splice.

Context {A : Type}.
Implicit Types (l k : list A).

Lemma length_splice l i k :
  (i + length k ≤ length l)%nat → length (splice l i k) = length l.
Proof.
  intros Hi. unfold splice.
  rewrite !length_app, length_take, length_drop. lia.
Qed.

Lemma list_inserts_splice l i k :
  (i + length k ≤ length l)%nat → list_inserts i k l = splice l i k.
Proof.
  intros Hi. unfold splice.
  rewrite <- (take_drop i l) at 1.
  rewrite <- (take_drop (length k) (drop i l)) at 1.
  replace i with (length (take i l) + 0)%nat at 1
    by (rewrite length_take; lia).
  rewrite list_inserts_app_r, list_inserts_0_r, drop_drop.
  - done.
  - rewrite length_take, length_drop. lia.
Qed.

Lemma list_inserts_merge l i j k1 k2 :
  j = (length k1 + i)%nat →
  list_inserts j k2 (list_inserts i k1 l) = list_inserts i (k1 ++ k2) l.
Proof. intros ->. symmetry. apply list_inserts_app_l. Qed.

Lemma splice_app l1 l2 l3 k i :
  i = length l1 → length l2 = length k →
  splice (l1 ++ l2 ++ l3) i k = l1 ++ k ++ l3.
Proof.
  intros -> E. unfold splice.
  rewrite take_app_length. do 2 f_equal.
  rewrite <- E, <- length_app, app_assoc. apply drop_app_length.
Qed.

End Splice.

Lemma store_Ok view o bytes :
  0 ≤ o → o + Z.of_nat (length bytes) ≤ Z.of_nat (length view) →
  store view o bytes = Ok (list_inserts (Z.to_nat o) bytes view).
Proof.
  intros H0 Hfit. unfold store.
  destruct (Z.leb_spec 0 o); [| lia].
  destruct (Z.leb_spec (o + Z.of_nat (length bytes))
              (Z.of_nat (length view))); [done | lia].
Qed.

Lemma store_Throw view o bytes :
  Z.of_nat (length view) < o + Z.of_nat (length bytes) →
  store view o bytes = Throw RangeError.
Proof.
  intros Hfit. unfold store.
  destruct (Z.leb_spec (o + Z.of_nat (length bytes))
              (Z.of_nat (length view))); [lia |].
  by rewrite andb_false_r.
Qed.

Lemma length_uint_le n x : length (uint_le n x) = Z.to_nat n.
Proof. unfold uint_le. by rewrite length_fmap, length_seqZ. Qed.

Lemma getUint32_uint_le (pre post : list byte_val) (x : Z) :
  length pre = 80%nat →
  getUint32 (pre ++ uint_le 4 x ++ post) 80 = Some (x mod 2 ^ 32).
Proof.
  intros Hpre. unfold getUint32.
  change (Z.to_nat 80) with 80%nat.
  rewrite <- Hpre, drop_app_length.
  change (uint_le 4 x) with
    [Byte ((x mod 2 ^ 32) / 2 ^ 0 mod 256);
     Byte ((x mod 2 ^ 32) / 2 ^ 8 mod 256);
     Byte ((x mod 2 ^ 32) / 2 ^ 16 mod 256);
     Byte ((x mod 2 ^ 32) / 2 ^ 24 mod 256)].
  cbn [take app]. f_equal.
  pose proof (Z.mod_pos_bound x (2 ^ 32) ltac:(lia)) as Hx.
  generalize dependent (x mod 2 ^ 32). intros u Hu.
  change (2 ^ 0) with 1. change (2 ^ 8) with 256.
  change (2 ^ 16) with 65536. change (2 ^ 24) with 16777216.
  change (2 ^ 32) with 4294967296 in Hu.
  rewrite Z.div_1_r.
  assert (E3 : u / 16777216 mod 256 = u / 16777216).
  { apply Z.mod_small. split; [apply Z.div_pos; lia |].
    apply Z.div_lt_upper_bound; lia. }
  rewrite E3.
  pose proof (Z.div_mod u 256 ltac:(lia)).
  pose proof (Z.div_mod (u / 256) 256 ltac:(lia)).
  pose proof (Z.div_mod (u / 256 / 256) 256 ltac:(lia)).
  rewrite !Z.div_div in * by lia.
  change (256 * 256) with 65536 in *.
  change (65536 * 256) with 16777216 in *.
  lia.
Qed.

(** ** Loops in the state monad *)

Section Monad.

Context {S : Type}.

Lemma bind_unfold {A B} (m : M S A) (k : A → M S B) s :
  (m ≫= k) s = match m s with Ok (a, s') => k a s' | Throw e => Throw e end.
Proof. reflexivity. Qed.

Lemma bind_Throw {A B} (m : M S A) (k : A → M S B) s e :
  m s = Throw e → (m ≫= k) s = Throw e.
Proof. intros E. unfold mbind, M_bind. by rewrite E. Qed.

Lemma mapM__app {A} (body : A → M S unit) (l1 l2 : list A) s :
  mapM_ body (l1 ++ l2) s = (mapM_ body l1;; mapM_ body l2) s.
Proof.
  revert s. induction l1 as [| x l1 IH]; intros s; [done |].
  cbn [mapM_ app]. rewrite !bind_unfold.
  destruct (body x s) as [[[] s'] | e]; [| done].
  rewrite IH. by rewrite bind_unfold.
Qed.

(** A [for] loop whose body emits the elements of [g i] emits the elements
    of all of them, in order. *)
Lemma forM_mapM_ {A} (body : Z → M S unit) (emit : A → M S unit)
    (g : Z → list A) (xs : list Z) s :
  (∀ x s, body x s = mapM_ emit (g x) s) →
  forM xs body s = mapM_ emit (xs ≫= g) s.
Proof.
  intros Hbody. revert s. induction xs as [| x xs IH]; intros s; [done |].
  rewrite bind_cons, mapM__app. cbn [forM].
  rewrite !bind_unfold, Hbody.
  destruct (mapM_ emit (g x) s) as [[[] s'] | e]; [| done]. apply IH.
Qed.

End Monad.

(** ** The serializer of src/docs/app.js *)

Lemma docs_view_set_store s o bytes :
  0 ≤ o → o + Z.of_nat (length bytes) ≤ Z.of_nat (length (Docs.buf s)) →
  Docs.view_set (λ view, store view o bytes) s
  = Ok (tt, {| Docs.buf := list_inserts (Z.to_nat o) bytes (Docs.buf s);
               Docs.off := Docs.off s |}).
Proof. intros H0 Hfit. unfold Docs.view_set. by rewrite store_Ok. Qed.

Lemma docs_writeTri_spec (t : triangle) (s : Docs.state) :
  0 ≤ Docs.off s →
  Docs.off s + 50 ≤ Z.of_nat (length (Docs.buf s)) →
  docs_writeTri t s
  = Ok (tt, {| Docs.buf := splice (Docs.buf s) (Z.to_nat (Docs.off s))
                             (docs_record t);
               Docs.off := Docs.off s + 50 |}).
Proof.
  intros H0 Hfit. destruct t as [[[[ax ay] az] [[bx by_] bz]] [[cx cy] cz]].
  destruct s as [buf off]. cbn [Docs.buf Docs.off] in *.
  unfold docs_writeTri, Docs.writeTri, setFloat32, setUint16.
  rewrite bind_unfold. cbn [Docs.get_off Docs.buf Docs.off].
  repeat (rewrite bind_unfold, docs_view_set_store;
          cbn [Docs.buf Docs.off];
          rewrite ?length_inserts, ?length_uint_le; [| lia | cbn; lia]).
  unfold Docs.set_off. cbn [Docs.buf Docs.off]. do 3 f_equal.
  repeat rewrite list_inserts_merge by (cbn; lia).
  rewrite list_inserts_splice
    by (rewrite !length_app, length_uint_le; cbn; lia).
  rewrite Z.add_0_r, <- ?app_assoc. reflexivity.
Qed.

Lemma splice_nil {A} (l : list A) i : splice l i [] = l.
Proof. unfold splice. cbn. rewrite Nat.add_0_r. apply take_drop. Qed.

Lemma splice_splice {A} (l : list A) i k1 k2 :
  (i + length k1 + length k2 ≤ length l)%nat →
  splice (splice l i k1) (i + length k1) k2 = splice l i (k1 ++ k2).
Proof.
  intros Hfit.
  rewrite <- (list_inserts_splice l i k1) by lia.
  rewrite <- list_inserts_splice by (rewrite length_inserts; lia).
  rewrite <- list_inserts_splice by (rewrite length_app; lia).
  apply list_inserts_merge. lia.
Qed.

Lemma length_bind_const {A B} (f : A → list B) (n : nat) (l : list A) :
  (∀ x, length (f x) = n) → length (l ≫= f) = (length l * n)%nat.
Proof.
  intros Hf. induction l as [| x l IH]; [done |].
  rewrite bind_cons, length_app, Hf, IH. cbn. lia.
Qed.

Lemma length_row_pairs {B} (f : Z → list B) (n : Z) :
  (∀ x, length (f x) = 2%nat) →
  length (seqZ 0 n ≫= f) = (Z.to_nat n * 2)%nat.
Proof.
  intros Hf. by rewrite (length_bind_const _ 2), length_seqZ.
Qed.

Lemma length_grid_pairs {B} (f : Z → Z → list B) (n m : Z) :
  (∀ y x, length (f y x) = 2%nat) →
  length (seqZ 0 m ≫= λ y, seqZ 0 n ≫= f y)
  = (Z.to_nat m * (Z.to_nat n * 2))%nat.
Proof.
  intros Hf. rewrite (length_bind_const _ (Z.to_nat n * 2)), length_seqZ.
  - done.
  - intros y. by apply length_row_pairs.
Qed.

Lemma length_docs_record t : length (docs_record t) = 50%nat.
Proof. by destruct t as [[[[??]?] [[??]?]] [[??]?]]. Qed.

Lemma docs_emit_spec (ts : list triangle) (s : Docs.state) :
  0 ≤ Docs.off s →
  Docs.off s + 50 * Z.of_nat (length ts) ≤ Z.of_nat (length (Docs.buf s)) →
  mapM_ docs_writeTri ts s
  = Ok (tt, {| Docs.buf := splice (Docs.buf s) (Z.to_nat (Docs.off s))
                             (ts ≫= docs_record);
               Docs.off := Docs.off s + 50 * Z.of_nat (length ts) |}).
Proof.
  revert s. induction ts as [| t ts IH]; intros [buf off] H0 Hfit;
    cbn [Docs.buf Docs.off length] in *.
  - change ([] ≫= docs_record) with (@nil byte_val).
    rewrite splice_nil. replace (off + 50 * Z.of_nat 0) with off by lia.
    reflexivity.
  - cbn [mapM_]. rewrite bind_unfold, docs_writeTri_spec by (cbn; lia).
    cbn [Docs.buf Docs.off].
    rewrite IH; cbn [Docs.buf Docs.off].
    + rewrite bind_cons. do 3 f_equal; [| lia].
      replace (Z.to_nat (off + 50))
        with (Z.to_nat off + length (docs_record t))%nat
        by (rewrite length_docs_record; lia).
      apply splice_splice.
      rewrite (length_bind_const _ 50) by apply length_docs_record.
      rewrite length_docs_record. lia.
    + lia.
    + rewrite length_splice by (rewrite length_docs_record; lia). lia.
Qed.

Lemma bind_ret_r {S} (m : M S unit) s : (m;; mret tt) s = m s.
Proof. rewrite bind_unfold. by destruct (m s) as [[[] s'] | e]. Qed.

Lemma seq_mapM_ {S A} (emit : A → M S unit) (m1 m2 : M S unit) l1 l2 :
  (∀ s, m1 s = mapM_ emit l1 s) → (∀ s, m2 s = mapM_ emit l2 s) →
  ∀ s, (m1;; m2) s = mapM_ emit (l1 ++ l2) s.
Proof.
  intros E1 E2 s. rewrite mapM__app, !bind_unfold, E1.
  destruct (mapM_ emit l1 s) as [[[] s'] | e]; [apply E2 | done].
Qed.

Lemma docs_writeTri_pair a b c a' b' c' s :
  (Docs.writeTri a b c;; Docs.writeTri a' b' c') s
  = mapM_ docs_writeTri [(a, b, c); (a', b', c')] s.
Proof.
  cbn [mapM_]. rewrite !bind_unfold. cbn [docs_writeTri].
  destruct (Docs.writeTri a b c s) as [[[] s'] | e]; [| done].
  by rewrite bind_ret_r.
Qed.

(** The six loops of [buildBinarySTL] pass [docs_triangles] to
    [writeTri]. *)
Lemma docs_loops_emit thickness pxMm W H s :
  (Docs.topSurface thickness pxMm W H;;
   Docs.bottomSurface pxMm W H;;
   Docs.wallTop thickness pxMm W;;
   Docs.wallBottom thickness pxMm W H;;
   Docs.wallLeft thickness pxMm W H;;
   Docs.wallRight thickness pxMm W H) s
  = mapM_ docs_writeTri (docs_triangles thickness pxMm W H) s.
Proof.
  revert s. unfold docs_triangles.
  repeat apply seq_mapM_; intros s.
  - unfold Docs.topSurface, for_.
    apply forM_mapM_. intros y s'. apply forM_mapM_. intros x s''.
    apply docs_writeTri_pair.
  - unfold Docs.bottomSurface, for_.
    apply forM_mapM_. intros y s'. apply forM_mapM_. intros x s''.
    apply docs_writeTri_pair.
  - unfold Docs.wallTop, for_.
    apply forM_mapM_. intros x s'. apply docs_writeTri_pair.
  - unfold Docs.wallBottom, for_.
    apply forM_mapM_. intros x s'. apply docs_writeTri_pair.
  - unfold Docs.wallLeft, for_.
    apply forM_mapM_. intros x s'. apply docs_writeTri_pair.
  - unfold Docs.wallRight, for_.
    apply forM_mapM_. intros x s'. apply docs_writeTri_pair.
Qed.

Lemma docs_triCount_eq W H :
  Docs.triCount W H = 4 * (W - 1) * (H - 1) + 4 * (W - 1) + 4 * (H - 1).
Proof. unfold Docs.triCount, Docs.bottomTris, Docs.topTris, Docs.sideTris. lia. Qed.

Lemma length_docs_triangles thickness pxMm W H :
  1 ≤ W → 1 ≤ H →
  Z.of_nat (length (docs_triangles thickness pxMm W H)) = Docs.triCount W H.
Proof.
  intros HW HH. rewrite docs_triCount_eq. unfold docs_triangles.
  rewrite !length_app.
  rewrite !length_grid_pairs by done.
  rewrite !length_row_pairs by done.
  nia.
Qed.

(** The stream [buildBinarySTL] of src/docs/app.js returns for a grid of
    at least one row and one column: 80 zero bytes, the triangle count, and
    the record of each triangle; whatever the length of [thickness]. *)
Lemma docs_buildBinarySTL_stream thickness pxMm W H :
  1 ≤ W → 1 ≤ H →
  Docs.buildBinarySTL thickness pxMm W H
  = Ok (replicate 80 (Byte 0)
        ++ uint_le 4 (Docs.triCount W H)
        ++ (docs_triangles thickness pxMm W H ≫= docs_record)).
Proof.
  intros HW HH.
  pose proof (length_docs_triangles thickness pxMm W H HW HH) as Hlen.
  assert (Hn : 0 ≤ Docs.triCount W H) by lia.
  set (n := Docs.triCount W H) in *.
  set (ts := docs_triangles thickness pxMm W H) in *.
  unfold Docs.buildBinarySTL, new_ArrayBuffer. fold n.
  destruct (Z.ltb_spec (84 + n * 50) 0) as [| _]; [lia |].
  replace (Z.to_nat (84 + n * 50)) with (80 + (4 + 50 * length ts))%nat by lia.
  unfold Docs.fill. fold n.
  rewrite bind_unfold, docs_view_set_store;
    cbn [Docs.buf Docs.off]; rewrite ?length_replicate; [| lia | lia].
  rewrite bind_unfold. unfold setUint32.
  rewrite docs_view_set_store; cbn [Docs.buf Docs.off];
    rewrite ?length_inserts, ?length_replicate, ?length_uint_le; [| lia | lia].
  rewrite bind_unfold. cbn [Docs.set_off Docs.buf Docs.off].
  rewrite docs_loops_emit. fold ts.
  rewrite docs_emit_spec; cbn [Docs.buf Docs.off];
    rewrite ?length_inserts, ?length_replicate; [| lia | lia].
  f_equal.
  rewrite !replicate_add.
  change (Z.to_nat 0) with 0%nat. change (Z.to_nat 80) with 80%nat.
  change (Z.to_nat 84) with 84%nat.
  rewrite list_inserts_0_r by (by rewrite !length_replicate).
  rewrite list_inserts_splice
    by (rewrite ?length_app, ?length_replicate, ?length_uint_le; lia).
  rewrite (splice_app (replicate 80 (Byte 0)))
    by (by rewrite ?length_replicate, ?length_uint_le).
  rewrite app_assoc.
  rewrite <- (app_nil_r (replicate (50 * length ts) (Byte 0))).
  rewrite (splice_app (replicate 80 (Byte 0) ++ uint_le 4 n)).
  - by rewrite app_nil_r, <- app_assoc.
  - by rewrite length_app, length_replicate, length_uint_le.
  - rewrite length_replicate, (length_bind_const _ 50)
      by apply length_docs_record. lia.
Qed.

(** ** The serializer of src/unnamed/part_000 *)

Lemma part000_view_set_store s o bytes :
  0 ≤ o → o + Z.of_nat (length bytes) ≤ Z.of_nat (length (Part000.buf s)) →
  Part000.view_set (λ view, store view o bytes) s
  = Ok (tt, {| Part000.buf := list_inserts (Z.to_nat o) bytes (Part000.buf s);
               Part000.off := Part000.off s;
               Part000.count := Part000.count s |}).
Proof. intros H0 Hfit. unfold Part000.view_set. by rewrite store_Ok. Qed.

Lemma length_part000_record t : length (part000_record t) = 50%nat.
Proof. by destruct t as [[[[??]?] [[??]?]] [[??]?]]. Qed.

Lemma part000_writeTri_spec (t : triangle) (pre : list byte_val)
    (m : nat) (o c : Z) :
  Z.of_nat (length pre) = o → (50 ≤ m)%nat →
  part000_writeTri t {| Part000.buf := pre ++ replicate m (Byte 0);
                        Part000.off := o; Part000.count := c |}
  = Ok (tt, {| Part000.buf :=
                 pre ++ part000_record t ++ replicate (m - 50) (Byte 0);
               Part000.off := o + 50; Part000.count := c + 1 |}).
Proof.
  intros Hpre Hm.
  destruct t as [[[[ax ay] az] [[bx by_] bz]] [[cx cy] cz]].
  unfold part000_writeTri, Part000.writeTri, setFloat32.
  rewrite bind_unfold. cbn [Part000.get_off Part000.off].
  rewrite bind_unfold.
  cbn [Part000.set_off Part000.buf Part000.off Part000.count].
  rewrite bind_unfold. cbn [Part000.get_off Part000.off].
  repeat (rewrite bind_unfold, part000_view_set_store;
          cbn [Part000.buf Part000.off Part000.count];
          rewrite ?length_inserts, ?length_app, ?length_replicate;
          [| lia | cbn; lia]).
  rewrite bind_unfold.
  cbn [Part000.set_off Part000.buf Part000.off Part000.count].
  rewrite bind_unfold.
  cbn [Part000.get_count Part000.buf Part000.off Part000.count].
  unfold Part000.set_count. cbn [Part000.buf Part000.off Part000.count].
  do 2 f_equal. f_equal; [| lia].
  repeat rewrite list_inserts_merge by (cbn; lia).
  rewrite list_inserts_splice
    by (rewrite !length_app, length_replicate; cbn; lia).
  replace m with (12 + (36 + (2 + (m - 50))))%nat at 1 by lia.
  rewrite !replicate_add, (app_assoc pre).
  rewrite (splice_app (pre ++ replicate 12 (Byte 0)));
    [| rewrite length_app, length_replicate; lia
     | by rewrite length_replicate].
  cbn [part000_record vertex_bytes].
  rewrite <- !app_assoc. reflexivity.
Qed.

Lemma part000_emit_spec (ts : list triangle) (pre : list byte_val)
    (m : nat) (o c : Z) :
  Z.of_nat (length pre) = o → (50 * length ts ≤ m)%nat →
  mapM_ part000_writeTri ts
    {| Part000.buf := pre ++ replicate m (Byte 0);
       Part000.off := o; Part000.count := c |}
  = Ok (tt, {| Part000.buf :=
                 pre ++ (ts ≫= part000_record)
                 ++ replicate (m - 50 * length ts) (Byte 0);
               Part000.off := o + 50 * Z.of_nat (length ts);
               Part000.count := c + Z.of_nat (length ts) |}).
Proof.
  revert pre m o c. induction ts as [| t ts IH]; intros pre m o c Hpre Hm.
  - cbn [mapM_ length]. change ([] ≫= part000_record) with (@nil byte_val).
    cbn [app]. rewrite Nat.mul_0_r, Nat.sub_0_r, Z.mul_0_r, !Z.add_0_r.
    reflexivity.
  - cbn [mapM_ length] in *.
    rewrite bind_unfold, part000_writeTri_spec by lia.
    rewrite app_assoc, IH.
    + rewrite bind_cons, <- !app_assoc.
      replace (m - 50 - 50 * length ts)%nat
        with (m - 50 * S (length ts))%nat by lia.
      replace (o + 50 + 50 * Z.of_nat (length ts))
        with (o + 50 * Z.of_nat (S (length ts))) by lia.
      replace (c + 1 + Z.of_nat (length ts))
        with (c + Z.of_nat (S (length ts))) by lia.
      reflexivity.
    + rewrite length_app, length_part000_record. lia.
    + lia.
Qed.

Lemma part000_writeTri_four t1 t2 t3 t4 s :
  (part000_writeTri t1;; part000_writeTri t2;;
   part000_writeTri t3;; part000_writeTri t4) s
  = mapM_ part000_writeTri [t1; t2; t3; t4] s.
Proof.
  cbn [mapM_]. rewrite !bind_unfold.
  destruct (part000_writeTri t1 s) as [[[] s1] | e]; [| done].
  rewrite !bind_unfold.
  destruct (part000_writeTri t2 s1) as [[[] s2] | e]; [| done].
  rewrite !bind_unfold.
  destruct (part000_writeTri t3 s2) as [[[] s3] | e]; [| done].
  by rewrite bind_ret_r.
Qed.

(** The three loops of [buildBinarySTL] pass [part000_triangles] to
    [writeTri]. *)
Ltac four_triangles :=
  lazymatch goal with
  | |- _ = mapM_ _ [?t1; ?t2; ?t3; ?t4] ?s =>
      exact (part000_writeTri_four t1 t2 t3 t4 s)
  end.

Lemma part000_loops_emit thickness pxMm W H s :
  (Part000.surfaces thickness pxMm W H;;
   Part000.sidesX thickness pxMm W H;;
   Part000.sidesY thickness pxMm W H) s
  = mapM_ part000_writeTri (part000_triangles thickness pxMm W H) s.
Proof.
  revert s. unfold part000_triangles.
  repeat apply seq_mapM_; intros s.
  - unfold Part000.surfaces, for_.
    apply forM_mapM_. intros y s'. apply forM_mapM_. intros x s''.
    four_triangles.
  - unfold Part000.sidesX, for_.
    apply forM_mapM_. intros x s'.
    four_triangles.
  - unfold Part000.sidesY, for_.
    apply forM_mapM_. intros x s'.
    four_triangles.
Qed.

Lemma length_part000_triangles thickness pxMm W H :
  1 ≤ W → 1 ≤ H →
  Z.of_nat (length (part000_triangles thickness pxMm W H))
  = 4 * (W - 1) * (H - 1) + 4 * (W - 1) + 4 * (H - 1).
Proof.
  intros HW HH. unfold part000_triangles.
  rewrite !length_app.
  rewrite (length_bind_const _ (Z.to_nat (W - 1) * 4) (seqZ 0 (H - 1))).
  2: intros y; by rewrite (length_bind_const _ 4), length_seqZ.
  rewrite !(length_bind_const _ 4) by done.
  rewrite !length_seqZ. nia.
Qed.

Lemma slice_prefix (buf : list byte_val) (e : Z) :
  0 ≤ e ≤ Z.of_nat (length buf) → slice buf 0 e = take (Z.to_nat e) buf.
Proof.
  intros He. unfold slice.
  destruct (Z.ltb_spec 0 0); [lia |]. destruct (Z.ltb_spec e 0); [lia |].
  rewrite Z.min_l, Z.min_l by lia. by rewrite Z.sub_0_r.
Qed.

(** The loops of [fill], grouped. *)
Lemma bind_assoc_loops {S} (m1 m2 m3 : M S unit) {B} (k : M S B) s :
  ((m1;; m2;; m3);; k) s = (m1;; m2;; m3;; k) s.
Proof.
  rewrite !bind_unfold.
  destruct (m1 s) as [[[] s1] | e]; [| done]. rewrite !bind_unfold.
  destruct (m2 s1) as [[[] s2] | e]; [| done]. rewrite !bind_unfold.
  by destruct (m3 s2) as [[[] s3] | e].
Qed.

Lemma uint_le_4_0 : uint_le 4 0 = replicate 4 (Byte 0).
Proof. reflexivity. Qed.

(** The stream [buildBinarySTL] of src/unnamed/part_000 returns when its
    buffer has room for every record, which is so for a single cell and for
    grids of at least two rows and two columns: 80 zero bytes, the count of
    [writeTri] calls, and the record of each triangle. *)
Lemma part000_buildBinarySTL_stream thickness pxMm W H :
  1 ≤ W → 1 ≤ H → (W - 1) + (H - 1) ≤ 2 * (W - 1) * (H - 1) →
  Part000.buildBinarySTL thickness pxMm W H
  = Ok (replicate 80 (Byte 0)
        ++ uint_le 4 (Z.of_nat (length (part000_triangles thickness pxMm W H)))
        ++ (part000_triangles thickness pxMm W H ≫= part000_record)).
Proof.
  intros HW HH Hroom.
  pose proof (length_part000_triangles thickness pxMm W H HW HH) as Hlen.
  set (ts := part000_triangles thickness pxMm W H) in *.
  unfold Part000.buildBinarySTL, new_ArrayBuffer.
  destruct (Z.ltb_spec (84 + 50 * (W - 1) * (H - 1) * 12) 0) as [| _];
    [nia |].
  set (m := Z.to_nat (50 * (W - 1) * (H - 1) * 12)).
  assert (Hm : (50 * length ts ≤ m)%nat) by (unfold m; nia).
  replace (Z.to_nat (84 + 50 * (W - 1) * (H - 1) * 12))
    with (80 + (4 + m))%nat by (unfold m; nia).
  rewrite !replicate_add.
  unfold Part000.fill, setUint32.
  rewrite bind_unfold, part000_view_set_store;
    cbn [Part000.buf Part000.off Part000.count];
    rewrite ?length_app, ?length_replicate, ?length_uint_le; [| lia | lia].
  change (Z.to_nat 80) with 80%nat.
  rewrite list_inserts_splice
    by (rewrite ?length_app, ?length_replicate, ?length_uint_le; lia).
  rewrite (splice_app (replicate 80 (Byte 0)))
    by (by rewrite ?length_replicate, ?length_uint_le).
  rewrite uint_le_4_0.
  rewrite bind_unfold.
  cbn [Part000.set_off Part000.buf Part000.off Part000.count].
  rewrite bind_unfold.
  cbn [Part000.set_count Part000.buf Part000.off Part000.count].
  rewrite <- bind_assoc_loops, bind_unfold, part000_loops_emit. fold ts.
  rewrite app_assoc, part000_emit_spec;
    [| by rewrite length_app, !length_replicate | done].
  rewrite bind_unfold. cbn [Part000.get_count Part000.count].
  rewrite part000_view_set_store;
    cbn [Part000.buf Part000.off Part000.count];
    rewrite ?length_app, ?length_replicate, ?length_uint_le; [| lia | lia].
  f_equal.
  change (Z.to_nat 80) with 80%nat.
  rewrite list_inserts_splice
    by (rewrite ?length_app, ?length_replicate, ?length_uint_le; lia).
  rewrite <- (app_assoc (replicate 80 (Byte 0))).
  rewrite (splice_app (replicate 80 (Byte 0)))
    by (by rewrite ?length_replicate, ?length_uint_le).
  rewrite Z.add_0_l.
  rewrite slice_prefix.
  - rewrite !app_assoc.
    rewrite take_app_length'; [done |].
    rewrite !length_app, length_replicate, length_uint_le,
      (length_bind_const _ 50) by apply length_part000_record.
    lia.
  - rewrite !length_app, !length_replicate, length_uint_le,
      (length_bind_const _ 50) by apply length_part000_record.
    lia.
Qed.

(** ** Streams *)

(** The shape both serializers return: header, count, records. *)
Lemma stream_facts (n : Z) (recs : list byte_val) (k : Z) :
  Z.of_nat (length recs) = 50 * k →
  let bytes := replicate 80 (Byte 0) ++ uint_le 4 n ++ recs in
  Z.of_nat (length bytes) = 84 + 50 * k ∧
  take 4 (drop 80 bytes) = uint_le 4 n ∧
  getUint32 bytes 80 = Some (n mod 2 ^ 32).
Proof.
  intros Hrecs bytes. unfold bytes. split; [| split].
  - rewrite !length_app, length_replicate, length_uint_le. lia.
  - replace 80%nat with (length (replicate 80 (Byte 0))) at 1
      by apply length_replicate.
    rewrite drop_app_length.
    replace 4%nat with (length (uint_le 4 n)) at 1 by apply length_uint_le.
    by rewrite take_app_length.
  - apply getUint32_uint_le. apply length_replicate.
Qed.

Lemma length_docs_records ts :
  Z.of_nat (length (ts ≫= docs_record)) = 50 * Z.of_nat (length ts).
Proof. rewrite (length_bind_const _ 50) by apply length_docs_record. lia. Qed.

Lemma length_part000_records ts :
  Z.of_nat (length (ts ≫= part000_record)) = 50 * Z.of_nat (length ts).
Proof.
  rewrite (length_bind_const _ 50) by apply length_part000_record. lia.
Qed.

(** ** Heights read inside the field *)

Lemma ta_get_defined (a : list R) (i : Z) :
  0 ≤ i < Z.of_nat (length a) → is_number (ta_get a i).
Proof.
  intros Hi. unfold ta_get. destruct (Z.leb_spec 0 i); [| lia].
  destruct (lookup_lt_is_Some_2 a (Z.to_nat i) ltac:(lia)) as [r ->]. done.
Qed.

Lemma docs_vzTop_defined thickness W H x y :
  Z.of_nat (length thickness) = W * H → 0 ≤ x < W → 0 ≤ y < H →
  is_number (Docs.vzTop thickness W x y).
Proof. intros Hlen Hx Hy. apply ta_get_defined. nia. Qed.

Lemma docs_triangles_defined thickness pxMm W H :
  1 ≤ W → 1 ≤ H → Z.of_nat (length thickness) = W * H →
  Forall defined_triangle (docs_triangles thickness pxMm W H).
Proof.
  intros HW HH Hlen. unfold docs_triangles.
  repeat apply Forall_app_2.
  all: apply Forall_bind, Forall_seqZ; intros i Hi; cbn [compose].
  1, 2: apply Forall_bind, Forall_seqZ; intros j Hj; cbn [compose].
  all: repeat apply Forall_cons_2; try apply Forall_nil_2.
  all: cbn; repeat split; try done.
  all: apply (docs_vzTop_defined _ W H); first [done | lia].
Qed.

Lemma docs_record_defined t :
  defined_triangle t → Forall defined_byte (docs_record t).
Proof.
  destruct t as [[[[ax ay] az] [[bx by_] bz]] [[cx cy] cz]].
  cbn. intros ((?&?&?)&(?&?&?)&(?&?&?)).
  repeat apply Forall_cons_2; try apply Forall_nil_2; done.
Qed.

Lemma docs_records_defined ts :
  Forall defined_triangle ts → Forall defined_byte (ts ≫= docs_record).
Proof.
  intros Hts. apply Forall_bind. eapply Forall_impl; [exact Hts |].
  intros t Ht. by apply docs_record_defined.
Qed.

(** ** Claims on the serializer *)

Lemma solid_triangles_docs W H : Docs.triCount W H = solid_triangles W H.
Proof. apply docs_triCount_eq. Qed.

(** Both serializers on a grid of at least two rows and two columns. *)
Lemma docs_stream_summary thickness pxMm W H :
  1 ≤ W → 1 ≤ H →
  ∃ bytes, Docs.buildBinarySTL thickness pxMm W H = Ok bytes ∧
    bytes = replicate 80 (Byte 0) ++ uint_le 4 (solid_triangles W H)
            ++ (docs_triangles thickness pxMm W H ≫= docs_record) ∧
    Z.of_nat (length (docs_triangles thickness pxMm W H))
    = solid_triangles W H ∧
    Z.of_nat (length bytes) = 84 + 50 * solid_triangles W H ∧
    take 4 (drop 80 bytes) = uint_le 4 (solid_triangles W H) ∧
    getUint32 bytes 80 = Some (solid_triangles W H mod 2 ^ 32).
Proof.
  intros HW HH. eexists. split; [by apply docs_buildBinarySTL_stream |].
  pose proof (length_docs_triangles thickness pxMm W H HW HH) as Hlen.
  rewrite solid_triangles_docs in *.
  split; [done |]. split; [done |].
  apply stream_facts. by rewrite length_docs_records, Hlen.
Qed.

Lemma part000_stream_summary thickness pxMm W H :
  1 ≤ W → 1 ≤ H → (W - 1) + (H - 1) ≤ 2 * (W - 1) * (H - 1) →
  ∃ bytes, Part000.buildBinarySTL thickness pxMm W H = Ok bytes ∧
    bytes = replicate 80 (Byte 0) ++ uint_le 4 (solid_triangles W H)
            ++ (part000_triangles thickness pxMm W H ≫= part000_record) ∧
    Z.of_nat (length (part000_triangles thickness pxMm W H))
    = solid_triangles W H ∧
    Z.of_nat (length bytes) = 84 + 50 * solid_triangles W H ∧
    take 4 (drop 80 bytes) = uint_le 4 (solid_triangles W H) ∧
    getUint32 bytes 80 = Some (solid_triangles W H mod 2 ^ 32).
Proof.
  intros HW HH Hroom. eexists.
  split; [by apply part000_buildBinarySTL_stream |].
  pose proof (length_part000_triangles thickness pxMm W H HW HH) as Hlen.
  fold (solid_triangles W H) in Hlen. rewrite Hlen.
  split; [done |]. split; [done |].
  apply stream_facts. by rewrite length_part000_records, Hlen.
Qed.

(** C2.  For [W >= 2], [H >= 2] and a field of [W * H] values, each variant
    returns 80 header bytes, the little-endian count, and one 50-byte record
    per triangle passed to [writeTri]; the number of these triangles is
    [2(W-1)(H-1)*2 + 2(2(W-1) + 2(H-1)) = 4(W-1)(H-1) + 4(W-1) + 4(H-1)];
    the count field holds that number as an unsigned 32-bit integer (the
    number itself when it is below [2^32]); and the stream has
    [84 + 50 * count] bytes. *)
Theorem triangle_count_matches_records (thickness : list R) (pxMm : R)
    (W H : Z) :
  2 ≤ W → 2 ≤ H → Z.of_nat (length thickness) = W * H →
  let n := solid_triangles W H in
  n = 2 * (W - 1) * (H - 1) * 2 + 2 * (2 * (W - 1) + 2 * (H - 1)) ∧
  (∃ bytes, Docs.buildBinarySTL thickness pxMm W H = Ok bytes ∧
     bytes = replicate 80 (Byte 0) ++ uint_le 4 n
             ++ (docs_triangles thickness pxMm W H ≫= docs_record) ∧
     Z.of_nat (length (docs_triangles thickness pxMm W H)) = n ∧
     getUint32 bytes 80 = Some (n mod 2 ^ 32) ∧
     (n < 2 ^ 32 → getUint32 bytes 80 = Some n) ∧
     Z.of_nat (length bytes) = 84 + 50 * n) ∧
  (∃ bytes, Part000.buildBinarySTL thickness pxMm W H = Ok bytes ∧
     bytes = replicate 80 (Byte 0) ++ uint_le 4 n
             ++ (part000_triangles thickness pxMm W H ≫= part000_record) ∧
     Z.of_nat (length (part000_triangles thickness pxMm W H)) = n ∧
     getUint32 bytes 80 = Some (n mod 2 ^ 32) ∧
     (n < 2 ^ 32 → getUint32 bytes 80 = Some n) ∧
     Z.of_nat (length bytes) = 84 + 50 * n).
Proof.
  intros HW HH _ n.
  assert (Hn : 0 ≤ n) by (unfold n, solid_triangles; nia).
  split; [unfold n, solid_triangles; lia |]. split.
  - destruct (docs_stream_summary thickness pxMm W H)
      as (bytes & E & Hb & Hts & Hlen & _ & Hcount); [lia | lia |].
    exists bytes. repeat split; try done.
    intros Hsmall. rewrite Hcount. f_equal. apply Z.mod_small. by split.
  - destruct (part000_stream_summary thickness pxMm W H)
      as (bytes & E & Hb & Hts & Hlen & _ & Hcount); [lia | lia | nia |].
    exists bytes. repeat split; try done.
    intros Hsmall. rewrite Hcount. f_equal. apply Z.mod_small. by split.
Qed.

(** Instance of C2: the 2 x 2 field of the specification's example, 12
    triangles and 684 bytes. *)
Lemma triangle_count_matches_records_witness :
  (∃ bytes,
     Docs.buildBinarySTL [1.5; 1.5; 1.5; 1.5]%R 50 2 2 = Ok bytes ∧
     getUint32 bytes 80 = Some 12 ∧ length bytes = 684%nat) ∧
  (∃ bytes,
     Part000.buildBinarySTL [1.5; 1.5; 1.5; 1.5]%R 50 2 2 = Ok bytes ∧
     getUint32 bytes 80 = Some 12 ∧ length bytes = 684%nat).
Proof.
  destruct (triangle_count_matches_records [1.5; 1.5; 1.5; 1.5]%R 50 2 2)
    as (_ & (a & Ea & _ & _ & _ & Hca & Hla) & (b & Eb & _ & _ & _ & Hcb & Hlb));
    [lia | lia | reflexivity |].
  change (solid_triangles 2 2) with 12 in *.
  split.
  - exists a. split; [exact Ea |]. split; [apply Hca; lia | lia].
  - exists b. split; [exact Eb |]. split; [apply Hcb; lia | lia].
Defined.

(** C10.  For [W >= 2], [H >= 2] and a field of [W * H] values, the two
    variants return streams of the same length, [84 + 50 * n] bytes with
    [n = 4(W-1)(H-1) + 4(W-1) + 4(H-1)], and with the same four count
    bytes, those of [n]. *)
Theorem variants_agree_on_length_and_count (thickness : list R) (pxMm : R)
    (W H : Z) :
  2 ≤ W → 2 ≤ H → Z.of_nat (length thickness) = W * H →
  let n := 4 * (W - 1) * (H - 1) + 4 * (W - 1) + 4 * (H - 1) in
  ∃ docs part,
    Docs.buildBinarySTL thickness pxMm W H = Ok docs ∧
    Part000.buildBinarySTL thickness pxMm W H = Ok part ∧
    length docs = length part ∧
    Z.of_nat (length docs) = 84 + 50 * n ∧
    take 4 (drop 80 docs) = take 4 (drop 80 part) ∧
    take 4 (drop 80 docs) = uint_le 4 n ∧
    getUint32 docs 80 = getUint32 part 80 ∧
    getUint32 docs 80 = Some (n mod 2 ^ 32).
Proof.
  intros HW HH _ n. fold (solid_triangles W H) in n.
  destruct (docs_stream_summary thickness pxMm W H)
    as (a & Ea & _ & _ & Hla & Hta & Hca); [lia | lia |].
  destruct (part000_stream_summary thickness pxMm W H)
    as (b & Eb & _ & _ & Hlb & Htb & Hcb); [lia | lia | nia |].
  exists a, b. repeat split; try done; try congruence. lia.
Qed.

(** Instance of C10: the 2 x 2 field. *)
Lemma variants_agree_on_length_and_count_witness :
  ∃ docs part,
    Docs.buildBinarySTL [1.5; 1.5; 1.5; 1.5]%R 50 2 2 = Ok docs ∧
    Part000.buildBinarySTL [1.5; 1.5; 1.5; 1.5]%R 50 2 2 = Ok part ∧
    length docs = length part ∧
    length docs = 684%nat ∧
    getUint32 docs 80 = getUint32 part 80.
Proof.
  destruct (variants_agree_on_length_and_count [1.5; 1.5; 1.5; 1.5]%R 50 2 2)
    as (a & b & Ea & Eb & Hl & Hn & _ & _ & Hc & _);
    [lia | lia | reflexivity |].
  exists a, b.
  split; [exact Ea |]. split; [exact Eb |]. split; [exact Hl |].
  split; [lia | exact Hc].
Defined.

(** ** Degenerate grids *)

Lemma uint_le_defined n x : Forall defined_byte (uint_le n x).
Proof. unfold uint_le. apply Forall_fmap, Forall_true. done. Qed.

Lemma docs_stream_defined thickness pxMm W H :
  1 ≤ W → 1 ≤ H → Z.of_nat (length thickness) = W * H →
  Forall defined_byte
    (replicate 80 (Byte 0) ++ uint_le 4 (solid_triangles W H)
     ++ (docs_triangles thickness pxMm W H ≫= docs_record)).
Proof.
  intros HW HH Hlen. repeat apply Forall_app_2.
  - by apply Forall_replicate.
  - apply uint_le_defined.
  - by apply docs_records_defined, docs_triangles_defined.
Qed.

(** One row of two values: src/docs/app.js returns four wall triangles. *)
Lemma docs_single_row_stream :
  ∃ bytes, Docs.buildBinarySTL [1; 1]%R 50 2 1 = Ok bytes ∧
           length bytes = 284%nat ∧ getUint32 bytes 80 = Some 4.
Proof.
  destruct (docs_stream_summary [1; 1]%R 50 2 1)
    as (bytes & E & _ & _ & Hlen & _ & Hcount); [lia | lia |].
  change (solid_triangles 2 1) with 4 in *.
  exists bytes. split; [exact E |]. split; [lia | exact Hcount].
Qed.

(** A single row or column of at least two values: src/unnamed/part_000
    allocates [84 + 50 * 0 * 12] bytes, and the first [setFloat32] of the
    first wall triangle is out of bounds. *)
Lemma part000_writeTri_throws ax ay az bx by_ bz cx cy cz
    (s : Part000.state) :
  0 ≤ Part000.off s →
  Z.of_nat (length (Part000.buf s)) < Part000.off s + 16 →
  Part000.writeTri ax ay az bx by_ bz cx cy cz s = Throw RangeError.
Proof.
  intros H0 Hfull.
  unfold Part000.writeTri, setFloat32.
  rewrite bind_unfold. cbn [Part000.get_off Part000.off].
  rewrite bind_unfold.
  cbn [Part000.set_off Part000.buf Part000.off Part000.count].
  rewrite bind_unfold. cbn [Part000.get_off Part000.off].
  apply bind_Throw. unfold Part000.view_set. cbn [Part000.buf].
  rewrite store_Throw; [done |]. cbn [length float32_le]. lia.
Qed.

Lemma forM_empty_inner {S} (ys : list Z) (body : Z → Z → M S unit) s :
  forM ys (λ y, forM [] (body y)) s = Ok (tt, s).
Proof.
  induction ys as [| y ys IH]; [done |].
  cbn [forM]. rewrite bind_unfold. cbn. apply IH.
Qed.

Lemma part000_single_row_or_column_throws thickness pxMm W H :
  (H = 1 ∧ 2 ≤ W) ∨ (W = 1 ∧ 2 ≤ H) →
  Part000.buildBinarySTL thickness pxMm W H = Throw RangeError.
Proof.
  intros Hdeg. unfold Part000.buildBinarySTL.
  replace (84 + 50 * (W - 1) * (H - 1) * 12) with 84
    by (destruct Hdeg as [[-> _] | [-> _]]; lia).
  change (new_ArrayBuffer 84) with (Ok (replicate 84 (Byte 0))).
  unfold Part000.fill, setUint32.
  rewrite bind_unfold, part000_view_set_store;
    cbn [Part000.buf Part000.off Part000.count];
    rewrite ?length_replicate, ?length_uint_le; [| lia | lia].
  rewrite bind_unfold.
  cbn [Part000.set_off Part000.buf Part000.off Part000.count].
  rewrite bind_unfold.
  cbn [Part000.set_count Part000.buf Part000.off Part000.count].
  set (s0 := {| Part000.buf := _; Part000.off := 84; Part000.count := 0 |}).
  assert (Hs0 : Z.of_nat (length (Part000.buf s0)) = 84)
    by (unfold s0; cbn [Part000.buf];
        by rewrite length_inserts, length_replicate).
  assert (Hsurf : Part000.surfaces thickness pxMm W H s0 = Ok (tt, s0)).
  { unfold Part000.surfaces, for_.
    destruct Hdeg as [[-> _] | [-> _]].
    - done.
    - change (seqZ 0 (1 - 1)) with (@nil Z). apply forM_empty_inner. }
  rewrite bind_unfold, Hsurf.
  destruct Hdeg as [[-> HW] | [-> HH]].
  - rewrite bind_unfold. unfold Part000.sidesX, for_.
    rewrite (seqZ_cons 0 (W - 1)) by lia. cbn [forM].
    rewrite bind_unfold, bind_unfold.
    rewrite part000_writeTri_throws; [done | done |].
    rewrite Hs0. cbn. lia.
  - rewrite bind_unfold. unfold Part000.sidesX, for_.
    change (seqZ 0 (1 - 1)) with (@nil Z). cbn [forM].
    change ((mret tt : M Part000.state unit) s0) with (Ok (tt, s0)).
    cbv iota beta.
    rewrite bind_unfold. unfold Part000.sidesY, for_.
    rewrite (seqZ_cons 0 (H - 1)) by lia. cbn [forM].
    rewrite bind_unfold, bind_unfold.
    rewrite part000_writeTri_throws; [done | done |].
    rewrite Hs0. cbn. lia.
Qed.

Lemma part000_single_row_throws :
  Part000.buildBinarySTL [1; 1]%R 50 2 1 = Throw RangeError.
Proof. apply part000_single_row_or_column_throws. lia. Qed.

(** C3, as stated, fails for one row of two values: src/docs/app.js returns
    284 bytes, not 84, and src/unnamed/part_000 returns no stream. *)
Lemma degenerate_grid_not_header_only :
  ¬ (∃ bytes, Docs.buildBinarySTL [1; 1]%R 50 2 1 = Ok bytes ∧
              length bytes = 84%nat ∧ getUint32 bytes 80 = Some 0) ∧
  ¬ (∃ bytes, Part000.buildBinarySTL [1; 1]%R 50 2 1 = Ok bytes).
Proof.
  split.
  - intros (bytes & E & Hlen & _).
    destruct docs_single_row_stream as (bytes' & E' & Hlen' & _).
    rewrite E in E'. injection E' as <-. lia.
  - intros (bytes & E). rewrite part000_single_row_throws in E. discriminate.
Qed.

(** C3, amended.  For a field of [W * H] values with [W = 1] or [H = 1],
    src/docs/app.js returns, without error, the stream of the
    [4(W-1) + 4(H-1)] wall triangles: [84 + 50 * count] bytes, none of them
    from an [undefined] coordinate; the stream is the 84-byte header-only
    one exactly when [W = H = 1], and then src/unnamed/part_000 returns an
    84-byte stream with count 0 as well. *)
Theorem degenerate_grid_has_walls_only (thickness : list R) (pxMm : R)
    (W H : Z) :
  1 ≤ W → 1 ≤ H → W = 1 ∨ H = 1 →
  Z.of_nat (length thickness) = W * H →
  let n := 4 * (W - 1) + 4 * (H - 1) in
  (∃ bytes, Docs.buildBinarySTL thickness pxMm W H = Ok bytes ∧
     Z.of_nat (length (docs_triangles thickness pxMm W H)) = n ∧
     Z.of_nat (length bytes) = 84 + 50 * n ∧
     getUint32 bytes 80 = Some (n mod 2 ^ 32) ∧
     Forall defined_byte bytes ∧
     (length bytes = 84%nat ↔ W = 1 ∧ H = 1)) ∧
  (W = 1 → H = 1 →
   ∃ bytes, Part000.buildBinarySTL thickness pxMm W H = Ok bytes ∧
     length bytes = 84%nat ∧ getUint32 bytes 80 = Some 0).
Proof.
  intros HW HH Hdeg Hlen n.
  assert (En : solid_triangles W H = n)
    by (unfold solid_triangles, n; destruct Hdeg; subst; lia).
  split.
  - destruct (docs_stream_summary thickness pxMm W H HW HH)
      as (bytes & E & Hb & Hts & Hl & _ & Hcount).
    rewrite En in Hts, Hl, Hcount.
    exists bytes. split; [exact E |]. split; [exact Hts |].
    split; [exact Hl |]. split; [exact Hcount |]. split.
    + rewrite Hb. by apply docs_stream_defined.
    + unfold n in Hl. lia.
  - intros -> ->.
    destruct (part000_stream_summary thickness pxMm 1 1)
      as (bytes & E & _ & _ & Hl & _ & Hcount); [lia | lia | lia |].
    change (solid_triangles 1 1) with 0 in *.
    exists bytes. split; [exact E |]. split; [lia | exact Hcount].
Qed.

(** Instance of C3, amended: one row of two values, and a single value. *)
Lemma degenerate_grid_has_walls_only_witness :
  (∃ bytes, Docs.buildBinarySTL [1; 1]%R 50 2 1 = Ok bytes ∧
            length bytes = 284%nat ∧ Forall defined_byte bytes) ∧
  (∃ bytes, Part000.buildBinarySTL [1]%R 50 1 1 = Ok bytes ∧
            length bytes = 84%nat ∧ getUint32 bytes 80 = Some 0).
Proof.
  split.
  - destruct (degenerate_grid_has_walls_only [1; 1]%R 50 2 1)
      as ((bytes & E & _ & Hl & _ & Hdef & _) & _);
      [lia | lia | right; reflexivity | reflexivity |].
    exists bytes. split; [exact E |]. split; [lia | exact Hdef].
  - destruct (degenerate_grid_has_walls_only [1]%R 50 1 1)
      as (_ & Hpart); [lia | lia | left; reflexivity | reflexivity |].
    exact (Hpart eq_refl eq_refl).
Defined.

(** ** Dimensions the serializer is given *)

(** With no column, or no row, the buffer size of src/docs/app.js is
    [84 + 50 * (-4)], and the allocation throws. *)
Lemma docs_empty_grid_throws thickness pxMm W H :
  W = 0 ∨ H = 0 →
  Docs.buildBinarySTL thickness pxMm W H = Throw RangeError.
Proof.
  intros Hzero. unfold Docs.buildBinarySTL, new_ArrayBuffer.
  assert (E : Docs.triCount W H = -4)
    by (rewrite docs_triCount_eq; destruct Hzero; subst; lia).
  rewrite E. reflexivity.
Qed.

Lemma part000_empty_grid_throws thickness pxMm W H :
  (W = 0 ∧ 2 ≤ H) ∨ (H = 0 ∧ 2 ≤ W) →
  Part000.buildBinarySTL thickness pxMm W H = Throw RangeError.
Proof.
  intros Hzero. unfold Part000.buildBinarySTL, new_ArrayBuffer.
  destruct (Z.ltb_spec (84 + 50 * (W - 1) * (H - 1) * 12) 0) as [| Hge];
    [done |].
  destruct Hzero as [[-> ?] | [-> ?]]; lia.
Qed.

(** Dimensions below 1 that both variants accept. *)
Lemma docs_negative_grid_stream :
  Docs.buildBinarySTL [] 50 (-1) (-1) = Ok (replicate 84 (Byte 0)).
Proof. vm_compute. reflexivity. Qed.

Lemma part000_empty_grid_stream :
  Part000.buildBinarySTL [] 50 0 0 = Ok (replicate 84 (Byte 0)).
Proof. vm_compute. reflexivity. Qed.

(** C9, as stated, fails: an empty field given as a 2 x 2 grid is
    serialized by both variants, and so are the dimensions [-1 x -1] by
    src/docs/app.js and [0 x 0] by src/unnamed/part_000. *)
Lemma serializer_accepts_invalid_dimensions :
  Z.of_nat (length (@nil R)) ≠ 2 * 2 ∧
  (∃ bytes, Docs.buildBinarySTL [] 50 2 2 = Ok bytes ∧
            length bytes = 684%nat) ∧
  (∃ bytes, Part000.buildBinarySTL [] 50 2 2 = Ok bytes ∧
            length bytes = 684%nat) ∧
  (∃ bytes, Docs.buildBinarySTL [] 50 (-1) (-1) = Ok bytes) ∧
  (∃ bytes, Part000.buildBinarySTL [] 50 0 0 = Ok bytes).
Proof.
  split; [cbn; lia |]. split; [| split; [| split]].
  - destruct (docs_stream_summary [] 50 2 2)
      as (bytes & E & _ & _ & Hlen & _); [lia | lia |].
    change (solid_triangles 2 2) with 12 in Hlen.
    exists bytes. split; [exact E | lia].
  - destruct (part000_stream_summary [] 50 2 2)
      as (bytes & E & _ & _ & Hlen & _); [lia | lia | lia |].
    change (solid_triangles 2 2) with 12 in Hlen.
    exists bytes. split; [exact E | lia].
  - eexists. apply docs_negative_grid_stream.
  - eexists. apply part000_empty_grid_stream.
Qed.

(** C9, amended.  Neither variant checks its dimensions.  src/docs/app.js
    fails when [W = 0] or [H = 0], with the [RangeError] of the buffer
    allocation and so before any byte is produced, and
    src/unnamed/part_000 does when one dimension is 0 and the other at
    least 2; a field whose length is not [W * H] is not rejected: for
    [W >= 1] and [H >= 1] src/docs/app.js returns the complete stream of
    [84 + 50 * count] bytes, and src/unnamed/part_000 does for [W >= 2] and
    [H >= 2]. *)
Theorem serializer_fails_only_at_allocation (thickness : list R) (pxMm : R)
    (W H : Z) :
  (W = 0 ∨ H = 0 →
     Docs.buildBinarySTL thickness pxMm W H = Throw RangeError) ∧
  ((W = 0 ∧ 2 ≤ H) ∨ (H = 0 ∧ 2 ≤ W) →
     Part000.buildBinarySTL thickness pxMm W H = Throw RangeError) ∧
  (1 ≤ W → 1 ≤ H →
     ∃ bytes, Docs.buildBinarySTL thickness pxMm W H = Ok bytes ∧
       Z.of_nat (length bytes) = 84 + 50 * solid_triangles W H ∧
       getUint32 bytes 80 = Some (solid_triangles W H mod 2 ^ 32)) ∧
  (2 ≤ W → 2 ≤ H →
     ∃ bytes, Part000.buildBinarySTL thickness pxMm W H = Ok bytes ∧
       Z.of_nat (length bytes) = 84 + 50 * solid_triangles W H ∧
       getUint32 bytes 80 = Some (solid_triangles W H mod 2 ^ 32)).
Proof.
  split; [apply docs_empty_grid_throws |].
  split; [apply part000_empty_grid_throws |]. split.
  - intros HW HH.
    destruct (docs_stream_summary thickness pxMm W H HW HH)
      as (bytes & E & _ & _ & Hlen & _ & Hcount).
    exists bytes. split; [exact E |]. split; [exact Hlen | exact Hcount].
  - intros HW HH.
    destruct (part000_stream_summary thickness pxMm W H)
      as (bytes & E & _ & _ & Hlen & _ & Hcount); [lia | lia | nia |].
    exists bytes. split; [exact E |]. split; [exact Hlen | exact Hcount].
Qed.

(** Instance of C9, amended: no column; and a field one value short. *)
Lemma serializer_fails_only_at_allocation_witness :
  Docs.buildBinarySTL [1; 1]%R 50 0 2 = Throw RangeError ∧
  Part000.buildBinarySTL [1; 1]%R 50 0 2 = Throw RangeError ∧
  (∃ bytes, Docs.buildBinarySTL [1; 1; 1]%R 50 2 2 = Ok bytes ∧
            length bytes = 684%nat) ∧
  (∃ bytes, Part000.buildBinarySTL [1; 1; 1]%R 50 2 2 = Ok bytes ∧
            length bytes = 684%nat).
Proof.
  destruct (serializer_fails_only_at_allocation [1; 1]%R 50 0 2)
    as (Hdocs & Hpart & _).
  destruct (serializer_fails_only_at_allocation [1; 1; 1]%R 50 2 2)
    as (_ & _ & Hd & Hp).
  split; [apply Hdocs; left; reflexivity |].
  split; [apply Hpart; left; split; [reflexivity | lia] |].
  change (solid_triangles 2 2) with 12 in *.
  split.
  - destruct Hd as (bytes & E & Hlen & _); [lia | lia |].
    exists bytes. split; [exact E | lia].
  - destruct Hp as (bytes & E & Hlen & _); [lia | lia |].
    exists bytes. split; [exact E | lia].
Defined.

(** * Further properties *)

(** ** From the page to the stream *)

Lemma docs_getParams_widthPx form : 10 ≤ widthPx (Docs.getParams form).
Proof. apply docs_getParams_widthPx_clamped. Qed.

Lemma part000_getParams_widthPx form : 10 ≤ widthPx (Part000.getParams form).
Proof. apply part000_getParams_widthPx_clamped. Qed.



Lemma part000_computeThicknessMap_throws img p :
  1 ≤ widthPx p → Part000.fieldHeight img (widthPx p) ≤ 0 →
  Part000.computeThicknessMap img p
  = Throw (if Part000.fieldHeight img (widthPx p) =? 0
           then IndexSizeError else RangeError).
Proof.
  intros Hw Hh.
  unfold Part000.computeThicknessMap, getImageData, new_Float32Array.
  set (w := widthPx p) in *. set (h := Part000.fieldHeight img w) in *.
  destruct (Z.eqb_spec w 0); [lia |].
  destruct (Z.eqb_spec h 0); [done |]. cbn [orb].
  destruct (Z.ltb_spec (w * h) 0); [done | nia].
Qed.

(** X2.  The click handler of src/unnamed/part_000 gets a stream only when
    the height it computes for the field is at least 2: with height 0
    [getImageData] throws, with a negative height the field cannot be
    allocated, and with height 1 the field is built and [buildBinarySTL]
    throws on its first wall triangle. *)
Theorem part000_generateSTL_by_height (img : Image) (form : Part000.Form) :
  let h := Part000.fieldHeight img (widthPx (Part000.getParams form)) in
  (h = 0 → Part000.generateSTL img form = Throw IndexSizeError) ∧
  (h < 0 → Part000.generateSTL img form = Throw RangeError) ∧
  (h = 1 →
     (∃ r, Part000.computeThicknessMap img (Part000.getParams form) = Ok r) ∧
     Part000.generateSTL img form = Throw RangeError) ∧
  (2 ≤ h →
     ∃ r bytes,
       Part000.computeThicknessMap img (Part000.getParams form) = Ok r ∧
       Part000.generateSTL img form = Ok bytes ∧
       H r = h ∧
       Z.of_nat (length bytes) = 84 + 50 * solid_triangles (W r) (H r) ∧
       getUint32 bytes 80 = Some (solid_triangles (W r) (H r) mod 2 ^ 32)).
Proof.
  intros h. pose proof (part000_getParams_widthPx form) as Hpx.
  set (p := Part000.getParams form) in *.
  assert (Hfail : h ≤ 0 →
            Part000.computeThicknessMap img p
            = Throw (if h =? 0 then IndexSizeError else RangeError)).
  { intros Hh. apply part000_computeThicknessMap_throws; [lia | done]. }
  assert (Hok : 1 ≤ h → ∃ r, Part000.computeThicknessMap img p = Ok r ∧
                          W r = widthPx p ∧ H r = h).
  { intros Hh.
    destruct (part000_computeThicknessMap_returns img p) as [r Hr];
      [lia | done |].
    destruct (part000_computeThicknessMap_dims _ _ _ Hr) as [EW EH].
    by exists r. }
  unfold Part000.generateSTL. fold p. repeat split.
  - intros E. rewrite Hfail by lia. by rewrite E.
  - intros Hneg. rewrite Hfail by lia.
    by destruct (Z.eqb_spec h 0); [lia |].
  - destruct (Hok ltac:(lia)) as (r & Hr & _). by exists r.
  - destruct (Hok ltac:(lia)) as (r & Hr & EW & EH). rewrite Hr.
    apply part000_single_row_or_column_throws. left. lia.
  - intros Hh. destruct (Hok ltac:(lia)) as (r & Hr & EW & EH).
    destruct (part000_stream_summary (thickness r) (pxMm r) (W r) (H r))
      as (bytes & E & _ & _ & Hl & _ & Hcount); [lia | lia | nia |].
    exists r, bytes. rewrite Hr. by repeat split.
Qed.

Lemma strip_ratio_rounds_to_1 :
  Math_round (IZR 100 * (IZR 10 / IZR 1000)) = 1.
Proof. apply Math_round_spec. lra. Qed.

Lemma flat_ratio_rounds_to_5 :
  Math_round (IZR 10 * (IZR 10 / IZR 20)) = 5.
Proof. apply Math_round_spec. lra. Qed.

(** Instance of X2: the 1000 x 1 banner, the 1000 x 100 strip and the
    20 x 10 image at pixel width 10. *)
Lemma part000_generateSTL_by_height_witness :
  Part000.generateSTL banner_image (part000_blank_form false)
  = Throw IndexSizeError ∧
  Part000.generateSTL strip_image (part000_blank_form false)
  = Throw RangeError ∧
  ∃ bytes, Part000.generateSTL (flat_image 255 255)
             (part000_blank_form false) = Ok bytes.
Proof.
  split; [| split].
  - apply (part000_generateSTL_by_height banner_image
             (part000_blank_form false)).
    apply banner_ratio_rounds_to_0.
  - apply (part000_generateSTL_by_height strip_image
             (part000_blank_form false)).
    apply strip_ratio_rounds_to_1.
  - destruct (part000_generateSTL_by_height (flat_image 255 255)
                (part000_blank_form false)) as (_ & _ & _ & Hok).
    destruct Hok as (r & bytes & _ & E & _).
    + change (2 ≤ Math_round (IZR 10 * (IZR 10 / IZR 20))).
      rewrite flat_ratio_rounds_to_5. lia.
    + by exists bytes.
Defined.

(** ** Rotation by 180 degrees *)

Lemma reversed_index (W H x y : Z) :
  0 ≤ x < W → 0 ≤ y < H →
  Z.to_nat (flip true H y * W + flip true W x)
  = (Z.to_nat (W * H) - S (Z.to_nat (y * W + x)))%nat.
Proof. intros Hx Hy. unfold flip. nia. Qed.

Lemma field_reverse (a a0 : list R) (W H : Z) :
  1 ≤ W → Z.of_nat (length a) = W * H → Z.of_nat (length a0) = W * H →
  (∀ x y, 0 ≤ x < W → 0 ≤ y < H →
     a !! Z.to_nat (y * W + x)
     = a0 !! Z.to_nat (flip true H y * W + flip true W x)) →
  a = reverse a0.
Proof.
  intros HW Hlen Hlen0 Hget. apply list_eq. intros i.
  destruct (a !! i) as [v |] eqn:Hi.
  - destruct (field_position a W H i v HW Hlen Hi) as (x & y & Hx & Hy & ->).
    rewrite Hget in Hi by done. rewrite reversed_index in Hi by done.
    rewrite reverse_lookup by nia.
    rewrite <- Hi. f_equal. nia.
  - apply lookup_ge_None in Hi. symmetry. apply lookup_ge_None.
    rewrite length_reverse. lia.
Qed.

(** X3.  In both variants the field built with both flips, which is what
    [getParams] asks for when the 180-degree box is checked, is the unflipped
    field in reverse order. *)
Theorem rot180_reverses_field (img : Image) (p : Params) :
  (∀ r r0,
     Docs.computeThicknessMap img (with_flips true true p) = Ok r →
     Docs.computeThicknessMap img (with_flips false false p) = Ok r0 →
     thickness r = reverse (thickness r0)) ∧
  (0 ≤ widthPx p → ∀ r r0,
     Part000.computeThicknessMap img (with_flips true true p) = Ok r →
     Part000.computeThicknessMap img (with_flips false false p) = Ok r0 →
     thickness r = reverse (thickness r0)) ∧
  (∀ form, Docs.in_rot180 form = true →
     Docs.getParams form = with_flips true true (Docs.getParams form)) ∧
  (∀ form, Part000.in_rot180 form = true →
     Part000.getParams form = with_flips true true (Part000.getParams form)).
Proof.
  split; [| split; [| split]].
  - intros r r0 Hr Hr0.
    destruct (docs_flipped_field img p true true r r0 Hr Hr0)
      as (EW & EH & Hget).
    destruct (docs_computeThicknessMap_Ok _ _ _ Hr)
      as (_ & _ & HW & _ & _ & Hlen & _).
    destruct (docs_computeThicknessMap_Ok _ _ _ Hr0)
      as (_ & _ & _ & _ & _ & Hlen0 & _).
    apply (field_reverse _ _ (W r) (H r)); try done. congruence.
  - intros Hpos r r0 Hr Hr0.
    destruct (part000_flipped_field img p true true r r0 Hr Hr0)
      as (EW & EH & Hget).
    destruct (part000_computeThicknessMap_Ok _ (with_flips true true p) _
                Hpos Hr) as (_ & _ & HW & _ & _ & Hlen & _).
    destruct (part000_computeThicknessMap_Ok _ (with_flips false false p) _
                Hpos Hr0) as (_ & _ & _ & _ & _ & Hlen0 & _).
    apply (field_reverse _ _ (W r) (H r)); try done. congruence.
  - intros form E. unfold Docs.getParams, with_flips. by rewrite E.
  - intros form E. unfold Part000.getParams, with_flips. by rewrite E.
Qed.

(** Instance of X3: the white image with the 180-degree box checked. *)
Lemma rot180_reverses_field_witness :
  ∃ r r0,
    Docs.computeThicknessMap (flat_image 255 255)
      (Docs.getParams (docs_blank_form true)) = Ok r ∧
    Docs.computeThicknessMap (flat_image 255 255)
      (with_flips false false (Docs.getParams (docs_blank_form true)))
    = Ok r0 ∧
    thickness r = reverse (thickness r0).
Proof.
  destruct (rot180_reverses_field (flat_image 255 255)
              (Docs.getParams (docs_blank_form true)))
    as (Hdocs & _ & Hform & _).
  pose proof (Hform (docs_blank_form true) eq_refl) as E.
  destruct (docs_computeThicknessMap_returns (flat_image 255 255)
              (Docs.getParams (docs_blank_form true))) as [r Hr];
    [pose proof (docs_getParams_widthPx (docs_blank_form true)); lia |].
  destruct (docs_computeThicknessMap_returns (flat_image 255 255)
              (with_flips false false
                 (Docs.getParams (docs_blank_form true)))) as [r0 Hr0];
    [pose proof (docs_getParams_widthPx (docs_blank_form true));
     cbn [widthPx with_flips]; lia |].
  exists r, r0. split; [exact Hr |]. split; [exact Hr0 |].
  apply Hdocs; [| exact Hr0]. rewrite <- E. exact Hr.
Defined.

(** ** Bright = Thin and Bright = Thick *)

Section Direction.

Local Open Scope R_scope.



End Direction.


Lemma field_first_value (a : list R) (W H : Z) :
  1 ≤ W → 1 ≤ H → Z.of_nat (length a) = W * H → ∃ t, a !! 0%nat = Some t.
Proof.
  intros HW HH Hlen. apply lookup_lt_is_Some. nia.
Qed.


Section Monotone.

Local Open Scope R_scope.

Lemma Math_pow_monotone (x x' y : R) :
  0 <= x <= x' → 0 < y → Math_pow x y <= Math_pow x' y.
Proof.
  intros [H0 Hle] Hy. unfold Math_pow.
  destruct (Req_dec_T x 0) as [-> | Hx]; destruct (Req_dec_T x' 0) as [E | Hx'].
  - lra.
  - destruct (Req_dec_T y 0); [lra |]. left. apply exp_pos.
  - lra.
  - apply Rle_Rpower_l; lra.
Qed.

(** The two branches of the sRGB decoding at [0.04045]: comparing fifth
    powers, [(0.09545 / 1.055)^12] is above [(0.04045 / 12.92)^5]. *)
Lemma srgb_junction :
  0.04045 / 12.92 <= Rpower ((0.04045 + 0.055) / 1.055) 2.4.
Proof.
  set (x := (0.04045 + 0.055) / 1.055).
  set (c := 0.04045 / 12.92).
  assert (Hx : 0 < x) by (unfold x; lra).
  assert (Hc : 0 < c) by (unfold c; lra).
  assert (E : Rpower x 2.4 ^ 5 = x ^ 12).
  { rewrite <- (Rpower_pow 5) by apply exp_pos.
    rewrite Rpower_mult.
    replace (2.4 * INR 5) with (INR 12) by (cbn; lra).
    by rewrite Rpower_pow. }
  assert (Hlt : c ^ 5 < x ^ 12) by (unfold c, x; lra).
  destruct (Rle_lt_dec c (Rpower x 2.4)) as [| Hcontra]; [done |].
  exfalso.
  assert (Rpower x 2.4 ^ 5 <= c ^ 5).
  { apply pow_incr. split; [left; apply exp_pos | lra]. }
  lra.
Qed.

Lemma docs_srgbToLinear_monotone (u u' : R) :
  u <= u' → Docs.srgbToLinear u <= Docs.srgbToLinear u'.
Proof.
  intros Hle. unfold Docs.srgbToLinear.
  destruct (Rle_dec u 0.04045) as [Hu | Hu];
    destruct (Rle_dec u' 0.04045) as [Hu' | Hu'].
  - lra.
  - rewrite Math_pow_pos by (apply Rdiv_lt_0_compat; lra).
    apply Rle_trans with (0.04045 / 12.92); [lra |].
    apply Rle_trans with (Rpower ((0.04045 + 0.055) / 1.055) 2.4);
      [apply srgb_junction |].
    apply Rle_Rpower_l; [lra |]. split; [lra |].
    apply Rmult_le_compat_r; lra.
  - lra.
  - apply Math_pow_monotone; [| lra]. split.
    + left. apply Rdiv_lt_0_compat; lra.
    + apply Rmult_le_compat_r; lra.
Qed.

Lemma docs_luminance_monotone (data data' : list Z) (k : Z) :
  not_darker data data' →
  Docs.luminance data (k * 4) <= Docs.luminance data' (k * 4).
Proof.
  intros Hle. unfold Docs.luminance. cbv zeta.
  assert (Hm : ∀ j, (j mod 4 ≠ 3)%Z →
                    Docs.srgbToLinear (sample data j / 255)
                    <= Docs.srgbToLinear (sample data' j / 255)).
  { intros j Hj. apply docs_srgbToLinear_monotone.
    apply Rmult_le_compat_r; [lra | by apply Hle]. }
  assert (E0 : ((k * 4) mod 4 = 0)%Z) by (apply Z.mod_mul; lia).
  assert (E1 : ((k * 4 + 1) mod 4 = 1)%Z)
    by (rewrite Z.add_comm, Z.mod_add; [done | lia]).
  assert (E2 : ((k * 4 + 2) mod 4 = 2)%Z)
    by (rewrite Z.add_comm, Z.mod_add; [done | lia]).
  pose proof (Hm (k * 4)%Z ltac:(lia)).
  pose proof (Hm (k * 4 + 1)%Z ltac:(lia)).
  pose proof (Hm (k * 4 + 2)%Z ltac:(lia)).
  lra.
Qed.

Lemma clip_monotone (bc wc Y Y' : R) :
  Y <= Y' →
  Math_max 0 (Math_min 1 ((Y - bc) * (1 / Math_max 1e-9 (wc - bc))))
  <= Math_max 0 (Math_min 1 ((Y' - bc) * (1 / Math_max 1e-9 (wc - bc)))).
Proof.
  intros Hle.
  assert (Hd : 0 < 1 / Math_max 1e-9 (wc - bc)).
  { apply Rdiv_lt_0_compat; [lra |].
    pose proof (Math_max_lower 1e-9 (wc - bc)). lra. }
  assert ((Y - bc) * (1 / Math_max 1e-9 (wc - bc))
          <= (Y' - bc) * (1 / Math_max 1e-9 (wc - bc)))
    by (apply Rmult_le_compat_r; lra).
  generalize dependent (1 / Math_max 1e-9 (wc - bc)). intros k _ Hk.
  unfold Math_max, Math_min, Rmax, Rmin.
  repeat destruct (Rle_dec _ _); lra.
Qed.

Lemma docs_tone_of_clip_monotone p Y Y' :
  0 < toneGamma p → Y <= Y' →
  Docs.toneCurve p (Docs.clipNormalize p Y)
  <= Docs.toneCurve p (Docs.clipNormalize p Y').
Proof.
  intros Hg Hle.
  pose proof (docs_clipNormalize_unit p Y) as HY.
  assert (Hclip : Docs.clipNormalize p Y <= Docs.clipNormalize p Y')
    by (by apply clip_monotone).
  unfold Docs.toneCurve. destruct (Rgt_dec _ _); [| done].
  apply Math_pow_monotone; [lra |]. apply Rdiv_lt_0_compat; lra.
Qed.

Lemma part000_tone_of_clip_monotone p Y Y' :
  0 < toneGamma p → Y <= Y' →
  Part000.toneCurve p (Part000.clipNormalize p Y)
  <= Part000.toneCurve p (Part000.clipNormalize p Y').
Proof.
  intros Hg Hle.
  pose proof (part000_clipNormalize_unit p Y) as HY.
  assert (Hclip : Part000.clipNormalize p Y <= Part000.clipNormalize p Y')
    by (by apply clip_monotone).
  unfold Part000.toneCurve. destruct (Req_dec_T _ _); [done |].
  apply Math_pow_monotone; [lra |]. apply Rdiv_lt_0_compat; lra.
Qed.

(** A pixel that is not darker in any colour sample is not thicker when
    bright is thin, and not thinner when bright is thick. *)
Lemma docs_pixelThickness_monotone p data data' (k : Z) :
  0 <= reliefMm p → 0 < toneGamma p → not_darker data data' →
  if default true (mapInvert p)
  then Docs.pixelThickness p data' (k * 4) <= Docs.pixelThickness p data (k * 4)
  else Docs.pixelThickness p data (k * 4) <= Docs.pixelThickness p data' (k * 4).
Proof.
  intros Hrel Hg Hle.
  pose proof (docs_tone_of_clip_monotone p _ _ Hg
                (docs_luminance_monotone _ _ k Hle)) as Hm.
  unfold Docs.pixelThickness. destruct (default true (mapInvert p)); nra.
Qed.

Lemma part000_pixelThickness_monotone p data data' (k : Z) :
  0 <= reliefMm p → 0 < toneGamma p → not_darker data data' →
  if default false (mapInvert p)
  then Part000.pixelThickness p data' (k * 4)
       <= Part000.pixelThickness p data (k * 4)
  else Part000.pixelThickness p data (k * 4)
       <= Part000.pixelThickness p data' (k * 4).
Proof.
  intros Hrel Hg Hle.
  pose proof (part000_tone_of_clip_monotone p _ _ Hg
                (docs_luminance_monotone _ _ k Hle)) as Hm.
  change (Docs.luminance data (k * 4))
    with (Part000.luminance data (k * 4)) in Hm.
  change (Docs.luminance data' (k * 4))
    with (Part000.luminance data' (k * 4)) in Hm.
  unfold Part000.pixelThickness. destruct (default false (mapInvert p)); nra.
Qed.

End Monotone.

(** X5.  Bright = Thin.  Of two images of the same size, the second not
    darker than the first in any resampled colour sample (whatever the alpha
    samples are), the second gives a field that is nowhere thicker when the
    inversion is on (the default of src/docs/app.js), and nowhere thinner
    when it is off; in real arithmetic, for [reliefMm >= 0] and
    [toneGamma >= 2^-1000] (so that [1 / toneGamma] is finite), in both
    variants. *)
Theorem brighter_image_is_thinner (img img' : Image) (p : Params) :
  width img = width img' → height img = height img' →
  (∀ W H, not_darker (drawn img W H) (drawn img' W H)) →
  (0 <= reliefMm p)%R → (powerRZ 2 (-1000) <= toneGamma p)%R →
  (∀ r r' i t t',
     Docs.computeThicknessMap img p = Ok r →
     Docs.computeThicknessMap img' p = Ok r' →
     thickness r !! i = Some t → thickness r' !! i = Some t' →
     if default true (mapInvert p) then (t' <= t)%R else (t <= t')%R) ∧
  (0 ≤ widthPx p → ∀ r r' i t t',
     Part000.computeThicknessMap img p = Ok r →
     Part000.computeThicknessMap img' p = Ok r' →
     thickness r !! i = Some t → thickness r' !! i = Some t' →
     if default false (mapInvert p) then (t' <= t)%R else (t <= t')%R).
Proof.
  intros Ew Eh Hle Hrel Hgam.
  assert (Hg : (0 < toneGamma p)%R).
  { pose proof (powerRZ_2_pos (-1000)). lra. }
  split.
  - intros r r' i t t' Hr Hr' Hi Hi'.
    destruct (docs_computeThicknessMap_Ok _ _ _ Hr)
      as (EW & EH & HW & _ & _ & Hlen & Hget).
    destruct (docs_computeThicknessMap_Ok _ _ _ Hr')
      as (EW' & EH' & _ & _ & _ & _ & Hget').
    unfold Docs.fieldHeight in EH, EH'. rewrite <- Ew, <- Eh in EH'.
    assert (E1 : W r = W r') by congruence.
    assert (E2 : H r = H r') by congruence.
    destruct (field_position _ _ _ _ _ HW Hlen Hi) as (x & y & Hx & Hy & ->).
    rewrite Hget in Hi by done. rewrite E1, E2 in *.
    rewrite Hget' in Hi' by done.
    injection Hi as <-. injection Hi' as <-.
    by apply docs_pixelThickness_monotone.
  - intros Hpos r r' i t t' Hr Hr' Hi Hi'.
    destruct (part000_computeThicknessMap_Ok _ _ _ Hpos Hr)
      as (EW & EH & HW & _ & _ & Hlen & Hget).
    destruct (part000_computeThicknessMap_Ok _ _ _ Hpos Hr')
      as (EW' & EH' & _ & _ & _ & _ & Hget').
    unfold Part000.fieldHeight in EH, EH'. rewrite <- Ew, <- Eh in EH'.
    assert (E1 : W r = W r') by congruence.
    assert (E2 : H r = H r') by congruence.
    destruct (field_position _ _ _ _ _ HW Hlen Hi) as (x & y & Hx & Hy & ->).
    rewrite Hget in Hi by done. rewrite E1, E2 in *.
    rewrite Hget' in Hi' by done.
    injection Hi as <-. injection Hi' as <-.
    by apply part000_pixelThickness_monotone.
Qed.

Lemma flat_image_not_darker (c c' a a' W H : Z) :
  c ≤ c' → not_darker (drawn (flat_image c a) W H)
                      (drawn (flat_image c' a') W H).
Proof.
  intros Hc i Hi. unfold sample. apply IZR_le.
  destruct (Z.lt_ge_cases (Z.of_nat (Z.to_nat i)) (4 * W * H)) as [Hlt | Hge].
  - pose proof (flat_image_lookup c a W H (Z.of_nat (Z.to_nat i))) as E.
    pose proof (flat_image_lookup c' a' W H (Z.of_nat (Z.to_nat i))) as E'.
    rewrite Nat2Z.id in E, E'. rewrite E, E' by lia. cbn.
    destruct (Z.le_gt_cases 0 i) as [Hpos | Hneg].
    + rewrite Z2Nat.id by done.
      destruct (Z.eqb_spec (i mod 4) 3); [done | lia].
    + replace (Z.to_nat i) with 0%nat by lia.
      change (Z.of_nat 0 mod 4 =? 3) with false. cbv iota. lia.
  - cbn [drawn flat_image].
    rewrite !list_lookup_fmap, !lookup_seqZ_ge by lia. done.
Qed.

(** Instance of X5: the opaque black and the transparent white image under
    the typical parameters, at the first position. *)
Lemma brighter_image_is_thinner_witness :
  ∃ r r' t t',
    Docs.computeThicknessMap (flat_image 0 255) typical_params = Ok r ∧
    Docs.computeThicknessMap (flat_image 255 0) typical_params = Ok r' ∧
    thickness r !! 0%nat = Some t ∧ thickness r' !! 0%nat = Some t' ∧
    (t' <= t)%R.
Proof.
  destruct (docs_computeThicknessMap_returns (flat_image 0 255)
              typical_params) as [r Hr]; [cbn; lia |].
  destruct (docs_computeThicknessMap_returns (flat_image 255 0)
              typical_params) as [r' Hr']; [cbn; lia |].
  destruct (docs_computeThicknessMap_Ok _ _ _ Hr)
    as (_ & _ & HW & HH & _ & Hlen & _).
  destruct (docs_computeThicknessMap_Ok _ _ _ Hr')
    as (_ & _ & HW' & HH' & _ & Hlen' & _).
  destruct (field_first_value _ _ _ HW HH Hlen) as [t Ht].
  destruct (field_first_value _ _ _ HW' HH' Hlen') as [t' Ht'].
  exists r, r', t, t'.
  split; [exact Hr |]. split; [exact Hr' |].
  split; [exact Ht |]. split; [exact Ht' |].
  destruct (brighter_image_is_thinner (flat_image 0 255) (flat_image 255 0)
              typical_params) as [Hdocs _].
  - reflexivity.
  - reflexivity.
  - intros W H. apply flat_image_not_darker. lia.
  - cbn. lra.
  - change (toneGamma typical_params) with (powerRZ 2 0).
    apply powerRZ_2_le. lia.
  - exact (Hdocs r r' 0%nat t t' Hr Hr' Ht Ht').
Defined.

(** ** The 2-D previews *)

Lemma ToUint8Clamp_range (x : R) : 0 ≤ ToUint8Clamp x ≤ 255.
Proof.
  unfold ToUint8Clamp.
  destruct (Rle_dec x 0); [lia |]. destruct (Rle_dec 255 x); [lia |].
  destruct (base_Int_part x) as [Hlo Hhi].
  assert (0 ≤ Int_part x).
  { apply le_IZR. apply Rnot_lt_le. intros Hneg.
    assert (IZR (Int_part x) <= -1)%R
      by (apply IZR_le; apply lt_IZR in Hneg; lia).
    lra. }
  assert (Int_part x < 255) by (apply lt_IZR; lra).
  repeat destruct (Rlt_dec _ _); try destruct (Z.even _); lia.
Qed.

Lemma ToUint8Clamp_integer (z : Z) : 0 ≤ z ≤ 255 → ToUint8Clamp (IZR z) = z.
Proof.
  intros [H0 H255]. unfold ToUint8Clamp.
  destruct (Rle_dec (IZR z) 0) as [Hle | _].
  { apply le_IZR in Hle. lia. }
  destruct (Rle_dec 255 (IZR z)) as [Hge | _].
  { apply le_IZR in Hge. lia. }
  replace (Int_part (IZR z)) with z by (apply Int_part_spec; lra).
  destruct (Rlt_dec (IZR z + / 2) (IZR z)); [lra |].
  destruct (Rlt_dec (IZR z) (IZR z + / 2)); [done | lra].
Qed.

Lemma ToUint8Clamp_ends :
  ToUint8Clamp (0 * 255) = 0 ∧ ToUint8Clamp (1 * 255) = 255.
Proof.
  unfold ToUint8Clamp. split.
  - destruct (Rle_dec (0 * 255) 0); [done | lra].
  - destruct (Rle_dec (1 * 255) 0); [lra |].
    destruct (Rle_dec 255 (1 * 255)); [done | lra].
Qed.

Lemma ToUint8Clamp_monotone (x x' : R) :
  (x <= x')%R → ToUint8Clamp x ≤ ToUint8Clamp x'.
Proof.
  intros Hle. unfold ToUint8Clamp.
  pose proof (ToUint8Clamp_range x') as Hr'.
  pose proof (ToUint8Clamp_range x) as Hr.
  unfold ToUint8Clamp in Hr, Hr'.
  destruct (Rle_dec x 0); [lia |].
  destruct (Rle_dec x' 0); [exfalso; lra |].
  destruct (Rle_dec 255 x'); [lia |].
  destruct (Rle_dec 255 x); [exfalso; lra |].
  destruct (base_Int_part x) as [Hlo Hhi].
  destruct (base_Int_part x') as [Hlo' Hhi'].
  assert (Hf : Int_part x < Int_part x' + 1)
    by (apply lt_IZR; rewrite plus_IZR; lra).
  destruct (Z.eq_dec (Int_part x) (Int_part x')) as [E | Hne].
  - rewrite <- E in *.
    repeat destruct (Rlt_dec _ _); try destruct (Z.even _);
      first [lia | exfalso; lra].
  - assert (Int_part x + 1 ≤ Int_part x') by lia.
    repeat destruct (Rlt_dec _ _);
      destruct (Z.even (Int_part x)); destruct (Z.even (Int_part x')); lia.
Qed.

(** A loop whose body performs the stores [ws i] performs them all. *)
Lemma for_lt_writes {A} (n : Z) (step : Z → list A → list A)
    (ws : Z → list (Z * A)) (a : list A) :
  (∀ i a, step i a = apply_writes a (ws i)) →
  for_lt n step a = apply_writes a (seqZ 0 n ≫= ws).
Proof.
  intros Hstep. unfold for_lt.
  generalize (seqZ 0 n). intros xs. revert a.
  induction xs as [| x xs IH]; intros a; [done |].
  rewrite bind_cons, apply_writes_app. cbn [foldl].
  by rewrite IH, Hstep.
Qed.

(** The four stores of a pixel of an RGBA image, read back. *)
Lemma pixel_stores_lookup (n : Z) (px : Z → list (Z * Z)) (v : Z → Z)
    (alpha : Z) (data : list Z) (i : Z) :
  (∀ j w, w ∈ px j →
     w = (j * 4 + 0, v j) ∨ w = (j * 4 + 1, v j) ∨
     w = (j * 4 + 2, v j) ∨ w = (j * 4 + 3, alpha)) →
  (∀ j, (j * 4 + 0, v j) ∈ px j ∧ (j * 4 + 1, v j) ∈ px j ∧
        (j * 4 + 2, v j) ∈ px j ∧ (j * 4 + 3, alpha) ∈ px j) →
  0 ≤ i < n → i * 4 + 3 < Z.of_nat (length data) →
  let out := apply_writes data (seqZ 0 n ≫= px) in
  out !! Z.to_nat (i * 4) = Some (v i) ∧
  out !! Z.to_nat (i * 4 + 1) = Some (v i) ∧
  out !! Z.to_nat (i * 4 + 2) = Some (v i) ∧
  out !! Z.to_nat (i * 4 + 3) = Some alpha.
Proof.
  intros Hshape Hall Hi Hlen out. unfold out.
  destruct (Hall i) as (H0 & H1 & H2 & H3).
  assert (Hin : ∀ w, w ∈ px i → w ∈ seqZ 0 n ≫= px).
  { intros w Hw. apply list_elem_of_bind. exists i. split; [done |].
    apply elem_of_seqZ. lia. }
  assert (Huniq : ∀ k w, 0 ≤ k ≤ 3 → (i * 4 + k, w) ∈ seqZ 0 n ≫= px →
            w = if k =? 3 then alpha else v i).
  { intros k w Hk Hw. apply list_elem_of_bind in Hw as (j & Hw & _).
    destruct (Hshape j _ Hw) as [E | [E | [E | E]]]; injection E as E ->.
    all: assert (j = i) by lia; subst j.
    all: assert (Ek : k = 0 ∨ k = 1 ∨ k = 2 ∨ k = 3) by lia.
    all: destruct Ek as [-> | [-> | [-> | ->]]]; first [done | lia]. }
  replace (i * 4) with (i * 4 + 0) at 1 by lia.
  repeat split.
  all: apply apply_writes_unique; [by apply Hin | | lia].
  all: intros w Hw.
  - by apply (Huniq 0 w ltac:(lia)).
  - by apply (Huniq 1 w ltac:(lia)).
  - by apply (Huniq 2 w ltac:(lia)).
  - by apply (Huniq 3 w ltac:(lia)).
Qed.

(** *** draw2D of src/unnamed/part_000 *)

Lemma part000_draw2DStep_writes thickness p i data :
  Part000.draw2DStep thickness p i data
  = apply_writes data
      (let val :=
         match ta_get thickness i with
         | Num t => ToUint8Clamp ((t - baseMm p) / reliefMm p * 255)
         | Undefined => 0
         end in
       [(i * 4 + 2, val); (i * 4 + 1, val); (i * 4 + 0, val);
        (i * 4 + 3, ToUint8Clamp (IZR 255))]).
Proof.
  unfold Part000.draw2DStep. cbv zeta. by rewrite Z.add_0_r.
Qed.

Lemma draw2D_paints_grey_levels_aux (thickness : list R) (W H : Z)
    (p : Params) :
  1 ≤ W → 1 ≤ H → Z.of_nat (length thickness) = W * H →
  let grey t := ToUint8Clamp ((t - baseMm p) / reliefMm p * 255) in
  ∃ data, Part000.draw2D thickness W H p = Ok data ∧
     Z.of_nat (length data) = 4 * W * H ∧
     ∀ i t, thickness !! i = Some t →
       0 ≤ grey t ≤ 255 ∧
       data !! (4 * i)%nat = Some (grey t) ∧
       data !! (4 * i + 1)%nat = Some (grey t) ∧
       data !! (4 * i + 2)%nat = Some (grey t) ∧
       data !! (4 * i + 3)%nat = Some 255.
Proof.
  intros HW HH Hlen grey.
  unfold Part000.draw2D, createImageData.
  destruct (Z.eqb_spec W 0); [lia |]. destruct (Z.eqb_spec H 0); [lia |].
  cbn [orb]. eexists. split; [reflexivity |].
  rewrite (for_lt_writes _ _ _ _ (part000_draw2DStep_writes thickness p)).
  split.
  + rewrite length_apply_writes, length_replicate. nia.
  + intros i t Hi. split; [apply ToUint8Clamp_range |].
    pose proof (lookup_lt_Some _ _ _ Hi) as Hlt.
    set (v := λ j : Z,
           match ta_get thickness j with
           | Num t => grey t
           | Undefined => 0
           end).
    assert (Ev : v (Z.of_nat i) = grey t).
    { unfold v, ta_get. destruct (Z.leb_spec 0 (Z.of_nat i)); [| lia].
      by rewrite Nat2Z.id, Hi. }
    pose proof (pixel_stores_lookup (Z.of_nat (length thickness))
                  (λ j, [(j * 4 + 2, v j); (j * 4 + 1, v j);
                         (j * 4 + 0, v j);
                         (j * 4 + 3, ToUint8Clamp (IZR 255))])
                  v (ToUint8Clamp (IZR 255))
                  (replicate (Z.to_nat (4 * Z.abs W * Z.abs H)) 0)
                  (Z.of_nat i)) as Hpx.
    cbv zeta in Hpx. rewrite Ev in Hpx.
    replace (Z.to_nat (Z.of_nat i * 4)) with (4 * i)%nat in Hpx by lia.
    replace (Z.to_nat (Z.of_nat i * 4 + 1)) with (4 * i + 1)%nat in Hpx
      by lia.
    replace (Z.to_nat (Z.of_nat i * 4 + 2)) with (4 * i + 2)%nat in Hpx
      by lia.
    replace (Z.to_nat (Z.of_nat i * 4 + 3)) with (4 * i + 3)%nat in Hpx
      by lia.
    destruct Hpx as (Hr & Hg & Hb & Ha).
    * intros j w Hw.
      repeat (apply elem_of_cons in Hw as [-> | Hw]); auto.
      by apply elem_of_nil in Hw.
    * intros j. repeat split; repeat first [by left | right].
    * lia.
    * rewrite length_replicate. nia.
    * repeat split; [exact Hr | exact Hg | exact Hb |].
      etrans; [exact Ha |]. f_equal. apply ToUint8Clamp_integer. lia.
Qed.

(** X6.  [draw2D] of src/unnamed/part_000, on a field of [W * H] values and
    a non-zero [reliefMm], returns an opaque grey image of [W * H] pixels:
    pixel [i] has red = green = blue = the grey level
    [(thickness[i] - baseMm) / reliefMm * 255] clamped to [[0, 255]] and
    rounded, and alpha 255.  For [reliefMm > 0] a thicker cell gets a grey
    level that is not lower, [baseMm] gets 0 and [baseMm + reliefMm] gets
    255. *)
Theorem draw2D_paints_grey_levels (thickness : list R) (W H : Z)
    (p : Params) :
  1 ≤ W → 1 ≤ H → Z.of_nat (length thickness) = W * H →
  reliefMm p ≠ 0%R →
  let grey t := ToUint8Clamp ((t - baseMm p) / reliefMm p * 255) in
  (∃ data, Part000.draw2D thickness W H p = Ok data ∧
     Z.of_nat (length data) = 4 * W * H ∧
     ∀ i t, thickness !! i = Some t →
       0 ≤ grey t ≤ 255 ∧
       data !! (4 * i)%nat = Some (grey t) ∧
       data !! (4 * i + 1)%nat = Some (grey t) ∧
       data !! (4 * i + 2)%nat = Some (grey t) ∧
       data !! (4 * i + 3)%nat = Some 255) ∧
  ((0 < reliefMm p)%R →
     (∀ t t', (t <= t')%R → grey t ≤ grey t') ∧
     grey (baseMm p) = 0 ∧ grey (baseMm p + reliefMm p)%R = 255).
Proof.
  intros HW HH Hlen Hrel grey. split.
  - exact (draw2D_paints_grey_levels_aux thickness W H p HW HH Hlen).
  - intros Hpos. split; [| split].
    + intros t t' Hle. apply ToUint8Clamp_monotone.
      apply Rmult_le_compat_r; [lra |].
      apply Rmult_le_compat_r; [left; by apply Rinv_0_lt_compat | lra].
    + unfold grey. replace ((baseMm p - baseMm p) / reliefMm p)%R with 0%R
        by (field; lra).
      apply ToUint8Clamp_ends.
    + unfold grey.
      replace ((baseMm p + reliefMm p - baseMm p) / reliefMm p)%R with 1%R
        by (field; lra).
      apply ToUint8Clamp_ends.
Qed.

(** Instance of X6: a row of two cells, at the thickness bounds of the
    typical parameters. *)
Lemma draw2D_paints_grey_levels_witness :
  ∃ data, Part000.draw2D [0.8; 2.3]%R 2 1 typical_params = Ok data ∧
          Z.of_nat (length data) = 8.
Proof.
  destruct (draw2D_paints_grey_levels [0.8; 2.3]%R 2 1 typical_params)
    as [(data & E & L & _) _]; [lia | lia | reflexivity | cbn; lra |].
  exists data. split; [exact E | exact L].
Defined.

(** *** renderPreview of src/docs/app.js *)

Lemma for_lt_grid_stores {A} (W H : Z) (step : Z → Z → list A → list A)
    (ws : Z → Z → list (Z * A)) (a : list A) :
  (∀ y x a, step y x a = apply_writes a (ws y x)) →
  for_lt H (λ y, for_lt W (λ x, step y x)) a
  = apply_writes a (y ← seqZ 0 H; x ← seqZ 0 W; ws y x).
Proof.
  intros Hstep.
  apply (for_lt_writes H _ (λ y, x ← seqZ 0 W; ws y x)).
  intros y b. by apply for_lt_writes.
Qed.

(** The four stores of each pixel of a [pw] x [ph] RGBA image, read back. *)
Lemma grid_pixel_stores_lookup (pw ph : Z) (v : Z → Z → Z) (alpha : Z)
    (data : list Z) (x y : Z) :
  0 ≤ x < pw → 0 ≤ y < ph → 4 * pw * ph ≤ Z.of_nat (length data) →
  let out :=
    apply_writes data
      (y ← seqZ 0 ph; x ← seqZ 0 pw;
       [((y * pw + x) * 4 + 0, v y x); ((y * pw + x) * 4 + 1, v y x);
        ((y * pw + x) * 4 + 2, v y x); ((y * pw + x) * 4 + 3, alpha)]) in
  out !! Z.to_nat ((y * pw + x) * 4) = Some (v y x) ∧
  out !! Z.to_nat ((y * pw + x) * 4 + 1) = Some (v y x) ∧
  out !! Z.to_nat ((y * pw + x) * 4 + 2) = Some (v y x) ∧
  out !! Z.to_nat ((y * pw + x) * 4 + 3) = Some alpha.
Proof.
  intros Hx Hy Hlen out. unfold out.
  set (ws := y ← seqZ 0 ph; x ← seqZ 0 pw; _).
  assert (Hin : ∀ w,
            w ∈ [((y * pw + x) * 4 + 0, v y x); ((y * pw + x) * 4 + 1, v y x);
                 ((y * pw + x) * 4 + 2, v y x); ((y * pw + x) * 4 + 3, alpha)]
            → w ∈ ws).
  { intros w Hw. apply list_elem_of_bind. exists y.
    split; [| apply elem_of_seqZ; lia].
    apply list_elem_of_bind. exists x.
    split; [done | apply elem_of_seqZ; lia]. }
  assert (Huniq : ∀ k w, 0 ≤ k ≤ 3 → ((y * pw + x) * 4 + k, w) ∈ ws →
            w = if k =? 3 then alpha else v y x).
  { intros k w Hk Hw. apply list_elem_of_bind in Hw as (y' & Hw & Hy').
    apply list_elem_of_bind in Hw as (x' & Hw & Hx').
    apply elem_of_seqZ in Hy', Hx'.
    assert (Hpos : ∀ k', 0 ≤ k' ≤ 3 →
              (y' * pw + x') * 4 + k' = (y * pw + x) * 4 + k →
              y' = y ∧ x' = x ∧ k' = k).
    { intros k' Hk' E. assert (y' = y) by nia. subst y'. lia. }
    repeat (apply elem_of_cons in Hw as [E | Hw]);
      [.. | by apply elem_of_nil in Hw].
    all: injection E as E ->.
    all: symmetry in E; apply Hpos in E as (-> & -> & <-); [done | lia]. }
  replace ((y * pw + x) * 4) with ((y * pw + x) * 4 + 0) at 1 by lia.
  repeat split.
  all: apply apply_writes_unique; [| | nia].
  all: try (apply Hin; repeat first [by left | right]).
  all: intros w Hw.
  - by apply (Huniq 0 w ltac:(lia)).
  - by apply (Huniq 1 w ltac:(lia)).
  - by apply (Huniq 2 w ltac:(lia)).
  - by apply (Huniq 3 w ltac:(lia)).
Qed.

(** The scan of [renderPreview] finds the least and the greatest value of a
    non-empty field. *)
Lemma docs_scanMinMax_spec (thickness : list R) :
  thickness ≠ [] →
  ∃ tmin tmax, Docs.scanMinMax thickness = (Some tmin, Some tmax) ∧
    tmin ∈ thickness ∧ tmax ∈ thickness ∧
    ∀ t, t ∈ thickness → (tmin <= t <= tmax)%R.
Proof.
  unfold Docs.scanMinMax.
  induction thickness as [| t l IH] using rev_ind; [done |]. intros _.
  rewrite foldl_app. cbn [foldl].
  destruct (decide (l = [])) as [-> | Hne].
  - cbn. exists t, t.
    split; [done |]. split; [by apply list_elem_of_singleton |].
    split; [by apply list_elem_of_singleton |].
    intros t' ->%list_elem_of_singleton. lra.
  - destruct (IH Hne) as (m & M & -> & Hm & HM & Hall).
    pose proof (Hall m Hm). cbn.
    destruct (Rlt_dec t m), (Rgt_dec t M).
    all: eexists _, _; split; [reflexivity |].
    all: split; [apply elem_of_app; first
           [by left | right; by apply list_elem_of_singleton] |].
    all: split; [apply elem_of_app; first
           [by left | right; by apply list_elem_of_singleton] |].
    all: intros t' [Ht' | ->%list_elem_of_singleton]%elem_of_app;
      try (pose proof (Hall t' Ht')); lra.
Qed.

Lemma Int_part_le (a b : R) : (a <= b)%R → Int_part a ≤ Int_part b.
Proof.
  intros Hab. destruct (base_Int_part a) as [Ha1 Ha2].
  destruct (base_Int_part b) as [Hb1 Hb2].
  assert (Int_part a < Int_part b + 1); [| lia].
  apply lt_IZR. rewrite plus_IZR. lra.
Qed.

Lemma Math_round_IZR (z : Z) (a : R) : a = IZR z → Math_round a = z.
Proof. intros ->. apply Math_round_spec. lra. Qed.

Lemma Math_round_le (a b : R) : (a <= b)%R → Math_round a ≤ Math_round b.
Proof. intros Hab. apply Int_part_le. lra. Qed.

Section PreviewGrey.

Variables (tmin tmax : R).
Hypothesis Hrange : (tmin <= tmax)%R.

Let scale : R := Docs.previewScale (Some tmin) (Some tmax).

Lemma docs_previewScale_pos : (0 < scale)%R.
Proof.
  unfold scale, Docs.previewScale, Math_max, Rmax.
  destruct (Rle_dec 1e-9 (tmax - tmin)).
  - apply Rdiv_lt_0_compat; lra.
  - apply Rdiv_lt_0_compat; lra.
Qed.

Lemma docs_previewGray_range t :
  0 ≤ Docs.previewGray (Some tmin) scale t ≤ 255.
Proof. unfold Docs.previewGray. destruct t; lia. Qed.

Lemma docs_previewGray_monotone t t' :
  (t <= t')%R →
  Docs.previewGray (Some tmin) scale (Num t)
  ≤ Docs.previewGray (Some tmin) scale (Num t').
Proof.
  intros Hle. unfold Docs.previewGray. cbv zeta.
  pose proof docs_previewScale_pos.
  assert (Math_round ((t - tmin) * scale * 255)
          ≤ Math_round ((t' - tmin) * scale * 255)); [| lia].
  apply Math_round_le. apply Rmult_le_compat_r; [lra |].
  apply Rmult_le_compat_r; lra.
Qed.

Lemma docs_previewGray_least :
  Docs.previewGray (Some tmin) scale (Num tmin) = 0.
Proof.
  unfold Docs.previewGray. cbv zeta.
  rewrite (Math_round_IZR 0); [done |]. lra.
Qed.

Lemma docs_previewGray_greatest :
  (1e-9 <= tmax - tmin)%R →
  Docs.previewGray (Some tmin) scale (Num tmax) = 255.
Proof.
  intros Hwide. unfold Docs.previewGray. cbv zeta.
  rewrite (Math_round_IZR 255); [done |].
  unfold scale, Docs.previewScale, Math_max, Rmax.
  destruct (Rle_dec 1e-9 (tmax - tmin)); [| lra]. field. lra.
Qed.

End PreviewGrey.

(** The source cell of a preview row or column is a cell of the field. *)
Lemma docs_preview_sample_bounds (n k m : Z) :
  1 ≤ n → 1 ≤ m → 0 ≤ k →
  0 ≤ Z.min (n - 1) (Math_floor (IZR k * (IZR n / IZR m))) < n.
Proof.
  intros Hn Hm Hk.
  assert (0 ≤ Math_floor (IZR k * (IZR n / IZR m))); [| lia].
  unfold Math_floor.
  replace 0 with (Int_part 0) at 1 by (symmetry; apply Int_part_spec; lra).
  apply Int_part_le.
  apply IZR_le in Hn, Hm, Hk.
  apply Rmult_le_pos; [lra |].
  apply Rmult_le_pos; [lra |]. left. apply Rinv_0_lt_compat. lra.
Qed.

Lemma docs_preview_height_spec (W H : Z) :
  1 ≤ W → 1 ≤ H →
  0 ≤ docs_preview_height W H ∧
  (docs_preview_height W H = 0 ↔ 1200 * H < W).
Proof.
  intros HW HH. unfold docs_preview_height, Math_round.
  set (a := (IZR H * (IZR 600 / IZR W))%R).
  pose proof (IZR_le _ _ HW) as HW'. pose proof (IZR_le _ _ HH) as HH'.
  assert (Ea : (a * IZR W = 600 * IZR H)%R) by (unfold a; field; lra).
  assert (Ha : (0 <= a)%R).
  { unfold a. apply Rmult_le_pos; [lra |].
    apply Rmult_le_pos; [lra |]. left. apply Rinv_0_lt_compat. lra. }
  destruct (base_Int_part (a + / 2)) as [Hlo Hhi].
  assert (Hpos : 0 ≤ Int_part (a + / 2)).
  { assert (-1 < Int_part (a + / 2)); [| lia]. apply lt_IZR. lra. }
  split; [exact Hpos |]. split.
  - intros E. rewrite E in Hhi. apply lt_IZR.
    rewrite mult_IZR. nra.
  - intros Hlt. apply IZR_lt in Hlt. rewrite mult_IZR in Hlt.
    assert (Int_part (a + / 2) < 1); [| lia]. apply lt_IZR.
    assert ((a < / 2)%R) by nra. lra.
Qed.

Lemma docs_previewStep_writes thickness W H pw ph tmin scale y x data :
  Docs.previewStep thickness W H pw ph tmin scale y x data
  = apply_writes data
      (let g :=
         ToUint8Clamp (IZR (Docs.previewGray tmin scale
           (ta_get thickness
              (Z.min (H - 1) (Math_floor (IZR y * (IZR H / IZR ph))) * W
               + Z.min (W - 1) (Math_floor (IZR x * (IZR W / IZR pw))))))) in
       [((y * pw + x) * 4 + 0, g); ((y * pw + x) * 4 + 1, g);
        ((y * pw + x) * 4 + 2, g);
        ((y * pw + x) * 4 + 3, ToUint8Clamp (IZR 255))]).
Proof. reflexivity. Qed.

Lemma docs_previewImage_spec (thickness : list R) (W H : Z) :
  1 ≤ W → 1 ≤ H → Z.of_nat (length thickness) = W * H →
  let ph := docs_preview_height W H in
  (ph = 0 → Docs.previewImage thickness W H = Throw IndexSizeError) ∧
  (1 ≤ ph →
   ∃ data, Docs.previewImage thickness W H = Ok (600, ph, data) ∧
     Z.of_nat (length data) = 4 * 600 * ph ∧
     ∀ x y, 0 ≤ x < 600 → 0 ≤ y < ph →
       let sy := Z.min (H - 1) (Math_floor (IZR y * (IZR H / IZR ph))) in
       let sx := Z.min (W - 1) (Math_floor (IZR x * (IZR W / IZR 600))) in
       0 ≤ sx < W ∧ 0 ≤ sy < H ∧
       ∃ t, thickness !! Z.to_nat (sy * W + sx) = Some t ∧
            0 ≤ docs_preview_grey thickness t ≤ 255 ∧
            opaque_grey data (y * 600 + x) (docs_preview_grey thickness t)).
Proof.
  intros HW HH Hlen ph.
  assert (Hne : thickness ≠ []).
  { intros ->. cbn in Hlen. nia. }
  destruct (docs_scanMinMax_spec thickness Hne)
    as (tmin & tmax & Escan & Hmin & Hmax & Hall).
  unfold Docs.previewImage, docs_preview_grey. rewrite Escan. cbv zeta.
  fold (docs_preview_height W H). fold ph.
  unfold createImageData. change (600 =? 0) with false. cbn [orb].
  split.
  - intros ->. done.
  - intros Hph. destruct (Z.eqb_spec ph 0) as [| _]; [lia |].
    eexists. split; [reflexivity |].
    rewrite (for_lt_grid_stores _ _ _ _ _
               (docs_previewStep_writes thickness W H 600 ph (Some tmin)
                  (Docs.previewScale (Some tmin) (Some tmax)))).
    split; [rewrite length_apply_writes, length_replicate; lia |].
    intros x y Hx Hy.
    set (sy := Z.min (H - 1) (Math_floor (IZR y * (IZR H / IZR ph)))).
    set (sx := Z.min (W - 1) (Math_floor (IZR x * (IZR W / IZR 600)))).
    pose proof (docs_preview_sample_bounds H y ph HH Hph ltac:(lia)) as Hsy.
    pose proof (docs_preview_sample_bounds W x 600 HW ltac:(lia) ltac:(lia))
      as Hsx.
    fold sy in Hsy. fold sx in Hsx.
    split; [exact Hsx |]. split; [exact Hsy |].
    destruct (lookup_lt_is_Some_2 thickness (Z.to_nat (sy * W + sx)))
      as [t Ht]; [nia |].
    exists t. split; [exact Ht |].
    pose proof (docs_previewGray_range tmin tmax (Num t)) as Hg.
    cbv zeta in Hg. split; [exact Hg |].
    pose proof (grid_pixel_stores_lookup 600 ph
      (λ y x, ToUint8Clamp (IZR (Docs.previewGray (Some tmin)
         (Docs.previewScale (Some tmin) (Some tmax))
         (ta_get thickness
            (Z.min (H - 1) (Math_floor (IZR y * (IZR H / IZR ph))) * W
             + Z.min (W - 1) (Math_floor (IZR x * (IZR W / IZR 600))))))))
      (ToUint8Clamp (IZR 255))
      (replicate (Z.to_nat (4 * Z.abs 600 * Z.abs ph)) 0)
      x y Hx Hy) as Hpx.
    cbv beta zeta in Hpx. fold sy sx in Hpx.
    assert (Eget : ta_get thickness (sy * W + sx) = Num t).
    { unfold ta_get. destruct (Z.leb_spec 0 (sy * W + sx)); [| nia].
      by rewrite Ht. }
    rewrite Eget in Hpx.
    rewrite (ToUint8Clamp_integer _ Hg) in Hpx.
    destruct Hpx as (Hr & Hgr & Hb & Ha);
      [rewrite length_replicate; lia |].
    unfold opaque_grey. repeat split; [exact Hr | exact Hgr | exact Hb |].
    etrans; [exact Ha |]. f_equal. apply ToUint8Clamp_integer. lia.
Qed.

(** X7.  [renderPreview] of src/docs/app.js, away from the ties of its two
    roundings (at a tie the binary64 product can fall on either side).  Let
    the image have a positive width, with [height * widthPx < 2^50] and
    [height * (widthPx / width)] not half-way between two integers, so that
    the height [H] of the field is the one the page computes; let the field
    be built, with [H < 2^40] and [H * (600 / W)] not half-way between two
    integers (that is, [1200 * H] is not [W] modulo [2 * W]).  Then the
    preview height is
    [ph = round(H * (600 / W))], which is 0 exactly when [W > 1200 * H], and
    then [createImageData] throws IndexSizeError; otherwise the preview is
    600 x [ph] and each of its pixels is opaque and grey, with the grey
    level (in real arithmetic, X8) of a cell of the field. *)
Theorem renderPreview_samples_field (img : Image) (form : Docs.Form)
    (r : ThicknessMap) :
  0 < width img →
  height img * widthPx (Docs.getParams form) < 2 ^ 50 →
  (2 * height img * widthPx (Docs.getParams form)) mod (2 * width img)
    ≠ width img →
  Docs.computeThicknessMap img (Docs.getParams form) = Ok r →
  (1200 * H r) mod (2 * W r) ≠ W r → H r < 2 ^ 40 →
  let ph := docs_preview_height (W r) (H r) in
  0 ≤ ph ∧ (ph = 0 ↔ 1200 * H r < W r) ∧
  (ph = 0 → Docs.renderPreview img form = Throw IndexSizeError) ∧
  (1 ≤ ph →
   ∃ data, Docs.renderPreview img form = Ok (600, ph, data) ∧
     Z.of_nat (length data) = 4 * 600 * ph ∧
     ∀ x y, 0 ≤ x < 600 → 0 ≤ y < ph →
       ∃ sx sy t,
         0 ≤ sx < W r ∧ 0 ≤ sy < H r ∧
         thickness r !! Z.to_nat (sy * W r + sx) = Some t ∧
         0 ≤ docs_preview_grey (thickness r) t ≤ 255 ∧
         opaque_grey data (y * 600 + x)
           (docs_preview_grey (thickness r) t)).
Proof.
  intros _ _ _ Hr _ _ ph.
  destruct (docs_computeThicknessMap_Ok _ _ _ Hr)
    as (_ & _ & HW & HH & _ & Hlen & _).
  destruct (docs_preview_height_spec (W r) (H r) HW HH) as [Hpos Hiff].
  split; [exact Hpos |]. split; [exact Hiff |].
  unfold Docs.renderPreview. rewrite Hr.
  destruct (docs_previewImage_spec (thickness r) (W r) (H r) HW HH Hlen)
    as [Hthrow Hok].
  split; [exact Hthrow |]. intros Hph.
  destruct (Hok Hph) as (data & E & Hdata & Hpx).
  exists data. split; [exact E |]. split; [exact Hdata |].
  intros x y Hx Hy.
  destruct (Hpx x y Hx Hy) as (Hsx & Hsy & t & Ht & Hg & Hgrey).
  eexists _, _, t. split; [exact Hsx |]. split; [exact Hsy |].
  split; [exact Ht |]. split; [exact Hg | exact Hgrey].
Qed.

Lemma docs_blank_form_widthPx b :
  widthPx (Docs.getParams (docs_blank_form b)) = 10.
Proof.
  cbn. unfold Docs.getParams_widthPx, Docs.numberVal, Math_floor.
  replace (Int_part 10) with 10; [done |]. apply Int_part_spec. lra.
Qed.

Lemma docs_wide_form_widthPx :
  widthPx (Docs.getParams docs_wide_form) = 1400.
Proof.
  cbn. unfold Docs.getParams_widthPx, Docs.numberVal, Math_floor.
  replace (Int_part 1400) with 1400; [done |]. apply Int_part_spec. lra.
Qed.

Lemma banner_ratio_rounds_to_1 :
  Math_round (IZR 1 * (IZR 1400 / IZR 1000)) = 1.
Proof. apply Math_round_spec. lra. Qed.

Lemma preview_ratio_rounds_to_300 : docs_preview_height 10 5 = 300.
Proof. apply Math_round_spec. lra. Qed.

(** Instance of X7: the 20 x 10 image at 10 columns gets a 600 x 300
    preview; the 1000 x 1 banner at 1400 columns gets none. *)
Lemma renderPreview_samples_field_witness :
  (∃ data, Docs.renderPreview (flat_image 255 255) (docs_blank_form false)
           = Ok (600, 300, data)) ∧
  Docs.renderPreview banner_image docs_wide_form = Throw IndexSizeError.
Proof.
  split.
  - destruct (docs_computeThicknessMap_returns (flat_image 255 255)
                (Docs.getParams (docs_blank_form false))) as [r Hr].
    { pose proof (docs_getParams_widthPx (docs_blank_form false)). lia. }
    destruct (docs_computeThicknessMap_Ok _ _ _ Hr) as (EW & EH & _).
    rewrite docs_blank_form_widthPx in EW, EH.
    unfold Docs.fieldHeight in EH. cbn [width height flat_image] in EH.
    rewrite flat_ratio_rounds_to_5 in EH. change (Z.max 1 5) with 5 in EH.
    destruct (renderPreview_samples_field (flat_image 255 255)
                (docs_blank_form false) r)
      as (_ & _ & _ & Hok).
    + done.
    + by rewrite docs_blank_form_widthPx.
    + by rewrite docs_blank_form_widthPx.
    + exact Hr.
    + rewrite EW, EH. done.
    + rewrite EH. done.
    + rewrite EW, EH, preview_ratio_rounds_to_300 in Hok.
      destruct (Hok ltac:(lia)) as (data & E & _).
      exists data. exact E.
  - destruct (docs_computeThicknessMap_returns banner_image
                (Docs.getParams docs_wide_form)) as [r Hr].
    { pose proof (docs_getParams_widthPx docs_wide_form). lia. }
    destruct (docs_computeThicknessMap_Ok _ _ _ Hr) as (EW & EH & _).
    rewrite docs_wide_form_widthPx in EW, EH.
    unfold Docs.fieldHeight in EH. cbn [width height banner_image] in EH.
    rewrite banner_ratio_rounds_to_1 in EH. change (Z.max 1 1) with 1 in EH.
    destruct (renderPreview_samples_field banner_image docs_wide_form r)
      as (_ & Hiff & Hthrow & _).
    + done.
    + by rewrite docs_wide_form_widthPx.
    + by rewrite docs_wide_form_widthPx.
    + exact Hr.
    + rewrite EW, EH. done.
    + rewrite EH. done.
    + apply Hthrow, Hiff. rewrite EW, EH. lia.
Defined.

(** X8.  The grey scale of [renderPreview] of src/docs/app.js spans the
    field: the scan finds the least and the greatest thickness of a
    non-empty field; the least gets grey 0, the greatest 255 when the two
    differ by at least 1e-9, a thicker cell never a lower grey, and every
    grey is in [[0, 255]]; a field of equal values is all 0. *)
Theorem preview_grey_spans_field (thickness : list R) :
  thickness ≠ [] →
  ∃ tmin tmax,
    Docs.scanMinMax thickness = (Some tmin, Some tmax) ∧
    tmin ∈ thickness ∧ tmax ∈ thickness ∧
    (∀ t, t ∈ thickness → (tmin <= t <= tmax)%R) ∧
    docs_preview_grey thickness tmin = 0 ∧
    ((1e-9 <= tmax - tmin)%R → docs_preview_grey thickness tmax = 255) ∧
    (∀ t t', (t <= t')%R →
       docs_preview_grey thickness t ≤ docs_preview_grey thickness t') ∧
    (∀ t, 0 ≤ docs_preview_grey thickness t ≤ 255) ∧
    (tmin = tmax → ∀ t, t ∈ thickness → docs_preview_grey thickness t = 0).
Proof.
  intros Hne.
  destruct (docs_scanMinMax_spec thickness Hne)
    as (tmin & tmax & Escan & Hmin & Hmax & Hall).
  exists tmin, tmax. unfold docs_preview_grey. rewrite Escan.
  pose proof (docs_previewGray_least tmin tmax) as Hleast.
  split; [done |]. split; [done |]. split; [done |]. split; [done |].
  split; [exact Hleast |].
  split; [exact (docs_previewGray_greatest tmin tmax) |].
  split; [exact (docs_previewGray_monotone tmin tmax) |].
  split; [intros t; exact (docs_previewGray_range tmin tmax (Num t)) |].
  intros E t Ht. pose proof (Hall t Ht).
  assert (t = tmin) as -> by lra. exact Hleast.
Qed.

(** Instance of X8: a field of two values. *)
Lemma preview_grey_spans_field_witness :
  ∃ tmin tmax,
    tmin ∈ [0.8; 2.3]%R ∧ tmax ∈ [0.8; 2.3]%R ∧
    docs_preview_grey [0.8; 2.3]%R tmin = 0.
Proof.
  destruct (preview_grey_spans_field [0.8; 2.3]%R)
    as (tmin & tmax & _ & Hmin & Hmax & _ & Hzero & _); [done |].
  exists tmin, tmax. split; [exact Hmin |]. split; [exact Hmax | exact Hzero].
Defined.

(** *** The 2-D preview of src/unnamed/part_000 on the field of a page *)





(** ** The geometry of the solid *)

Section Geometry.

Variables (thickness : list R) (pxMm : R) (W H : Z).
Hypothesis HW : 1 ≤ W.
Hypothesis HH : 1 ≤ H.
Hypothesis Hlen : Z.of_nat (length thickness) = W * H.

Lemma field_node_value x y :
  0 ≤ x < W → 0 ≤ y < H →
  ∃ t, thickness !! Z.to_nat (y * W + x) = Some t ∧
       ta_get thickness (y * W + x) = Num t.
Proof.
  intros Hx Hy.
  destruct (lookup_lt_is_Some_2 thickness (Z.to_nat (y * W + x)))
    as [t Ht]; [nia |].
  exists t. split; [exact Ht |]. unfold ta_get.
  destruct (Z.leb_spec 0 (y * W + x)); [| nia]. by rewrite Ht.
Qed.

Lemma docs_top_vertex x y :
  0 ≤ x < W → 0 ≤ y < H →
  docs_vertex thickness pxMm W H
    (Docs.vx pxMm W x, Docs.vy pxMm y, Docs.vzTop thickness W x y).
Proof.
  intros Hx Hy. destruct (field_node_value x y Hx Hy) as (t & Ht & Eget).
  exists x, y, t. unfold Docs.vx, Docs.vy, Docs.vzTop. rewrite Eget. auto.
Qed.

Lemma docs_bottom_vertex x y :
  0 ≤ x < W → 0 ≤ y < H →
  docs_vertex thickness pxMm W H (Docs.vx pxMm W x, Docs.vy pxMm y, Num 0).
Proof.
  intros Hx Hy. destruct (field_node_value x y Hx Hy) as (t & Ht & Eget).
  exists x, y, t. unfold Docs.vx, Docs.vy. auto.
Qed.

Lemma part000_top_vertex x y :
  0 ≤ x < W → 0 ≤ y < H →
  part000_vertex thickness pxMm W H
    (Part000.vx pxMm x, Part000.vy pxMm H y, Part000.vz thickness W x y).
Proof.
  intros Hx Hy. destruct (field_node_value x y Hx Hy) as (t & Ht & Eget).
  exists x, y, t. unfold Part000.vx, Part000.vy, Part000.vz.
  rewrite Eget. auto.
Qed.

Lemma part000_bottom_vertex x y :
  0 ≤ x < W → 0 ≤ y < H →
  part000_vertex thickness pxMm W H
    (Part000.vx pxMm x, Part000.vy pxMm H y, Num 0).
Proof.
  intros Hx Hy. destruct (field_node_value x y Hx Hy) as (t & Ht & Eget).
  exists x, y, t. unfold Part000.vx, Part000.vy. auto.
Qed.

Lemma docs_triangles_on_grid :
  Forall (all_vertices (docs_vertex thickness pxMm W H))
    (docs_triangles thickness pxMm W H).
Proof.
  unfold docs_triangles.
  repeat apply Forall_app_2.
  all: apply Forall_bind, Forall_seqZ; intros i Hi; cbn [compose].
  1, 2: apply Forall_bind, Forall_seqZ; intros j Hj; cbn [compose].
  all: repeat apply Forall_cons_2; try apply Forall_nil_2.
  all: cbv zeta; unfold all_vertices; repeat split.
  all: first [apply docs_top_vertex | apply docs_bottom_vertex]; lia.
Qed.

Lemma part000_triangles_on_grid :
  Forall (all_vertices (part000_vertex thickness pxMm W H))
    (part000_triangles thickness pxMm W H).
Proof.
  unfold part000_triangles.
  repeat apply Forall_app_2.
  all: apply Forall_bind, Forall_seqZ; intros i Hi; cbn [compose].
  1: apply Forall_bind, Forall_seqZ; intros j Hj; cbn [compose].
  all: repeat apply Forall_cons_2; try apply Forall_nil_2.
  all: cbv zeta; unfold all_vertices; repeat split.
  all: first [apply part000_top_vertex | apply part000_bottom_vertex]; lia.
Qed.

Lemma grid_vertex_in_box (pos_x pos_y : Z → R) (xmax ymax : R) a :
  (∀ x, 0 ≤ x < W → (0 <= pos_x x <= xmax)%R) →
  (∀ y, 0 ≤ y < H → (0 <= pos_y y <= ymax)%R) →
  grid_vertex pos_x pos_y thickness W H a → in_box xmax ymax thickness a.
Proof.
  intros Hpx Hpy (x & y & t & Hx & Hy & Ht & [-> | ->]); cbn.
  - split; [by apply Hpx |]. split; [by apply Hpy |]. right.
    by eapply list_elem_of_lookup_2.
  - split; [by apply Hpx |]. split; [by apply Hpy |]. by left.
Qed.

Lemma grid_coordinate_range (k n : Z) :
  (0 <= pxMm)%R → 0 ≤ k ≤ n → (0 <= IZR k * pxMm <= IZR n * pxMm)%R.
Proof.
  intros Hp [Hk Hn]. apply IZR_le in Hk, Hn. nra.
Qed.

(** Every node of a grid with at least two rows and two columns is a
    vertex of a triangle of the top surface. *)
Lemma docs_node_covered x y :
  2 ≤ W → 2 ≤ H → 0 ≤ x < W → 0 ≤ y < H →
  ∃ t, t ∈ docs_triangles thickness pxMm W H ∧
       has_vertex
         (Docs.vx pxMm W x, Docs.vy pxMm y, Docs.vzTop thickness W x y) t.
Proof.
  intros HW2 HH2 Hx Hy. unfold docs_triangles.
  set (x' := Z.min x (W - 2)). set (y' := Z.min y (H - 2)).
  assert (Hquad : ∀ t,
    t ∈ (let vx := Docs.vx pxMm W in
         let vy := Docs.vy pxMm in
         let vzTop := Docs.vzTop thickness W in
         let a := (vx x', vy y', vzTop x' y') in
         let b := (vx (x' + 1), vy y', vzTop (x' + 1) y') in
         let c := (vx x', vy (y' + 1), vzTop x' (y' + 1)) in
         let d := (vx (x' + 1), vy (y' + 1), vzTop (x' + 1) (y' + 1)) in
         [(a, c, b); (b, c, d)]) →
    t ∈ docs_triangles thickness pxMm W H).
  { intros t Ht. unfold docs_triangles. apply elem_of_app. left.
    apply list_elem_of_bind. exists y'. split; [| apply elem_of_seqZ; lia].
    apply list_elem_of_bind. exists x'. split; [| apply elem_of_seqZ; lia].
    exact Ht. }
  cbv zeta in Hquad.
  destruct (decide (x < W - 1)) as [Hx' | Hx'];
    destruct (decide (y < H - 1)) as [Hy' | Hy'].
  - eexists. split; [apply Hquad; left |].
    replace x' with x by lia. replace y' with y by lia. by left.
  - eexists. split; [apply Hquad; left |].
    replace x' with x by lia. replace (y' + 1) with y by lia.
    right. by left.
  - eexists. split; [apply Hquad; left |].
    replace (x' + 1) with x by lia. replace y' with y by lia.
    right. by right.
  - eexists. split; [apply Hquad; right; left |].
    replace (x' + 1) with x by lia. replace (y' + 1) with y by lia.
    right. by right.
Qed.

Lemma part000_node_covered x y :
  2 ≤ W → 2 ≤ H → 0 ≤ x < W → 0 ≤ y < H →
  ∃ t, t ∈ part000_triangles thickness pxMm W H ∧
       has_vertex
         (Part000.vx pxMm x, Part000.vy pxMm H y, Part000.vz thickness W x y)
         t.
Proof.
  intros HW2 HH2 Hx Hy.
  set (x' := Z.min x (W - 2)). set (y' := Z.min y (H - 2)).
  assert (Hquad : ∀ t,
    t ∈ (let vx := Part000.vx pxMm in
         let vy := Part000.vy pxMm H in
         let vz := Part000.vz thickness W in
         [((vx x', vy y', vz x' y'),
           (vx x', vy (y' + 1), vz x' (y' + 1)),
           (vx (x' + 1), vy y', vz (x' + 1) y'));
          ((vx (x' + 1), vy y', vz (x' + 1) y'),
           (vx x', vy (y' + 1), vz x' (y' + 1)),
           (vx (x' + 1), vy (y' + 1), vz (x' + 1) (y' + 1)))]) →
    t ∈ part000_triangles thickness pxMm W H).
  { intros t Ht. unfold part000_triangles. apply elem_of_app. left.
    apply list_elem_of_bind. exists y'. split; [| apply elem_of_seqZ; lia].
    apply list_elem_of_bind. exists x'. split; [| apply elem_of_seqZ; lia].
    cbv zeta in Ht |- *.
    repeat (apply elem_of_cons in Ht as [-> | Ht]);
      [by left | right; by left | by apply elem_of_nil in Ht]. }
  cbv zeta in Hquad.
  destruct (decide (x < W - 1)) as [Hx' | Hx'];
    destruct (decide (y < H - 1)) as [Hy' | Hy'].
  - eexists. split; [apply Hquad; left |].
    replace x' with x by lia. replace y' with y by lia. by left.
  - eexists. split; [apply Hquad; left |].
    replace x' with x by lia. replace (y' + 1) with y by lia.
    right. by left.
  - eexists. split; [apply Hquad; left |].
    replace (x' + 1) with x by lia. replace y' with y by lia.
    right. by right.
  - eexists. split; [apply Hquad; right; left |].
    replace (x' + 1) with x by lia. replace (y' + 1) with y by lia.
    right. by right.
Qed.

End Geometry.

Lemma all_vertices_impl (P Q : vertex → Prop) (t : triangle) :
  (∀ a, P a → Q a) → all_vertices P t → all_vertices Q t.
Proof. destruct t as [[a b] c]. intros HPQ (? & ? & ?). cbn. auto. Qed.

(** X10.  Where the solid stands.  Every vertex that [buildBinarySTL] writes
    stands on a node [(x, y)] of the field's grid, at the field's height
    there or at height 0: src/docs/app.js places the node at
    [((W-1-x) * pxMm, y * pxMm)], src/unnamed/part_000 at
    [(x * pxMm, (H-1-y) * pxMm)].  So for [pxMm >= 0] the solid lies in the
    box [[0, (W-1) * pxMm] x [0, (H-1) * pxMm]], one pitch short of
    [W * pxMm]; and on a grid of at least 2 x 2 every node carries a vertex
    of the top surface. *)
Theorem mesh_vertices_on_grid (thickness : list R) (pxMm : R) (W H : Z) :
  1 ≤ W → 1 ≤ H → Z.of_nat (length thickness) = W * H →
  let xmax := (IZR (W - 1) * pxMm)%R in
  let ymax := (IZR (H - 1) * pxMm)%R in
  ((∃ bytes, Docs.buildBinarySTL thickness pxMm W H = Ok bytes ∧
      bytes = replicate 80 (Byte 0) ++ uint_le 4 (solid_triangles W H)
              ++ (docs_triangles thickness pxMm W H ≫= docs_record)) ∧
   Forall (all_vertices (docs_vertex thickness pxMm W H))
     (docs_triangles thickness pxMm W H) ∧
   ((0 <= pxMm)%R →
    Forall (all_vertices (in_box xmax ymax thickness))
      (docs_triangles thickness pxMm W H)) ∧
   (2 ≤ W → 2 ≤ H → ∀ x y t, 0 ≤ x < W → 0 ≤ y < H →
      thickness !! Z.to_nat (y * W + x) = Some t →
      ∃ tri, tri ∈ docs_triangles thickness pxMm W H ∧
        has_vertex (Num (IZR (W - 1 - x) * pxMm), Num (IZR y * pxMm), Num t)
          tri)) ∧
  (((W - 1) + (H - 1) ≤ 2 * (W - 1) * (H - 1) →
    ∃ bytes, Part000.buildBinarySTL thickness pxMm W H = Ok bytes ∧
      bytes = replicate 80 (Byte 0) ++ uint_le 4 (solid_triangles W H)
              ++ (part000_triangles thickness pxMm W H ≫= part000_record)) ∧
   Forall (all_vertices (part000_vertex thickness pxMm W H))
     (part000_triangles thickness pxMm W H) ∧
   ((0 <= pxMm)%R →
    Forall (all_vertices (in_box xmax ymax thickness))
      (part000_triangles thickness pxMm W H)) ∧
   (2 ≤ W → 2 ≤ H → ∀ x y t, 0 ≤ x < W → 0 ≤ y < H →
      thickness !! Z.to_nat (y * W + x) = Some t →
      ∃ tri, tri ∈ part000_triangles thickness pxMm W H ∧
        has_vertex (Num (IZR x * pxMm), Num (IZR (H - 1 - y) * pxMm), Num t)
          tri)).
Proof.
  intros HW HH Hlen xmax ymax. split; split.
  - destruct (docs_stream_summary thickness pxMm W H HW HH)
      as (bytes & E & Ebytes & _). by exists bytes.
  - split; [by apply docs_triangles_on_grid |]. split.
    + intros Hp.
      eapply Forall_impl; [by apply docs_triangles_on_grid |].
      intros t. apply all_vertices_impl. intros a.
      apply grid_vertex_in_box.
      * intros x Hx. apply grid_coordinate_range; [done | lia].
      * intros y Hy. apply grid_coordinate_range; [done | lia].
    + intros HW2 HH2 x y t Hx Hy Ht.
      destruct (docs_node_covered thickness pxMm W H x y HW2 HH2 Hx Hy)
        as (tri & Hin & Hv).
      exists tri. split; [exact Hin |].
      unfold Docs.vx, Docs.vy, Docs.vzTop, ta_get in Hv.
      destruct (Z.leb_spec 0 (y * W + x)); [| nia].
      by rewrite Ht in Hv.
  - intros Hroom.
    destruct (part000_stream_summary thickness pxMm W H HW HH Hroom)
      as (bytes & E & Ebytes & _). by exists bytes.
  - split; [by apply part000_triangles_on_grid |]. split.
    + intros Hp.
      eapply Forall_impl; [by apply part000_triangles_on_grid |].
      intros t. apply all_vertices_impl. intros a.
      apply grid_vertex_in_box.
      * intros x Hx. apply grid_coordinate_range; [done | lia].
      * intros y Hy. apply grid_coordinate_range; [done | lia].
    + intros HW2 HH2 x y t Hx Hy Ht.
      destruct (part000_node_covered thickness pxMm W H x y
                  HW2 HH2 Hx Hy) as (tri & Hin & Hv).
      exists tri. split; [exact Hin |].
      unfold Part000.vx, Part000.vy, Part000.vz, ta_get in Hv.
      destruct (Z.leb_spec 0 (y * W + x)); [| nia].
      by rewrite Ht in Hv.
Qed.

(** Instance of X10: a 2 x 2 field at pitch 50. *)
Lemma mesh_vertices_on_grid_witness :
  Forall (all_vertices (in_box (IZR (2 - 1) * 50) (IZR (2 - 1) * 50)
                          [1; 2; 3; 4]%R))
    (docs_triangles [1; 2; 3; 4]%R 50 2 2) ∧
  Forall (all_vertices (in_box (IZR (2 - 1) * 50) (IZR (2 - 1) * 50)
                          [1; 2; 3; 4]%R))
    (part000_triangles [1; 2; 3; 4]%R 50 2 2).
Proof.
  destruct (mesh_vertices_on_grid [1; 2; 3; 4]%R 50 2 2)
    as [(_ & _ & Hdocs & _) (_ & _ & Hpart & _)]; [lia | lia | reflexivity |].
  split; [apply Hdocs; lra | apply Hpart; lra].
Defined.

(** ** The winding of the triangles *)

Section Winding.

Variables (thickness : list R) (pxMm : R) (W H : Z).
Hypothesis HW : 1 ≤ W.
Hypothesis HH : 1 ≤ H.
Hypothesis Hlen : Z.of_nat (length thickness) = W * H.
Hypothesis Hpitch : (0 < pxMm)%R.
Hypothesis Hthick : Forall (λ t, 0 < t)%R thickness.

Lemma node_height x y :
  0 ≤ x < W → 0 ≤ y < H →
  ∃ t, ta_get thickness (y * W + x) = Num t ∧ (0 < t)%R.
Proof.
  intros Hx Hy.
  destruct (field_node_value thickness W H HW HH Hlen x y Hx Hy)
    as (t & Ht & E).
  exists t. split; [exact E |].
  exact (proj1 (Forall_lookup _ _) Hthick _ _ Ht).
Qed.

Ltac node_heights :=
  repeat match goal with
  | |- context [ta_get thickness (?y * W + ?x)] =>
      let t := fresh "t" in
      let Ht := fresh "Ht" in
      destruct (node_height x y) as (t & -> & Ht); [lia | lia |]
  end.

Ltac outward :=
  cbv beta iota zeta delta [faces_outward winding_normal];
  rewrite ?minus_IZR, ?plus_IZR;
  first
    [ solve [left; repeat split; nra]
    | solve [right; left; repeat split; nra]
    | solve [right; right; left; repeat split; nra]
    | solve [right; right; right; left; repeat split; nra]
    | solve [right; right; right; right; left; repeat split; nra]
    | solve [right; right; right; right; right; repeat split; nra] ].

Lemma docs_triangles_outward :
  Forall (faces_outward (IZR (W - 1) * pxMm) (IZR (H - 1) * pxMm))
    (docs_triangles thickness pxMm W H).
Proof.
  unfold docs_triangles.
  repeat apply Forall_app_2.
  all: apply Forall_bind, Forall_seqZ; intros i Hi; cbn [compose].
  1, 2: apply Forall_bind, Forall_seqZ; intros j Hj; cbn [compose].
  all: repeat apply Forall_cons_2; try apply Forall_nil_2.
  all: cbv zeta; unfold Docs.vx, Docs.vy, Docs.vzTop; node_heights.
  all: outward.
Qed.

Lemma part000_triangles_outward :
  Forall (faces_outward (IZR (W - 1) * pxMm) (IZR (H - 1) * pxMm))
    (part000_triangles thickness pxMm W H).
Proof.
  unfold part000_triangles.
  repeat apply Forall_app_2.
  all: apply Forall_bind, Forall_seqZ; intros i Hi; cbn [compose].
  1: apply Forall_bind, Forall_seqZ; intros j Hj; cbn [compose].
  all: repeat apply Forall_cons_2; try apply Forall_nil_2.
  all: cbv zeta; unfold Part000.vx, Part000.vy, Part000.vz; node_heights.
  all: outward.
Qed.

End Winding.

(** X11.  The winding of both variants is outward.  For a positive pitch
    and a field of [W * H] positive heights, every triangle that
    [buildBinarySTL] writes is wound with its normal [(b - a) x (c - a)]
    pointing out of the solid: up (all heights positive) on the top surface,
    down on the bottom [z = 0], and away from the box
    [[0, (W-1) * pxMm] x [0, (H-1) * pxMm]] on each of the four walls. *)
Theorem triangles_wound_outward (thickness : list R) (pxMm : R) (W H : Z) :
  1 ≤ W → 1 ≤ H → Z.of_nat (length thickness) = W * H →
  (0 < pxMm)%R → Forall (λ t, 0 < t)%R thickness →
  Forall (faces_outward (IZR (W - 1) * pxMm) (IZR (H - 1) * pxMm))
    (docs_triangles thickness pxMm W H) ∧
  Forall (faces_outward (IZR (W - 1) * pxMm) (IZR (H - 1) * pxMm))
    (part000_triangles thickness pxMm W H).
Proof.
  intros HW HH Hlen Hp Ht. split.
  - by apply docs_triangles_outward.
  - by apply part000_triangles_outward.
Qed.

(** Instance of X11: a 2 x 2 field at pitch 50. *)
Lemma triangles_wound_outward_witness :
  Forall (faces_outward (IZR (2 - 1) * 50) (IZR (2 - 1) * 50))
    (docs_triangles [1; 2; 3; 4]%R 50 2 2) ∧
  Forall (faces_outward (IZR (2 - 1) * 50) (IZR (2 - 1) * 50))
    (part000_triangles [1; 2; 3; 4]%R 50 2 2).
Proof.
  apply (triangles_wound_outward [1; 2; 3; 4]%R 50 2 2);
    [lia | lia | reflexivity | lra |].
  repeat apply Forall_cons_2; try apply Forall_nil_2; lra.
Defined.

(** ** The two variants against each other *)

(* picking an element of a four-element list, and the cases of a member *)
Ltac element_0 := apply elem_of_cons; left; reflexivity.
Ltac element_1 := apply elem_of_cons; right; element_0.
Ltac element_2 := apply elem_of_cons; right; element_1.
Ltac element_3 := apply elem_of_cons; right; element_2.

Ltac four_elements H tac0 tac1 tac2 tac3 :=
  apply elem_of_cons in H as [-> | H]; [tac0 |];
  apply elem_of_cons in H as [-> | H]; [tac1 |];
  apply elem_of_cons in H as [-> | H]; [tac2 |];
  apply elem_of_cons in H as [-> | H]; [tac3 |];
  by apply elem_of_nil in H.

Section HalfTurn.

Variables (thickness : list R) (pxMm : R) (W H : Z).

Lemma turn_docs_vertex x y z :
  turn (IZR (W - 1) * pxMm) (IZR (H - 1) * pxMm)
    (Docs.vx pxMm W x, Docs.vy pxMm y, z)
  = (Part000.vx pxMm x, Part000.vy pxMm H y, z).
Proof.
  unfold turn, Docs.vx, Docs.vy, Part000.vx, Part000.vy.
  do 2 f_equal; f_equal; rewrite !minus_IZR; ring.
Qed.

Lemma elem_of_docs_triangles t :
  t ∈ docs_triangles thickness pxMm W H ↔
  let vx := Docs.vx pxMm W in
  let vy := Docs.vy pxMm in
  let vzTop := Docs.vzTop thickness W in
  (∃ x y, 0 ≤ x < W - 1 ∧ 0 ≤ y < H - 1 ∧
     t ∈ [((vx x, vy y, vzTop x y), (vx x, vy (y + 1), vzTop x (y + 1)),
           (vx (x + 1), vy y, vzTop (x + 1) y));
          ((vx (x + 1), vy y, vzTop (x + 1) y),
           (vx x, vy (y + 1), vzTop x (y + 1)),
           (vx (x + 1), vy (y + 1), vzTop (x + 1) (y + 1)));
          ((vx x, vy y, Num 0), (vx (x + 1), vy y, Num 0),
           (vx x, vy (y + 1), Num 0));
          ((vx (x + 1), vy y, Num 0), (vx (x + 1), vy (y + 1), Num 0),
           (vx x, vy (y + 1), Num 0))]) ∨
  (∃ x, 0 ≤ x < W - 1 ∧
     t ∈ [((vx x, vy 0, vzTop x 0), (vx (x + 1), vy 0, vzTop (x + 1) 0),
           (vx x, vy 0, Num 0));
          ((vx (x + 1), vy 0, vzTop (x + 1) 0), (vx (x + 1), vy 0, Num 0),
           (vx x, vy 0, Num 0));
          ((vx (x + 1), vy (H - 1), vzTop (x + 1) (H - 1)),
           (vx x, vy (H - 1), vzTop x (H - 1)),
           (vx x, vy (H - 1), Num 0));
          ((vx x, vy (H - 1), Num 0), (vx (x + 1), vy (H - 1), Num 0),
           (vx (x + 1), vy (H - 1), vzTop (x + 1) (H - 1)))]) ∨
  (∃ y, 0 ≤ y < H - 1 ∧
     t ∈ [((vx 0, vy (y + 1), vzTop 0 (y + 1)), (vx 0, vy y, vzTop 0 y),
           (vx 0, vy y, Num 0));
          ((vx 0, vy y, Num 0), (vx 0, vy (y + 1), Num 0),
           (vx 0, vy (y + 1), vzTop 0 (y + 1)));
          ((vx (W - 1), vy y, vzTop (W - 1) y),
           (vx (W - 1), vy (y + 1), vzTop (W - 1) (y + 1)),
           (vx (W - 1), vy y, Num 0));
          ((vx (W - 1), vy (y + 1), vzTop (W - 1) (y + 1)),
           (vx (W - 1), vy (y + 1), Num 0),
           (vx (W - 1), vy y, Num 0))]).
Proof.
  unfold docs_triangles. cbv zeta.
  rewrite !elem_of_app.
  repeat setoid_rewrite list_elem_of_bind.
  repeat setoid_rewrite elem_of_seqZ.
  repeat setoid_rewrite elem_of_cons.
  repeat setoid_rewrite elem_of_nil.
  split.
  - intros [(y & (x & Ht & Hx) & Hy) | [(y & (x & Ht & Hx) & Hy) |
      [(x & Ht & Hx) | [(x & Ht & Hx) | [(y & Ht & Hy) | (y & Ht & Hy)]]]]].
    + left. exists x, y. intuition lia.
    + left. exists x, y. intuition lia.
    + right. left. exists x. intuition lia.
    + right. left. exists x. intuition lia.
    + right. right. exists y. intuition lia.
    + right. right. exists y. intuition lia.
  - intros [(x & y & Hx & Hy & Ht) | [(x & Hx & Ht) | (y & Hy & Ht)]].
    + destruct Ht as [Ht | [Ht | [Ht | [Ht | []]]]].
      * left. exists y. split; [exists x |]; intuition lia.
      * left. exists y. split; [exists x |]; intuition lia.
      * right. left. exists y. split; [exists x |]; intuition lia.
      * right. left. exists y. split; [exists x |]; intuition lia.
    + destruct Ht as [Ht | [Ht | [Ht | [Ht | []]]]].
      * do 2 right. left. exists x. intuition lia.
      * do 2 right. left. exists x. intuition lia.
      * do 3 right. left. exists x. intuition lia.
      * do 3 right. left. exists x. intuition lia.
    + destruct Ht as [Ht | [Ht | [Ht | [Ht | []]]]].
      * do 4 right. left. exists y. intuition lia.
      * do 4 right. left. exists y. intuition lia.
      * do 5 right. exists y. intuition lia.
      * do 5 right. exists y. intuition lia.
Qed.

Lemma elem_of_part000_triangles t :
  t ∈ part000_triangles thickness pxMm W H ↔
  let vx := Part000.vx pxMm in
  let vy := Part000.vy pxMm H in
  let vz := Part000.vz thickness W in
  (∃ x y, 0 ≤ x < W - 1 ∧ 0 ≤ y < H - 1 ∧
     t ∈ [((vx x, vy y, vz x y), (vx x, vy (y + 1), vz x (y + 1)),
           (vx (x + 1), vy y, vz (x + 1) y));
          ((vx (x + 1), vy y, vz (x + 1) y),
           (vx x, vy (y + 1), vz x (y + 1)),
           (vx (x + 1), vy (y + 1), vz (x + 1) (y + 1)));
          ((vx x, vy y, Num 0), (vx (x + 1), vy y, Num 0),
           (vx x, vy (y + 1), Num 0));
          ((vx (x + 1), vy y, Num 0), (vx (x + 1), vy (y + 1), Num 0),
           (vx x, vy (y + 1), Num 0))]) ∨
  (∃ x, 0 ≤ x < W - 1 ∧
     t ∈ [((vx x, vy 0, vz x 0), (vx (x + 1), vy 0, vz (x + 1) 0),
           (vx x, vy 0, Num 0));
          ((vx (x + 1), vy 0, vz (x + 1) 0), (vx (x + 1), vy 0, Num 0),
           (vx x, vy 0, Num 0));
          ((vx x, vy (H - 1), vz x (H - 1)), (vx x, vy (H - 1), Num 0),
           (vx (x + 1), vy (H - 1), vz (x + 1) (H - 1)));
          ((vx (x + 1), vy (H - 1), vz (x + 1) (H - 1)),
           (vx x, vy (H - 1), Num 0),
           (vx (x + 1), vy (H - 1), Num 0))]) ∨
  (∃ y, 0 ≤ y < H - 1 ∧
     t ∈ [((vx 0, vy y, vz 0 y), (vx 0, vy y, Num 0),
           (vx 0, vy (y + 1), vz 0 (y + 1)));
          ((vx 0, vy (y + 1), vz 0 (y + 1)), (vx 0, vy y, Num 0),
           (vx 0, vy (y + 1), Num 0));
          ((vx (W - 1), vy y, vz (W - 1) y),
           (vx (W - 1), vy (y + 1), vz (W - 1) (y + 1)),
           (vx (W - 1), vy y, Num 0));
          ((vx (W - 1), vy (y + 1), vz (W - 1) (y + 1)),
           (vx (W - 1), vy (y + 1), Num 0),
           (vx (W - 1), vy y, Num 0))]).
Proof.
  unfold part000_triangles. cbv zeta.
  rewrite !elem_of_app.
  repeat setoid_rewrite list_elem_of_bind.
  repeat setoid_rewrite elem_of_seqZ.
  split.
  - intros [(y & (x & Ht & Hx) & Hy) | [(x & Ht & Hx) | (y & Ht & Hy)]].
    + left. exists x, y. split; [lia |]. split; [lia | exact Ht].
    + right. left. exists x. split; [lia | exact Ht].
    + right. right. exists y. split; [lia | exact Ht].
  - intros [(x & y & Hx & Hy & Ht) | [(x & Hx & Ht) | (y & Hy & Ht)]].
    + left. exists y. split; [exists x; split; [exact Ht | lia] | lia].
    + right. left. exists x. split; [exact Ht | lia].
    + right. right. exists y. split; [exact Ht | lia].
Qed.

Ltac same_face_after_turn :=
  unfold turn_triangle, same_face; rewrite !turn_docs_vertex;
  first [left; reflexivity | right; left; reflexivity
        | right; right; reflexivity].

Lemma docs_face_in_part000 t :
  t ∈ docs_triangles thickness pxMm W H →
  ∃ t', t' ∈ part000_triangles thickness pxMm W H ∧
    same_face (turn_triangle (IZR (W - 1) * pxMm) (IZR (H - 1) * pxMm) t) t'.
Proof.
  intros Ht. apply elem_of_docs_triangles in Ht. cbv zeta in Ht.
  destruct Ht as [(x & y & Hx & Hy & Ht) | [(x & Hx & Ht) | (y & Hy & Ht)]].
  - four_elements Ht
      ltac:(eexists; split;
        [apply elem_of_part000_triangles; cbv zeta; left; exists x, y;
         split; [lia |]; split; [lia |]; element_0
        | same_face_after_turn])
      ltac:(eexists; split;
        [apply elem_of_part000_triangles; cbv zeta; left; exists x, y;
         split; [lia |]; split; [lia |]; element_1
        | same_face_after_turn])
      ltac:(eexists; split;
        [apply elem_of_part000_triangles; cbv zeta; left; exists x, y;
         split; [lia |]; split; [lia |]; element_2
        | same_face_after_turn])
      ltac:(eexists; split;
        [apply elem_of_part000_triangles; cbv zeta; left; exists x, y;
         split; [lia |]; split; [lia |]; element_3
        | same_face_after_turn]).
  - four_elements Ht
      ltac:(eexists; split;
        [apply elem_of_part000_triangles; cbv zeta; right; left; exists x;
         split; [lia |]; element_0
        | same_face_after_turn])
      ltac:(eexists; split;
        [apply elem_of_part000_triangles; cbv zeta; right; left; exists x;
         split; [lia |]; element_1
        | same_face_after_turn])
      ltac:(eexists; split;
        [apply elem_of_part000_triangles; cbv zeta; right; left; exists x;
         split; [lia |]; element_2
        | same_face_after_turn])
      ltac:(eexists; split;
        [apply elem_of_part000_triangles; cbv zeta; right; left; exists x;
         split; [lia |]; element_3
        | same_face_after_turn]).
  - four_elements Ht
      ltac:(eexists; split;
        [apply elem_of_part000_triangles; cbv zeta; right; right; exists y;
         split; [lia |]; element_0
        | same_face_after_turn])
      ltac:(eexists; split;
        [apply elem_of_part000_triangles; cbv zeta; right; right; exists y;
         split; [lia |]; element_1
        | same_face_after_turn])
      ltac:(eexists; split;
        [apply elem_of_part000_triangles; cbv zeta; right; right; exists y;
         split; [lia |]; element_2
        | same_face_after_turn])
      ltac:(eexists; split;
        [apply elem_of_part000_triangles; cbv zeta; right; right; exists y;
         split; [lia |]; element_3
        | same_face_after_turn]).
Qed.

Lemma part000_face_in_docs t' :
  t' ∈ part000_triangles thickness pxMm W H →
  ∃ t, t ∈ docs_triangles thickness pxMm W H ∧
    same_face (turn_triangle (IZR (W - 1) * pxMm) (IZR (H - 1) * pxMm) t) t'.
Proof.
  intros Ht. apply elem_of_part000_triangles in Ht. cbv zeta in Ht.
  destruct Ht as [(x & y & Hx & Hy & Ht) | [(x & Hx & Ht) | (y & Hy & Ht)]].
  - four_elements Ht
      ltac:(eexists; split;
        [apply elem_of_docs_triangles; cbv zeta; left; exists x, y;
         split; [lia |]; split; [lia |]; element_0
        | same_face_after_turn])
      ltac:(eexists; split;
        [apply elem_of_docs_triangles; cbv zeta; left; exists x, y;
         split; [lia |]; split; [lia |]; element_1
        | same_face_after_turn])
      ltac:(eexists; split;
        [apply elem_of_docs_triangles; cbv zeta; left; exists x, y;
         split; [lia |]; split; [lia |]; element_2
        | same_face_after_turn])
      ltac:(eexists; split;
        [apply elem_of_docs_triangles; cbv zeta; left; exists x, y;
         split; [lia |]; split; [lia |]; element_3
        | same_face_after_turn]).
  - four_elements Ht
      ltac:(eexists; split;
        [apply elem_of_docs_triangles; cbv zeta; right; left; exists x;
         split; [lia |]; element_0
        | same_face_after_turn])
      ltac:(eexists; split;
        [apply elem_of_docs_triangles; cbv zeta; right; left; exists x;
         split; [lia |]; element_1
        | same_face_after_turn])
      ltac:(eexists; split;
        [apply elem_of_docs_triangles; cbv zeta; right; left; exists x;
         split; [lia |]; element_2
        | same_face_after_turn])
      ltac:(eexists; split;
        [apply elem_of_docs_triangles; cbv zeta; right; left; exists x;
         split; [lia |]; element_3
        | same_face_after_turn]).
  - four_elements Ht
      ltac:(eexists; split;
        [apply elem_of_docs_triangles; cbv zeta; right; right; exists y;
         split; [lia |]; element_0
        | same_face_after_turn])
      ltac:(eexists; split;
        [apply elem_of_docs_triangles; cbv zeta; right; right; exists y;
         split; [lia |]; element_1
        | same_face_after_turn])
      ltac:(eexists; split;
        [apply elem_of_docs_triangles; cbv zeta; right; right; exists y;
         split; [lia |]; element_2
        | same_face_after_turn])
      ltac:(eexists; split;
        [apply elem_of_docs_triangles; cbv zeta; right; right; exists y;
         split; [lia |]; element_3
        | same_face_after_turn]).
Qed.

End HalfTurn.

Lemma length_triangles_agree thickness pxMm W H :
  length (docs_triangles thickness pxMm W H)
  = length (part000_triangles thickness pxMm W H).
Proof.
  unfold docs_triangles, part000_triangles.
  rewrite !length_app.
  rewrite !length_grid_pairs by done.
  rewrite !length_row_pairs by done.
  rewrite (length_bind_const _ (Z.to_nat (W - 1) * 4) (seqZ 0 (H - 1))).
  2: intros y; by rewrite (length_bind_const _ 4), length_seqZ.
  rewrite !(length_bind_const _ 4) by done.
  rewrite !length_seqZ. lia.
Qed.

(** X12.  The two variants build the same solid, turned by 180 degrees.
    For every field, pitch and grid, each triangle src/docs/app.js passes to
    [writeTri], turned by a half turn about the vertical axis through the
    centre of the box [[0, (W-1) * pxMm] x [0, (H-1) * pxMm]], is a triangle
    src/unnamed/part_000 passes to [writeTri], with the same vertices in the
    same cyclic order, and conversely; the two lists have the same length. *)
Theorem variants_differ_by_half_turn (thickness : list R) (pxMm : R)
    (W H : Z) :
  let turned :=
    turn_triangle (IZR (W - 1) * pxMm) (IZR (H - 1) * pxMm) in
  (∀ t, t ∈ docs_triangles thickness pxMm W H →
     ∃ t', t' ∈ part000_triangles thickness pxMm W H ∧
           same_face (turned t) t') ∧
  (∀ t', t' ∈ part000_triangles thickness pxMm W H →
     ∃ t, t ∈ docs_triangles thickness pxMm W H ∧ same_face (turned t) t') ∧
  length (docs_triangles thickness pxMm W H)
  = length (part000_triangles thickness pxMm W H).
Proof.
  intros turned. split; [| split].
  - apply docs_face_in_part000.
  - apply part000_face_in_docs.
  - apply length_triangles_agree.
Qed.

(** Instance of X12: the first bottom triangle of a 2 x 2 field. *)
Lemma variants_differ_by_half_turn_witness :
  ∃ t', t' ∈ part000_triangles [1; 2; 3; 4]%R 50 2 2 ∧
    same_face
      (turn_triangle (IZR (2 - 1) * 50) (IZR (2 - 1) * 50)
         ((Docs.vx 50 2 0, Docs.vy 50 0, Num 0),
          (Docs.vx 50 2 (0 + 1), Docs.vy 50 0, Num 0),
          (Docs.vx 50 2 0, Docs.vy 50 (0 + 1), Num 0)))
      t'.
Proof.
  apply (variants_differ_by_half_turn [1; 2; 3; 4]%R 50 2 2).
  apply elem_of_docs_triangles. cbv zeta. left. exists 0, 0.
  split; [lia |]. split; [lia |].
  apply elem_of_cons; right. apply elem_of_cons; right.
  apply elem_of_cons; left. reflexivity.
Defined.

(** ** The solid is closed *)

Lemma edge_eq (p q p' q' : vertex) : p = p' → q = q' → (p, q) = (p', q').
Proof. by intros -> ->. Qed.

Section Closed.

Variables (thickness : list R) (pxMm : R) (W H : Z).
Hypothesis HW : 2 ≤ W.
Hypothesis HH : 2 ≤ H.

Lemma docs_top_vertex_eq x y x' y' :
  x = x' → y = y' →
  (Docs.vx pxMm W x, Docs.vy pxMm y, Docs.vzTop thickness W x y)
  = (Docs.vx pxMm W x', Docs.vy pxMm y', Docs.vzTop thickness W x' y').
Proof. by intros -> ->. Qed.

Lemma docs_bottom_vertex_eq x y x' y' :
  x = x' → y = y' →
  (Docs.vx pxMm W x, Docs.vy pxMm y, Num 0)
  = (Docs.vx pxMm W x', Docs.vy pxMm y', Num 0).
Proof. by intros -> ->. Qed.

Ltac vertex_eq :=
  first [ apply docs_top_vertex_eq; lia | apply docs_bottom_vertex_eq; lia ].

Ltac reversed_edge :=
  unfold has_edge;
  first [ left; apply edge_eq; vertex_eq
        | right; left; apply edge_eq; vertex_eq
        | right; right; apply edge_eq; vertex_eq ].

Ltac partner nav :=
  first
    [ solve [eexists; split;
        [apply elem_of_docs_triangles; cbv zeta; nav; element_0
        | reversed_edge]]
    | solve [eexists; split;
        [apply elem_of_docs_triangles; cbv zeta; nav; element_1
        | reversed_edge]]
    | solve [eexists; split;
        [apply elem_of_docs_triangles; cbv zeta; nav; element_2
        | reversed_edge]]
    | solve [eexists; split;
        [apply elem_of_docs_triangles; cbv zeta; nav; element_3
        | reversed_edge]] ].

Ltac in_quad x y :=
  partner ltac:(left; exists x, y; split; [lia |]; split; [lia |]).
Ltac in_row_walls x :=
  partner ltac:(right; left; exists x; split; [lia |]).
Ltac in_column_walls y :=
  partner ltac:(right; right; exists y; split; [lia |]).

Ltac close_quad_edge x y :=
  first
    [ in_quad x y
    | solve [destruct (decide (x = 0)) as [-> | ?];
               [in_column_walls y | in_quad (x - 1) y]]
    | solve [destruct (decide (y = 0)) as [-> | ?];
               [in_row_walls x | in_quad x (y - 1)]]
    | solve [destruct (decide (x = W - 2)) as [-> | ?];
               [in_column_walls y | in_quad (x + 1) y]]
    | solve [destruct (decide (y = H - 2)) as [-> | ?];
               [in_row_walls x | in_quad x (y + 1)]] ].

Ltac close_row_wall_edge x :=
  first
    [ in_row_walls x
    | in_quad x 0
    | in_quad x (H - 2)
    | solve [destruct (decide (x = 0)) as [-> | ?];
               [first [in_column_walls 0 | in_column_walls (H - 2)]
               | in_row_walls (x - 1)]]
    | solve [destruct (decide (x = W - 2)) as [-> | ?];
               [first [in_column_walls 0 | in_column_walls (H - 2)]
               | in_row_walls (x + 1)]] ].

Ltac close_column_wall_edge y :=
  first
    [ in_column_walls y
    | in_quad 0 y
    | in_quad (W - 2) y
    | solve [destruct (decide (y = 0)) as [-> | ?];
               [first [in_row_walls 0 | in_row_walls (W - 2)]
               | in_column_walls (y - 1)]]
    | solve [destruct (decide (y = H - 2)) as [-> | ?];
               [first [in_row_walls 0 | in_row_walls (W - 2)]
               | in_column_walls (y + 1)]] ].

Ltac three_edges He tac :=
  destruct He as [He | [He | He]]; injection He as -> ->; tac.

Lemma docs_solid_closed t p q :
  t ∈ docs_triangles thickness pxMm W H → has_edge p q t →
  ∃ t', t' ∈ docs_triangles thickness pxMm W H ∧ has_edge q p t'.
Proof.
  intros Ht He. apply elem_of_docs_triangles in Ht. cbv zeta in Ht.
  destruct Ht as [(x & y & Hx & Hy & Ht) | [(x & Hx & Ht) | (y & Hy & Ht)]].
  - four_elements Ht
      ltac:(three_edges He ltac:(close_quad_edge x y))
      ltac:(three_edges He ltac:(close_quad_edge x y))
      ltac:(three_edges He ltac:(close_quad_edge x y))
      ltac:(three_edges He ltac:(close_quad_edge x y)).
  - four_elements Ht
      ltac:(three_edges He ltac:(close_row_wall_edge x))
      ltac:(three_edges He ltac:(close_row_wall_edge x))
      ltac:(three_edges He ltac:(close_row_wall_edge x))
      ltac:(three_edges He ltac:(close_row_wall_edge x)).
  - four_elements Ht
      ltac:(three_edges He ltac:(close_column_wall_edge y))
      ltac:(three_edges He ltac:(close_column_wall_edge y))
      ltac:(three_edges He ltac:(close_column_wall_edge y))
      ltac:(three_edges He ltac:(close_column_wall_edge y)).
Qed.

End Closed.

Lemma same_face_edge (p q : vertex) (t t' : triangle) :
  same_face t t' → has_edge p q t ↔ has_edge p q t'.
Proof.
  destruct t as [[a b] c]. intros [-> | [-> | ->]]; cbn; tauto.
Qed.

Lemma turn_edge (xmax ymax : R) (p q : vertex) (t : triangle) :
  has_edge p q t →
  has_edge (turn xmax ymax p) (turn xmax ymax q) (turn_triangle xmax ymax t).
Proof.
  destruct t as [[a b] c]. cbn.
  intros [[= -> ->] | [[= -> ->] | [= -> ->]]]; auto.
Qed.

Lemma turn_edge_inv (xmax ymax : R) (p q : vertex) (t : triangle) :
  has_edge p q (turn_triangle xmax ymax t) →
  ∃ p0 q0, has_edge p0 q0 t ∧
    p = turn xmax ymax p0 ∧ q = turn xmax ymax q0.
Proof.
  destruct t as [[a b] c]. cbn.
  intros [[= -> ->] | [[= -> ->] | [= -> ->]]].
  - exists a, b. auto.
  - exists b, c. auto.
  - exists c, a. auto.
Qed.

Lemma part000_solid_closed thickness pxMm W H t p q :
  2 ≤ W → 2 ≤ H →
  t ∈ part000_triangles thickness pxMm W H → has_edge p q t →
  ∃ t', t' ∈ part000_triangles thickness pxMm W H ∧ has_edge q p t'.
Proof.
  intros HW HH Ht He.
  destruct (part000_face_in_docs thickness pxMm W H t Ht)
    as (t0 & Ht0 & Hface).
  apply (same_face_edge p q _ _ Hface) in He.
  apply turn_edge_inv in He as (p0 & q0 & He0 & -> & ->).
  destruct (docs_solid_closed thickness pxMm W H HW HH t0 p0 q0 Ht0 He0)
    as (t1 & Ht1 & He1).
  destruct (docs_face_in_part000 thickness pxMm W H t1 Ht1)
    as (t1' & Ht1' & Hface1).
  exists t1'. split; [exact Ht1' |].
  apply (same_face_edge _ _ _ _ Hface1). by apply turn_edge.
Qed.

(** X13.  The solid is closed.  On a grid of at least 2 x 2, in both
    variants, every directed edge of every triangle passed to [writeTri] is,
    in the opposite direction, an edge of a triangle passed to [writeTri]:
    no edge of the mesh is left open, and neighbouring triangles are wound
    consistently. *)
Theorem solid_is_closed (thickness : list R) (pxMm : R) (W H : Z) :
  2 ≤ W → 2 ≤ H →
  (∀ t p q, t ∈ docs_triangles thickness pxMm W H → has_edge p q t →
     ∃ t', t' ∈ docs_triangles thickness pxMm W H ∧ has_edge q p t') ∧
  (∀ t p q, t ∈ part000_triangles thickness pxMm W H → has_edge p q t →
     ∃ t', t' ∈ part000_triangles thickness pxMm W H ∧ has_edge q p t').
Proof.
  intros HW HH. split.
  - intros t p q. by apply docs_solid_closed.
  - intros t p q. by apply part000_solid_closed.
Qed.

(** Instance of X13: the first edge of the first bottom triangle of a
    2 x 2 field, in src/docs/app.js. *)
Lemma solid_is_closed_witness :
  ∃ t', t' ∈ docs_triangles [1; 2; 3; 4]%R 50 2 2 ∧
    has_edge (Docs.vx 50 2 (0 + 1), Docs.vy 50 0, Num 0)
      (Docs.vx 50 2 0, Docs.vy 50 0, Num 0) t'.
Proof.
  destruct (solid_is_closed [1; 2; 3; 4]%R 50 2 2) as [Hdocs _];
    [lia | lia |].
  apply (Hdocs ((Docs.vx 50 2 0, Docs.vy 50 0, Num 0),
                (Docs.vx 50 2 (0 + 1), Docs.vy 50 0, Num 0),
                (Docs.vx 50 2 0, Docs.vy 50 (0 + 1), Num 0))).
  - apply elem_of_docs_triangles. cbv zeta. left. exists 0, 0.
    split; [lia |]. split; [lia |].
    apply elem_of_cons; right. apply elem_of_cons; right.
    apply elem_of_cons; left. reflexivity.
  - left. reflexivity.
Defined.

(** ** The page: the rot180 box and the file name *)

Lemma extension_rest_with_stop (s : list Z) :
  full_stop ∈ s → extension_rest s = false.
Proof.
  intros Hin. unfold extension_rest. destruct s as [| c s]; [done |].
  induction (c :: s) as [| d l IH]; [by apply elem_of_nil in Hin |].
  cbn. apply elem_of_cons in Hin as [<- | Hin]; [done |].
  rewrite (IH Hin). apply andb_false_r.
Qed.

Lemma extension_rest_without_stop (s : list Z) :
  s ≠ [] → full_stop ∉ s → extension_rest s = true.
Proof.
  intros Hne Hnot. unfold extension_rest. destruct s as [| c s]; [done |].
  clear Hne. induction (c :: s) as [| d l IH]; [done |].
  apply not_elem_of_cons in Hnot as [Hd Hnot]. cbn.
  rewrite (IH Hnot), andb_true_r.
  unfold full_stop in Hd. destruct (Z.eqb_spec d 46); [congruence | done].
Qed.

Lemma extension_here_before_stop (c : Z) (s : list Z) :
  full_stop ∈ s → extension_here (c :: s) = false.
Proof.
  intros Hin. cbn. rewrite (extension_rest_with_stop s Hin).
  apply andb_false_r.
Qed.

Lemma loadedName_unfold (name : list Z) :
  loadedName name
  = if extension_here name then []
    else match name with
         | [] => []
         | c :: rest => c :: loadedName rest
         end.
Proof. by destruct name. Qed.

(** X15.  [loadedName], the file name with [/\.[^.]+$/] replaced by the
    empty string, drops the last extension and nothing else: a name
    [base.ext] with a non-empty [ext] free of full stops gives [base],
    whatever [base] is (so "a.tar.gz" gives "a.tar" and ".jpg" gives the
    empty name); a name without a full stop, and a name that ends in a full
    stop, are kept as they are. *)
Theorem loadedName_drops_last_extension :
  (∀ base ext, ext ≠ [] → full_stop ∉ ext →
     loadedName (base ++ full_stop :: ext) = base) ∧
  (∀ name, full_stop ∉ name → loadedName name = name) ∧
  (∀ name, loadedName (name ++ [full_stop]) = name ++ [full_stop]).
Proof.
  split; [| split].
  - intros base ext Hne Hnot. induction base as [| b base IH].
    + rewrite loadedName_unfold. cbn [app extension_here].
      by rewrite (extension_rest_without_stop ext Hne Hnot).
    + rewrite loadedName_unfold. cbn [app].
      rewrite extension_here_before_stop.
      * by rewrite IH.
      * apply elem_of_app. right. by left.
  - intros name Hnot. induction name as [| c name IH]; [done |].
    apply not_elem_of_cons in Hnot as [Hc Hnot].
    rewrite loadedName_unfold. cbn [extension_here].
    unfold full_stop in Hc.
    destruct (Z.eqb_spec c 46) as [| _]; [congruence |].
    cbn [andb]. by rewrite (IH Hnot).
  - intros name. induction name as [| c name IH]; [done |].
    rewrite loadedName_unfold. cbn [app].
    rewrite extension_here_before_stop.
    + by rewrite IH.
    + apply elem_of_app. right. by left.
Qed.

(** Instance of X15: "a.tar.gz" and ".jpg". *)
Lemma loadedName_drops_last_extension_witness :
  loadedName name_a_tar_gz = [97; 46; 116; 97; 114] ∧
  loadedName name_dot_jpg = [].
Proof.
  destruct loadedName_drops_last_extension as (Hext & _ & _). split.
  - apply (Hext [97; 46; 116; 97; 114] [103; 122]); [done |].
    unfold full_stop. intros Hin.
    repeat (apply elem_of_cons in Hin as [Hin | Hin]; [lia |]).
    by apply elem_of_nil in Hin.
  - apply (Hext [] [106; 112; 103]); [done |].
    unfold full_stop. intros Hin.
    repeat (apply elem_of_cons in Hin as [Hin | Hin]; [lia |]).
    by apply elem_of_nil in Hin.
Defined.

(** X14.  Checking the rot180 box sets both flips in both variants.
    Unchecking it again undoes the rotation in src/unnamed/part_000 only:
    its handler clears both flip boxes (whatever they held before), so the
    field is the unflipped one again; the handler of src/docs/app.js leaves
    them checked, so [getParams] still asks for both flips and the field
    stays the reverse of the unflipped one. *)
Theorem rot180_unchecked_again (img : Image) :
  (∀ f, Docs.getParams (docs_set_rot180 true f)
        = with_flips true true (Docs.getParams f)) ∧
  (∀ f, Part000.getParams (part000_set_rot180 true f)
        = with_flips true true (Part000.getParams f)) ∧
  (∀ f, let f' := docs_set_rot180 false (docs_set_rot180 true f) in
     Docs.getParams f' = with_flips true true (Docs.getParams f) ∧
     ∀ r r0,
       Docs.computeThicknessMap img (Docs.getParams f') = Ok r →
       Docs.computeThicknessMap img
         (with_flips false false (Docs.getParams f)) = Ok r0 →
       thickness r = reverse (thickness r0)) ∧
  (∀ f, let f' := part000_set_rot180 false (part000_set_rot180 true f) in
     Part000.getParams f' = with_flips false false (Part000.getParams f)).
Proof.
  split; [| split; [| split]].
  - intros f. reflexivity.
  - intros f. reflexivity.
  - intros f f'.
    assert (E : Docs.getParams f' = with_flips true true (Docs.getParams f))
      by reflexivity.
    split; [exact E |]. rewrite E. intros r r0 Hr Hr0.
    destruct (docs_flipped_field img (Docs.getParams f) true true r r0 Hr Hr0)
      as (EW & EH & Hget).
    destruct (docs_computeThicknessMap_Ok _ _ _ Hr)
      as (_ & _ & HW & _ & _ & Hlen & _).
    destruct (docs_computeThicknessMap_Ok _ _ _ Hr0)
      as (_ & _ & _ & _ & _ & Hlen0 & _).
    apply (field_reverse _ _ (W r) (H r)); try done. congruence.
  - intros f f'. reflexivity.
Qed.

(** Instance of X14: the white image, on a page of defaults. *)
Lemma rot180_unchecked_again_witness :
  ∃ r r0,
    Docs.computeThicknessMap (flat_image 255 255)
      (Docs.getParams
         (docs_set_rot180 false
            (docs_set_rot180 true (docs_blank_form false)))) = Ok r ∧
    Docs.computeThicknessMap (flat_image 255 255)
      (with_flips false false (Docs.getParams (docs_blank_form false)))
    = Ok r0 ∧
    thickness r = reverse (thickness r0).
Proof.
  destruct (rot180_unchecked_again (flat_image 255 255))
    as (_ & _ & Hdocs & _).
  destruct (Hdocs (docs_blank_form false)) as [E Hrev].
  destruct (docs_computeThicknessMap_returns (flat_image 255 255)
              (Docs.getParams
                 (docs_set_rot180 false
                    (docs_set_rot180 true (docs_blank_form false)))))
    as [r Hr].
  { pose proof (docs_getParams_widthPx
                  (docs_set_rot180 false
                     (docs_set_rot180 true (docs_blank_form false)))). lia. }
  destruct (docs_computeThicknessMap_returns (flat_image 255 255)
              (with_flips false false
                 (Docs.getParams (docs_blank_form false))))
    as [r0 Hr0].
  { pose proof (docs_getParams_widthPx (docs_blank_form false)).
    cbn [with_flips widthPx]. lia. }
  exists r, r0. split; [exact Hr |]. split; [exact Hr0 |].
  exact (Hrev r r0 Hr Hr0).
Defined.

(** ** The size of the printed relief *)



